(** * Quit-OS product API: the chain-of-custody ledger

    A shallow embedding of the transactional handlers of [server.js]
    (batch creation, shipment to a retailer, consumer purchase, batch
    trace) over the relations, constraints and the [get_batch_history]
    function of [postgresql-product-schema.sql].  Around them: the
    middleware authenticateWPUser and the token that the WordPress plugin
    builds for it, product creation and the retailers' catalogue, the
    grouping of search results, and the statement splitting of
    [setup-database.js].

    Conventions of the embedding.
    - A table is the list of its rows in insertion order.
    - INTEGER and DATE columns are [Z]; a TIMESTAMP is a [Z] instant; a
      DECIMAL(_,2) amount is the [Z] number of hundredths, so that
      [quantity * unit_price] is a product in [Z].  Range errors of the
      column types are not modelled.
    - A request body is typed: identifiers, quantities and prices are
      integers, so the NOT NULL constraints of the columns they fill hold.
    - CURRENT_TIMESTAMP and uuid_generate_v4() are inputs of a handler
      ([now], [uuid]): one transaction sees one timestamp.
    - A SERIAL column draws its value from a sequence; sequences are not
      rolled back with the transaction that advanced them.
    - Columns that no handler writes and no query reads (movement uuid,
      generated total_value, metadata, addresses, ...) are left out.
    - Requests are served one at a time: a handler is a function from the
      state before its transaction to its response and the state after.
      The one interleaving of concurrent transactions that is modelled is
      that of a shipment whose availability check precedes the commit of
      another transaction ([post_inventory_add_interleaved]).  The
      row-level security policies of the setup guide, which the schema
      file does not create, are outside the model.
    - A stored function returns rows only when the column types of its
      query are those it declares ([return_query]). *)

From Stdlib Require Import ZArith List String Bool Lia Permutation Sorted.
From Stdlib Require Import DecimalString Ascii NArith.
Import ListNotations.

Local Open Scope string_scope.
Local Open Scope list_scope.
Local Open Scope Z_scope.

(** ** Relations of the schema *)

Inductive entity_type := manufacturer | retailer | consumer.

Inductive movement_type :=
| manufacture | ship_to_retailer | sale_to_consumer
| return_ | disposal | recall | transfer.

Record manufacturers_row := {
  m_id : Z;
  m_wp_user_id : Z;
  m_company_name : string }.

Record products_row := {
  p_id : Z;
  p_manufacturer_id : Z;
  p_product_name : string;
  p_sku : string }.

Record product_batches_row := {
  pb_id : Z;
  pb_uuid : Z;
  pb_product_id : Z;
  pb_batch_number : string;
  pb_manufacture_date : Z;
  pb_expiry_date : Z;
  pb_quantity_produced : Z;
  pb_quantity_available : Z;
  pb_lab_test_results : string;
  pb_qr_code_data : string;
  pb_blockchain_hash : option string;
  pb_created_at : Z }.

Record retailers_row := {
  r_id : Z;
  r_wp_user_id : Z;
  r_store_name : string }.

Record retailer_inventory_row := {
  ri_id : Z;
  ri_retailer_id : Z;
  ri_product_id : Z;
  ri_batch_id : Z;
  ri_quantity_in_stock : Z;
  ri_quantity_reserved : Z;
  ri_price : Z;
  ri_discount_price : option Z;
  ri_is_active : bool;
  ri_display_priority : Z;
  ri_last_restocked : option Z;
  ri_last_sold : option Z;
  ri_updated_at : Z }.

Record product_movements_row := {
  pm_id : Z;
  pm_movement_type : movement_type;
  pm_product_id : Z;
  pm_batch_id : Z;
  pm_from_entity_type : entity_type;
  pm_from_entity_id : Z;
  pm_to_entity_type : entity_type;
  pm_to_entity_id : Z;
  pm_quantity : Z;
  pm_unit_price : option Z;
  pm_notes : option string;
  pm_created_at : Z }.

(** One element of the [items] array of a purchase request. *)
Record item := {
  item_product_id : Z;
  item_batch_id : Z;
  item_quantity : Z;
  item_unit_price : Z }.

Record consumer_purchases_row := {
  cp_id : Z;
  cp_uuid : Z;
  cp_wp_user_id : option Z;
  cp_retailer_id : Z;
  cp_order_metadata : list item;
  cp_purchase_date : Z;
  cp_pos_transaction_id : option string;
  cp_payment_method : option string;
  cp_total_amount : Z }.

Record purchase_items_row := {
  pi_id : Z;
  pi_purchase_id : Z;
  pi_product_id : Z;
  pi_batch_id : Z;
  pi_quantity : Z;
  pi_unit_price : Z;
  pi_total_price : Z;
  pi_discount_applied : Z }.

(** The stored relations. *)
Record tables := {
  manufacturers : list manufacturers_row;
  products : list products_row;
  retailers : list retailers_row;
  product_batches : list product_batches_row;
  retailer_inventory : list retailer_inventory_row;
  product_movements : list product_movements_row;
  consumer_purchases : list consumer_purchases_row;
  purchase_items : list purchase_items_row }.

(** The sequences behind the SERIAL primary keys the handlers draw from. *)
Record sequences := {
  product_batches_id_seq : Z;
  retailer_inventory_id_seq : Z;
  product_movements_id_seq : Z;
  consumer_purchases_id_seq : Z;
  purchase_items_id_seq : Z }.

Record database := {
  db_tables : tables;
  db_seqs : sequences }.

Definition set_product_batches (l : list product_batches_row) (t : tables) :=
  {| manufacturers := manufacturers t; products := products t;
     retailers := retailers t; product_batches := l;
     retailer_inventory := retailer_inventory t;
     product_movements := product_movements t;
     consumer_purchases := consumer_purchases t;
     purchase_items := purchase_items t |}.

Definition set_retailer_inventory (l : list retailer_inventory_row) (t : tables) :=
  {| manufacturers := manufacturers t; products := products t;
     retailers := retailers t; product_batches := product_batches t;
     retailer_inventory := l;
     product_movements := product_movements t;
     consumer_purchases := consumer_purchases t;
     purchase_items := purchase_items t |}.

Definition set_product_movements (l : list product_movements_row) (t : tables) :=
  {| manufacturers := manufacturers t; products := products t;
     retailers := retailers t; product_batches := product_batches t;
     retailer_inventory := retailer_inventory t;
     product_movements := l;
     consumer_purchases := consumer_purchases t;
     purchase_items := purchase_items t |}.

Definition set_consumer_purchases (l : list consumer_purchases_row) (t : tables) :=
  {| manufacturers := manufacturers t; products := products t;
     retailers := retailers t; product_batches := product_batches t;
     retailer_inventory := retailer_inventory t;
     product_movements := product_movements t;
     consumer_purchases := l;
     purchase_items := purchase_items t |}.

Definition set_purchase_items (l : list purchase_items_row) (t : tables) :=
  {| manufacturers := manufacturers t; products := products t;
     retailers := retailers t; product_batches := product_batches t;
     retailer_inventory := retailer_inventory t;
     product_movements := product_movements t;
     consumer_purchases := consumer_purchases t;
     purchase_items := l |}.

(** ** Transactions

    A handler body runs between BEGIN and COMMIT.  A statement either
    returns or throws; what the [catch] block does is [try_transaction]:
    ROLLBACK restores the relations of the state at BEGIN and keeps the
    sequences where they are. *)

Inductive exn :=
| JsError (message : string)        (* throw new Error(message) *)
| JsTypeError (message : string)    (* a property of rows[0] when rows is empty *)
| DatabaseError (constraint : string). (* the database rejects a statement *)

(** error.message.  The message of a database error is PostgreSQL's; it
    is rendered here by the name of the constraint that was violated. *)
Definition error_message (e : exn) : string :=
  match e with
  | JsError m => m
  | JsTypeError m => m
  | DatabaseError c => String.append "violates constraint " c
  end.

Inductive outcome (A : Type) :=
| Returned (a : A)
| Thrown (e : exn).
Arguments Returned {A} a.
Arguments Thrown {A} e.

Definition tx (A : Type) := database -> outcome A * database.

Definition ret {A} (a : A) : tx A := fun db => (Returned a, db).

Definition throw {A} (e : exn) : tx A := fun db => (Thrown e, db).

Definition bind {A B} (c : tx A) (k : A -> tx B) : tx B :=
  fun db =>
    match c db with
    | (Returned a, db') => k a db'
    | (Thrown e, db') => (Thrown e, db')
    end.

Notation "x <- c ;; k" := (bind c (fun x => k))
  (at level 61, c at next level, right associativity).
Notation "c ;; k" := (bind c (fun _ => k))
  (at level 61, right associativity).

(** A SELECT: a function of the relations. *)
Definition query {A} (q : tables -> A) : tx A :=
  fun db => (Returned (q (db_tables db)), db).

(** The write of a statement that passed its constraints. *)
Definition store (f : tables -> tables) : tx unit :=
  fun db => (Returned tt, {| db_tables := f (db_tables db); db_seqs := db_seqs db |}).

(** A constraint of the schema, named as the error reports it. *)
Definition constraint (name : string) (ok : tables -> bool) : tx unit :=
  fun db => if ok (db_tables db) then (Returned tt, db)
            else (Thrown (DatabaseError name), db).

Definition check_row (violated : option string) : tx unit :=
  match violated with
  | None => ret tt
  | Some name => throw (DatabaseError name)
  end.

Definition rollback (at_begin current : database) : database :=
  {| db_tables := db_tables at_begin; db_seqs := db_seqs current |}.

Definition try_transaction {R} (body : tx R) (on_catch : exn -> R)
  : database -> R * database :=
  fun db =>
    match body db with
    | (Returned r, db') => (r, db')
    | (Thrown e, db') => (on_catch e, rollback db db')
    end.

(** nextval of the five sequences. *)
Definition nextval_product_batches_id : tx Z := fun db =>
  let s := db_seqs db in
  (Returned (product_batches_id_seq s),
   {| db_tables := db_tables db;
      db_seqs := {| product_batches_id_seq := product_batches_id_seq s + 1;
                    retailer_inventory_id_seq := retailer_inventory_id_seq s;
                    product_movements_id_seq := product_movements_id_seq s;
                    consumer_purchases_id_seq := consumer_purchases_id_seq s;
                    purchase_items_id_seq := purchase_items_id_seq s |} |}).

Definition nextval_retailer_inventory_id : tx Z := fun db =>
  let s := db_seqs db in
  (Returned (retailer_inventory_id_seq s),
   {| db_tables := db_tables db;
      db_seqs := {| product_batches_id_seq := product_batches_id_seq s;
                    retailer_inventory_id_seq := retailer_inventory_id_seq s + 1;
                    product_movements_id_seq := product_movements_id_seq s;
                    consumer_purchases_id_seq := consumer_purchases_id_seq s;
                    purchase_items_id_seq := purchase_items_id_seq s |} |}).

Definition nextval_product_movements_id : tx Z := fun db =>
  let s := db_seqs db in
  (Returned (product_movements_id_seq s),
   {| db_tables := db_tables db;
      db_seqs := {| product_batches_id_seq := product_batches_id_seq s;
                    retailer_inventory_id_seq := retailer_inventory_id_seq s;
                    product_movements_id_seq := product_movements_id_seq s + 1;
                    consumer_purchases_id_seq := consumer_purchases_id_seq s;
                    purchase_items_id_seq := purchase_items_id_seq s |} |}).

Definition nextval_consumer_purchases_id : tx Z := fun db =>
  let s := db_seqs db in
  (Returned (consumer_purchases_id_seq s),
   {| db_tables := db_tables db;
      db_seqs := {| product_batches_id_seq := product_batches_id_seq s;
                    retailer_inventory_id_seq := retailer_inventory_id_seq s;
                    product_movements_id_seq := product_movements_id_seq s;
                    consumer_purchases_id_seq := consumer_purchases_id_seq s + 1;
                    purchase_items_id_seq := purchase_items_id_seq s |} |}).

Definition nextval_purchase_items_id : tx Z := fun db =>
  let s := db_seqs db in
  (Returned (purchase_items_id_seq s),
   {| db_tables := db_tables db;
      db_seqs := {| product_batches_id_seq := product_batches_id_seq s;
                    retailer_inventory_id_seq := retailer_inventory_id_seq s;
                    product_movements_id_seq := product_movements_id_seq s;
                    consumer_purchases_id_seq := consumer_purchases_id_seq s;
                    purchase_items_id_seq := purchase_items_id_seq s + 1 |} |}).

(** UPDATE ... SET ... WHERE ...: every row the WHERE clause selects is
    replaced, and the CHECK constraints of the table are evaluated on each
    new row; the first violation rejects the whole statement. *)
Fixpoint sql_update {row} (where_ : row -> bool) (set : row -> row)
    (check : row -> option string) (rows : list row) : string + list row :=
  match rows with
  | [] => inr []
  | r :: rest =>
      if where_ r then
        match check (set r) with
        | Some c => inl c
        | None =>
            match sql_update where_ set check rest with
            | inl c => inl c
            | inr rest' => inr (set r :: rest')
            end
        end
      else
        match sql_update where_ set check rest with
        | inl c => inl c
        | inr rest' => inr (r :: rest')
        end
  end.

(** ** Constraints and statements, table by table *)

(** product_batches: CHECK (quantity_produced > 0),
    CHECK (quantity_available >= 0), valid_dates. *)
Definition product_batches_check (b : product_batches_row) : option string :=
  if negb (0 <? pb_quantity_produced b)
  then Some "product_batches_quantity_produced_check"
  else if negb (0 <=? pb_quantity_available b)
  then Some "product_batches_quantity_available_check"
  else if negb (pb_manufacture_date b <? pb_expiry_date b)
  then Some "valid_dates"
  else None.

(** retailer_inventory: CHECK (quantity_in_stock >= 0),
    CHECK (quantity_reserved >= 0), CHECK (price > 0), valid_reserved. *)
Definition retailer_inventory_check (r : retailer_inventory_row) : option string :=
  if negb (0 <=? ri_quantity_in_stock r)
  then Some "retailer_inventory_quantity_in_stock_check"
  else if negb (0 <=? ri_quantity_reserved r)
  then Some "retailer_inventory_quantity_reserved_check"
  else if negb (0 <? ri_price r)
  then Some "retailer_inventory_price_check"
  else if negb (ri_quantity_reserved r <=? ri_quantity_in_stock r)
  then Some "valid_reserved"
  else None.

(** product_movements: CHECK (quantity > 0); the movement and entity kinds
    are those of the two enumerations. *)
Definition product_movements_check (m : product_movements_row) : option string :=
  if negb (0 <? pm_quantity m)
  then Some "product_movements_quantity_check"
  else None.

(** purchase_items: CHECK (quantity > 0). *)
Definition purchase_items_check (i : purchase_items_row) : option string :=
  if negb (0 <? pi_quantity i)
  then Some "purchase_items_quantity_check"
  else None.

Definition has_product (id : Z) (t : tables) : bool :=
  existsb (fun p => p_id p =? id) (products t).

Definition has_batch (id : Z) (t : tables) : bool :=
  existsb (fun b => pb_id b =? id) (product_batches t).

Definition has_retailer (id : Z) (t : tables) : bool :=
  existsb (fun r => r_id r =? id) (retailers t).

Definition has_purchase (id : Z) (t : tables) : bool :=
  existsb (fun c => cp_id c =? id) (consumer_purchases t).

(** INSERT INTO product_batches (...) RETURNING id, uuid. *)
Definition insert_product_batches (now uuid product_id : Z) (batch_number : string)
    (manufacture_date expiry_date quantity_produced quantity_available : Z)
    (lab_test_results : string) : tx product_batches_row :=
  id <- nextval_product_batches_id ;;
  let row :=
    {| pb_id := id; pb_uuid := uuid; pb_product_id := product_id;
       pb_batch_number := batch_number;
       pb_manufacture_date := manufacture_date;
       pb_expiry_date := expiry_date;
       pb_quantity_produced := quantity_produced;
       pb_quantity_available := quantity_available;
       pb_lab_test_results := lab_test_results;
       pb_qr_code_data := "{}"; pb_blockchain_hash := None;
       pb_created_at := now |} in
  check_row (product_batches_check row) ;;
  constraint "product_batches_pkey" (fun t => negb (has_batch id t)) ;;
  constraint "product_batches_uuid_key"
    (fun t => negb (existsb (fun b => pb_uuid b =? uuid) (product_batches t))) ;;
  constraint "unique_batch_per_product"
    (fun t => negb (existsb (fun b => (pb_product_id b =? product_id)
                                      && String.eqb (pb_batch_number b) batch_number)
                            (product_batches t))) ;;
  constraint "product_batches_product_id_fkey" (has_product product_id) ;;
  store (fun t => set_product_batches (product_batches t ++ [row]) t) ;;
  ret row.

(** INSERT INTO product_movements (...). *)
Definition insert_product_movements (now : Z) (kind : movement_type)
    (product_id batch_id : Z) (from_entity_type : entity_type) (from_entity_id : Z)
    (to_entity_type : entity_type) (to_entity_id : Z) (quantity : Z)
    (unit_price : option Z) : tx unit :=
  id <- nextval_product_movements_id ;;
  let row :=
    {| pm_id := id; pm_movement_type := kind;
       pm_product_id := product_id; pm_batch_id := batch_id;
       pm_from_entity_type := from_entity_type;
       pm_from_entity_id := from_entity_id;
       pm_to_entity_type := to_entity_type;
       pm_to_entity_id := to_entity_id;
       pm_quantity := quantity; pm_unit_price := unit_price;
       pm_notes := None; pm_created_at := now |} in
  check_row (product_movements_check row) ;;
  constraint "product_movements_pkey"
    (fun t => negb (existsb (fun m => pm_id m =? id) (product_movements t))) ;;
  constraint "product_movements_product_id_fkey" (has_product product_id) ;;
  constraint "product_movements_batch_id_fkey" (has_batch batch_id) ;;
  store (fun t => set_product_movements (product_movements t ++ [row]) t).

(** UPDATE product_batches SET quantity_available = quantity_available - $1
    WHERE id = $2. *)
Definition ship_out (quantity : Z) (b : product_batches_row) : product_batches_row :=
  {| pb_id := pb_id b; pb_uuid := pb_uuid b; pb_product_id := pb_product_id b;
     pb_batch_number := pb_batch_number b;
     pb_manufacture_date := pb_manufacture_date b;
     pb_expiry_date := pb_expiry_date b;
     pb_quantity_produced := pb_quantity_produced b;
     pb_quantity_available := pb_quantity_available b - quantity;
     pb_lab_test_results := pb_lab_test_results b;
     pb_qr_code_data := pb_qr_code_data b;
     pb_blockchain_hash := pb_blockchain_hash b;
     pb_created_at := pb_created_at b |}.

Definition update_batch_availability (quantity batch_id : Z) : tx unit :=
  fun db =>
    match sql_update (fun b => pb_id b =? batch_id) (ship_out quantity)
                     product_batches_check (product_batches (db_tables db)) with
    | inl c => (Thrown (DatabaseError c), db)
    | inr rows => store (set_product_batches rows) db
    end.

(** The key of unique_retailer_product_batch. *)
Definition same_position (retailer_id product_id batch_id : Z)
    (r : retailer_inventory_row) : bool :=
  (ri_retailer_id r =? retailer_id) && (ri_product_id r =? product_id)
  && (ri_batch_id r =? batch_id).

(** The SET clause of the ON CONFLICT branch, followed by the BEFORE UPDATE
    trigger update_inventory_updated_at. *)
Definition restock (now quantity price : Z) (r : retailer_inventory_row)
  : retailer_inventory_row :=
  {| ri_id := ri_id r; ri_retailer_id := ri_retailer_id r;
     ri_product_id := ri_product_id r; ri_batch_id := ri_batch_id r;
     ri_quantity_in_stock := ri_quantity_in_stock r + quantity;
     ri_quantity_reserved := ri_quantity_reserved r;
     ri_price := price;
     ri_discount_price := ri_discount_price r;
     ri_is_active := ri_is_active r;
     ri_display_priority := ri_display_priority r;
     ri_last_restocked := ri_last_restocked r;
     ri_last_sold := ri_last_sold r;
     ri_updated_at := now |}.

(** The SET clause of the purchase handler's UPDATE, followed by the same
    trigger. *)
Definition sell (now quantity : Z) (r : retailer_inventory_row)
  : retailer_inventory_row :=
  {| ri_id := ri_id r; ri_retailer_id := ri_retailer_id r;
     ri_product_id := ri_product_id r; ri_batch_id := ri_batch_id r;
     ri_quantity_in_stock := ri_quantity_in_stock r - quantity;
     ri_quantity_reserved := ri_quantity_reserved r;
     ri_price := ri_price r;
     ri_discount_price := ri_discount_price r;
     ri_is_active := ri_is_active r;
     ri_display_priority := ri_display_priority r;
     ri_last_restocked := ri_last_restocked r;
     ri_last_sold := Some now;
     ri_updated_at := now |}.

Definition update_retailer_inventory (where_ : retailer_inventory_row -> bool)
    (set : retailer_inventory_row -> retailer_inventory_row) : tx unit :=
  fun db =>
    match sql_update where_ set retailer_inventory_check
                     (retailer_inventory (db_tables db)) with
    | inl c => (Thrown (DatabaseError c), db)
    | inr rows => store (set_retailer_inventory rows) db
    end.

(** INSERT INTO retailer_inventory (...) VALUES ($1, $2, $3, $4, $5)
    ON CONFLICT (retailer_id, product_id, batch_id) DO UPDATE SET ...

    The proposed row takes its id from the sequence and passes the CHECK
    constraints before the conflict is looked for; unique_retailer_product_batch
    leaves at most one row to update. *)
Definition upsert_retailer_inventory (now retailer_id product_id batch_id
    quantity price : Z) : tx unit :=
  id <- nextval_retailer_inventory_id ;;
  let proposed :=
    {| ri_id := id; ri_retailer_id := retailer_id;
       ri_product_id := product_id; ri_batch_id := batch_id;
       ri_quantity_in_stock := quantity; ri_quantity_reserved := 0;
       ri_price := price; ri_discount_price := None;
       ri_is_active := true; ri_display_priority := 0;
       ri_last_restocked := None; ri_last_sold := None;
       ri_updated_at := now |} in
  check_row (retailer_inventory_check proposed) ;;
  conflict <- query (fun t => existsb (same_position retailer_id product_id batch_id)
                                      (retailer_inventory t)) ;;
  if (conflict : bool) then
    update_retailer_inventory (same_position retailer_id product_id batch_id)
                              (restock now quantity price)
  else
    constraint "retailer_inventory_pkey"
      (fun t => negb (existsb (fun r => ri_id r =? id) (retailer_inventory t))) ;;
    constraint "retailer_inventory_retailer_id_fkey" (has_retailer retailer_id) ;;
    constraint "retailer_inventory_product_id_fkey" (has_product product_id) ;;
    constraint "retailer_inventory_batch_id_fkey" (has_batch batch_id) ;;
    store (fun t => set_retailer_inventory (retailer_inventory t ++ [proposed]) t).

(** INSERT INTO consumer_purchases (...) RETURNING id, uuid. *)
Definition insert_consumer_purchases (now uuid : Z) (wp_user_id : option Z)
    (retailer_id total_amount : Z) (payment_method pos_transaction_id : option string)
    (items : list item) : tx consumer_purchases_row :=
  id <- nextval_consumer_purchases_id ;;
  let row :=
    {| cp_id := id; cp_uuid := uuid; cp_wp_user_id := wp_user_id;
       cp_retailer_id := retailer_id; cp_order_metadata := items;
       cp_purchase_date := now;
       cp_pos_transaction_id := pos_transaction_id;
       cp_payment_method := payment_method;
       cp_total_amount := total_amount |} in
  constraint "consumer_purchases_pkey" (fun t => negb (has_purchase id t)) ;;
  constraint "consumer_purchases_uuid_key"
    (fun t => negb (existsb (fun c => cp_uuid c =? uuid) (consumer_purchases t))) ;;
  constraint "consumer_purchases_retailer_id_fkey" (has_retailer retailer_id) ;;
  store (fun t => set_consumer_purchases (consumer_purchases t ++ [row]) t) ;;
  ret row.

(** INSERT INTO purchase_items (...). *)
Definition insert_purchase_items (purchase_id product_id batch_id quantity
    unit_price total_price : Z) : tx unit :=
  id <- nextval_purchase_items_id ;;
  let row :=
    {| pi_id := id; pi_purchase_id := purchase_id;
       pi_product_id := product_id; pi_batch_id := batch_id;
       pi_quantity := quantity; pi_unit_price := unit_price;
       pi_total_price := total_price; pi_discount_applied := 0 |} in
  check_row (purchase_items_check row) ;;
  constraint "purchase_items_pkey"
    (fun t => negb (existsb (fun i => pi_id i =? id) (purchase_items t))) ;;
  constraint "purchase_items_purchase_id_fkey" (has_purchase purchase_id) ;;
  constraint "purchase_items_product_id_fkey" (has_product product_id) ;;
  constraint "purchase_items_batch_id_fkey" (has_batch batch_id) ;;
  store (fun t => set_purchase_items (purchase_items t ++ [row]) t).

(** ** The stored function get_batch_history *)

(** ORDER BY is left to the executor: any function that returns its input
    rearranged in non-decreasing order of the key implements the clause
    (see [order_by_spec]); the schema's function names no second key. *)
Definition sorter := forall A : Type, (A -> Z) -> list A -> list A.

(** LEFT JOIN against [right]: the matching rows, or one NULL row. *)
Definition left_join {R} (on : R -> bool) (right : list R) : list (option R) :=
  match filter on right with
  | [] => [None]
  | matches => map Some matches
  end.

Definition is_manufacturer (ty : entity_type) : bool :=
  match ty with manufacturer => true | _ => false end.

Definition is_retailer (ty : entity_type) : bool :=
  match ty with retailer => true | _ => false end.

(** A row of the FROM clause: pm, pb and the four outer-joined parties. *)
Record history_join := {
  hj_pm : product_movements_row;
  hj_pb : product_batches_row;
  hj_m1 : option manufacturers_row;
  hj_r1 : option retailers_row;
  hj_m2 : option manufacturers_row;
  hj_r2 : option retailers_row }.

(** The four outer joins of one movement [pm] already joined to [pb]. *)
Definition history_join_parties (t : tables) (pm : product_movements_row)
    (pb : product_batches_row) : list history_join :=
  flat_map (fun m1 =>
    flat_map (fun r1 =>
      flat_map (fun m2 =>
        map (fun r2 =>
               {| hj_pm := pm; hj_pb := pb; hj_m1 := m1; hj_r1 := r1;
                  hj_m2 := m2; hj_r2 := r2 |})
            (left_join (fun r => is_retailer (pm_to_entity_type pm)
                                 && (pm_to_entity_id pm =? r_id r))
                       (retailers t)))
        (left_join (fun m => is_manufacturer (pm_to_entity_type pm)
                             && (pm_to_entity_id pm =? m_id m))
                   (manufacturers t)))
      (left_join (fun r => is_retailer (pm_from_entity_type pm)
                           && (pm_from_entity_id pm =? r_id r))
                 (retailers t)))
    (left_join (fun m => is_manufacturer (pm_from_entity_type pm)
                         && (pm_from_entity_id pm =? m_id m))
               (manufacturers t)).

(** FROM product_movements pm JOIN product_batches pb ON pm.batch_id = pb.id
    LEFT JOIN ... *)
Definition history_from (t : tables) : list history_join :=
  flat_map (fun pm =>
    flat_map (history_join_parties t pm)
             (filter (fun pb => pm_batch_id pm =? pb_id pb) (product_batches t)))
    (product_movements t).

Definition string_of_Z (z : Z) : string := NilZero.string_of_int (Z.to_int z).

(** The two CASE expressions: a NULL column of an outer join that found no
    row stays NULL. *)
Definition entity_label (ty : entity_type) (id : Z)
    (m : option manufacturers_row) (r : option retailers_row) : option string :=
  match ty with
  | manufacturer => option_map m_company_name m
  | retailer => option_map r_store_name r
  | consumer => Some (String.append "Consumer #" (string_of_Z id))
  end.

Record history_row := {
  movement_date : Z;
  movement_kind : movement_type;
  from_entity : option string;
  to_entity : option string;
  quantity_moved : Z;
  notes : option string }.

Definition history_select (j : history_join) : history_row :=
  let pm := hj_pm j in
  {| movement_date := pm_created_at pm;
     movement_kind := pm_movement_type pm;
     from_entity := entity_label (pm_from_entity_type pm) (pm_from_entity_id pm)
                                 (hj_m1 j) (hj_r1 j);
     to_entity := entity_label (pm_to_entity_type pm) (pm_to_entity_id pm)
                               (hj_m2 j) (hj_r2 j);
     quantity_moved := pm_quantity pm;
     notes := pm_notes pm |}.

(** SELECT ... FROM ... WHERE pb.uuid = batch_uuid ORDER BY pm.created_at:
    the query that the function hands to RETURN QUERY. *)
Definition history_query (order_by : sorter) (batch_uuid : Z) (t : tables)
  : list history_row :=
  map history_select
      (order_by _ (fun j => pm_created_at (hj_pm j))
                (filter (fun j => pb_uuid (hj_pb j) =? batch_uuid) (history_from t))).

(** The types of the columns at hand. *)
Inductive sql_type := TIMESTAMPTZ | VARCHAR | TEXT | INTEGER.

Definition sql_type_eqb (a b : sql_type) : bool :=
  match a, b with
  | TIMESTAMPTZ, TIMESTAMPTZ | VARCHAR, VARCHAR | TEXT, TEXT | INTEGER, INTEGER => true
  | _, _ => false
  end.

(** text is the preferred type among the string types, and varchar and
    text cast into each other implicitly. *)
Definition preferred_type (ty : sql_type) : bool :=
  match ty with TEXT => true | _ => false end.

Definition implicit_cast (source target : sql_type) : bool :=
  match source, target with
  | VARCHAR, TEXT | TEXT, VARCHAR => true
  | _, _ => sql_type_eqb source target
  end.

(** The type of a CASE expression whose results are all of string type.
    PostgreSQL starts from the type of the ELSE result and goes through
    the THEN results: a preferred type is kept, and another candidate
    gives way only to a type that it casts to and that does not cast
    back. *)
Definition case_type (then_ : list sql_type) (else_ : sql_type) : sql_type :=
  fold_left (fun candidate next =>
               if negb (preferred_type candidate)
                  && implicit_cast candidate next
                  && negb (implicit_cast next candidate)
               then next else candidate)
            then_ else_.

(** The columns of the SELECT list: company_name and store_name are
    VARCHAR(255), and ['Consumer #' || pm.from_entity_id] is text. *)
Definition history_select_types : list sql_type :=
  [ TIMESTAMPTZ;                         (* pm.created_at *)
    VARCHAR;                             (* pm.movement_type *)
    case_type [VARCHAR; VARCHAR] TEXT;   (* ... as from_entity *)
    case_type [VARCHAR; VARCHAR] TEXT;   (* ... as to_entity *)
    INTEGER;                             (* pm.quantity *)
    TEXT ].                              (* pm.notes *)

(** RETURNS TABLE (movement_date TIMESTAMP WITH TIME ZONE, movement_type
    VARCHAR, from_entity VARCHAR, to_entity VARCHAR, quantity INTEGER,
    notes TEXT). *)
Definition get_batch_history_returns : list sql_type :=
  [ TIMESTAMPTZ; VARCHAR; VARCHAR; VARCHAR; INTEGER; TEXT ].

Fixpoint same_types (declared actual : list sql_type) : bool :=
  match declared, actual with
  | [], [] => true
  | d :: declared', a :: actual' => sql_type_eqb d a && same_types declared' actual'
  | _, _ => false
  end.

(** RETURN QUERY hands over the rows of a query whose columns have the
    declared types, one by one; for any other query PL/pgSQL raises, with
    this message, whatever the rows are. *)
Definition return_query {A} (declared actual : list sql_type) (rows : list A)
  : string + list A :=
  if same_types declared actual
  then inr rows
  else inl "structure of query does not match function result type".

Definition get_batch_history (order_by : sorter) (batch_uuid : Z) (t : tables)
  : string + list history_row :=
  return_query get_batch_history_returns history_select_types
               (history_query order_by batch_uuid t).

(** ** Requests and responses *)

(** req.user, as the authentication middleware leaves it. *)
Record user := {
  user_id : Z;
  user_type : string }.

(** A row of the trace handler's first query: pb.* and the joined names. *)
Record batch_detail := {
  bd_batch : product_batches_row;
  bd_product_name : string;
  bd_sku : string;
  bd_manufacturer_name : string }.

Inductive json :=
| BatchCreated (batch_id batch_uuid : Z)
| InventoryAdded
| PurchaseCompleted (purchase_id purchase_uuid : Z)
| BatchTrace (batch : batch_detail) (movement_history : list history_row)
| ErrorBody (error : string).

Record response := {
  status : Z;
  body : json }.

(** ** POST /api/products/:productId/batches *)

Definition post_products_batches (now uuid : Z) (req_user : user) (productId : Z)
    (batch_number : string) (manufacture_date expiry_date quantity_produced : Z)
    (lab_test_results : option string) : database -> response * database :=
  try_transaction
    (productResult <- query (fun t =>
        flat_map (fun p =>
          flat_map (fun m =>
            if (p_manufacturer_id p =? m_id m) && (p_id p =? productId)
               && (m_wp_user_id m =? user_id req_user)
            then [p] else [])
          (manufacturers t))
        (products t)) ;;
     match productResult with
     | [] => ret {| status := 403; body := ErrorBody "Unauthorized" |}
     | product :: _ =>
         batch <- insert_product_batches now uuid productId batch_number
                    manufacture_date expiry_date
                    quantity_produced
                    quantity_produced (* Initially all available *)
                    (match lab_test_results with Some s => s | None => "{}" end) ;;
         insert_product_movements now manufacture productId (pb_id batch)
           manufacturer (p_manufacturer_id product)
           manufacturer (p_manufacturer_id product)
           quantity_produced None ;;
         ret {| status := 200; body := BatchCreated (pb_id batch) (pb_uuid batch) |}
     end)
    (fun _ => {| status := 500; body := ErrorBody "Failed to create batch" |}).

(** ** POST /api/inventory/add *)

Definition inventory_add_body (now : Z) (req_user : user)
    (product_id batch_id quantity price : Z) : tx response :=
  retailerResult <- query (fun t =>
      filter (fun r => r_wp_user_id r =? user_id req_user) (retailers t)) ;;
  match retailerResult with
  | [] => throw (JsError "Retailer not found")
  | retailer_row :: _ =>
      let retailerId := r_id retailer_row in
      (* Check batch availability *)
      batchResult <- query (fun t =>
          map pb_quantity_available
              (filter (fun b => (pb_id b =? batch_id) && (pb_product_id b =? product_id))
                      (product_batches t))) ;;
      if match batchResult with
         | [] => true
         | quantity_available :: _ => quantity_available <? quantity
         end
      then throw (JsError "Insufficient batch quantity available")
      else
        (* Update or insert inventory *)
        upsert_retailer_inventory now retailerId product_id batch_id quantity price ;;
        (* Update batch availability *)
        update_batch_availability quantity batch_id ;;
        (* Get manufacturer ID for movement record *)
        manufacturerResult <- query (fun t =>
            map p_manufacturer_id
                (filter (fun p => p_id p =? product_id) (products t))) ;;
        match manufacturerResult with
        | [] => throw (JsTypeError
                  "Cannot read properties of undefined (reading 'manufacturer_id')")
        | manufacturer_id :: _ =>
            (* Record movement *)
            insert_product_movements now ship_to_retailer product_id batch_id
              manufacturer manufacturer_id retailer retailerId
              quantity (Some price) ;;
            ret {| status := 200; body := InventoryAdded |}
        end
  end.

Definition post_inventory_add (now : Z) (req_user : user)
    (product_id batch_id quantity price : Z) (db : database) : response * database :=
  if negb (String.eqb (user_type req_user) "retailer")
  then ({| status := 403; body := ErrorBody "Only retailers can manage inventory" |}, db)
  else
    try_transaction
      (inventory_add_body now req_user product_id batch_id quantity price)
      (fun error => {| status := 500; body := ErrorBody (error_message error) |})
      db.

(** *** Two shipments at once

    The pool serves each request on a connection of its own, and BEGIN
    opens a transaction at the default isolation level of PostgreSQL, READ
    COMMITTED: a statement sees what is committed when it starts, and what
    its own transaction wrote; the handler asks for no other level and its
    SELECTs take no lock (there is no FOR UPDATE).

    [inventory_add_reads] is the body of the handler up to the throw of
    the availability check, which writes nothing, and
    [inventory_add_writes] is the rest.  In
    [post_inventory_add_interleaved] the two SELECTs see [db], and the
    statements after the check start when other transactions have
    committed in between and left [committed]. *)

Definition inventory_add_reads (req_user : user)
    (product_id batch_id quantity : Z) : tx Z :=
  retailerResult <- query (fun t =>
      filter (fun r => r_wp_user_id r =? user_id req_user) (retailers t)) ;;
  match retailerResult with
  | [] => throw (JsError "Retailer not found")
  | retailer_row :: _ =>
      (* Check batch availability *)
      batchResult <- query (fun t =>
          map pb_quantity_available
              (filter (fun b => (pb_id b =? batch_id) && (pb_product_id b =? product_id))
                      (product_batches t))) ;;
      if match batchResult with
         | [] => true
         | quantity_available :: _ => quantity_available <? quantity
         end
      then throw (JsError "Insufficient batch quantity available")
      else ret (r_id retailer_row)
  end.

Definition inventory_add_writes (now retailerId product_id batch_id
    quantity price : Z) : tx response :=
  (* Update or insert inventory *)
  upsert_retailer_inventory now retailerId product_id batch_id quantity price ;;
  (* Update batch availability *)
  update_batch_availability quantity batch_id ;;
  (* Get manufacturer ID for movement record *)
  manufacturerResult <- query (fun t =>
      map p_manufacturer_id
          (filter (fun p => p_id p =? product_id) (products t))) ;;
  match manufacturerResult with
  | [] => throw (JsTypeError
            "Cannot read properties of undefined (reading 'manufacturer_id')")
  | manufacturer_id :: _ =>
      (* Record movement *)
      insert_product_movements now ship_to_retailer product_id batch_id
        manufacturer manufacturer_id retailer retailerId
        quantity (Some price) ;;
      ret {| status := 200; body := InventoryAdded |}
  end.

Definition post_inventory_add_interleaved (now : Z) (req_user : user)
    (product_id batch_id quantity price : Z) (db committed : database)
  : response * database :=
  if negb (String.eqb (user_type req_user) "retailer")
  then ({| status := 403; body := ErrorBody "Only retailers can manage inventory" |},
        committed)
  else
    match inventory_add_reads req_user product_id batch_id quantity db with
    | (Thrown error, _) =>
        ({| status := 500; body := ErrorBody (error_message error) |}, committed)
    | (Returned retailerId, _) =>
        try_transaction
          (inventory_add_writes now retailerId product_id batch_id quantity price)
          (fun error => {| status := 500; body := ErrorBody (error_message error) |})
          committed
    end.

(** ** POST /api/purchase *)

(** items.reduce((sum, item) => sum + (item.quantity * item.unit_price), 0) *)
Definition total_amount (items : list item) : Z :=
  fold_left (fun sum item => sum + item_quantity item * item_unit_price item) items 0.

(** wp_user_id || 0 *)
Definition or_zero (wp_user_id : option Z) : Z :=
  match wp_user_id with
  | Some id => id
  | None => 0
  end.

(** The body of [for (const item of items)]. *)
Definition process_item (now retailer_id : Z) (wp_user_id : option Z)
    (purchaseId : Z) (item : item) : tx unit :=
  (* Insert purchase item *)
  insert_purchase_items purchaseId (item_product_id item) (item_batch_id item)
    (item_quantity item) (item_unit_price item)
    (item_quantity item * item_unit_price item) ;;
  (* Update inventory *)
  update_retailer_inventory
    (same_position retailer_id (item_product_id item) (item_batch_id item))
    (sell now (item_quantity item)) ;;
  (* Record movement *)
  insert_product_movements now sale_to_consumer
    (item_product_id item) (item_batch_id item)
    retailer retailer_id consumer (or_zero wp_user_id)
    (item_quantity item) (Some (item_unit_price item)).

Fixpoint process_items (now retailer_id : Z) (wp_user_id : option Z)
    (purchaseId : Z) (items : list item) : tx unit :=
  match items with
  | [] => ret tt
  | item :: rest =>
      process_item now retailer_id wp_user_id purchaseId item ;;
      process_items now retailer_id wp_user_id purchaseId rest
  end.

Definition purchase_body (now uuid retailer_id : Z) (items : list item)
    (wp_user_id : option Z) (payment_method pos_transaction_id : option string)
  : tx response :=
  (* Create purchase record *)
  purchase <- insert_consumer_purchases now uuid wp_user_id retailer_id
                (total_amount items) payment_method pos_transaction_id items ;;
  let purchaseId := cp_id purchase in
  (* Process each item *)
  process_items now retailer_id wp_user_id purchaseId items ;;
  ret {| status := 200; body := PurchaseCompleted purchaseId (cp_uuid purchase) |}.

Definition post_purchase (now uuid retailer_id : Z) (items : list item)
    (wp_user_id : option Z) (payment_method pos_transaction_id : option string)
  : database -> response * database :=
  try_transaction
    (purchase_body now uuid retailer_id items wp_user_id payment_method
                   pos_transaction_id)
    (fun _ => {| status := 500; body := ErrorBody "Failed to process purchase" |}).

(** ** GET /api/trace/batch/:batchNumber *)

(** The first query: the batches of that number with their product and
    manufacturer; rows are taken in table order. *)
Definition trace_batch_query (batchNumber : string) (t : tables) : list batch_detail :=
  flat_map (fun pb =>
    flat_map (fun p =>
      map (fun m =>
             {| bd_batch := pb; bd_product_name := p_product_name p;
                bd_sku := p_sku p; bd_manufacturer_name := m_company_name m |})
          (filter (fun m => p_manufacturer_id p =? m_id m) (manufacturers t)))
      (filter (fun p => pb_product_id pb =? p_id p) (products t)))
    (filter (fun pb => String.eqb (pb_batch_number pb) batchNumber)
            (product_batches t)).

(** Both queries go to the pool outside any transaction; an error of
    either one reaches the handler's [catch]. *)
Definition get_trace_batch (order_by : sorter) (batchNumber : string)
    (db : database) : response * database :=
  match trace_batch_query batchNumber (db_tables db) with
  | [] => ({| status := 404; body := ErrorBody "Batch not found" |}, db)
  | batch :: _ =>
      (* Get movement history using stored function *)
      match get_batch_history order_by (pb_uuid (bd_batch batch)) (db_tables db) with
      | inr movement_history =>
          ({| status := 200; body := BatchTrace batch movement_history |}, db)
      | inl _ =>
          ({| status := 500; body := ErrorBody "Failed to trace batch" |}, db)
      end
  end.

(** ** ORDER BY

    What the clause promises, and an executor that keeps the promise: the
    insertion sort that places a row after the rows of equal key already
    placed. *)

Definition order_by_spec (order_by : sorter) : Prop :=
  forall (A : Type) (key : A -> Z) (l : list A),
    Permutation l (order_by A key l)
    /\ StronglySorted (fun a b => key a <= key b) (order_by A key l).

Fixpoint insert_after {A} (key : A -> Z) (x : A) (l : list A) : list A :=
  match l with
  | [] => [x]
  | y :: l' => if key y <=? key x then y :: insert_after key x l' else x :: l
  end.

Definition order_by_stable : sorter :=
  fun A key l => fold_left (fun acc x => insert_after key x acc) l [].

(** ** Vocabulary of the properties *)

(** The response of the shipment handler to a request for more than the
    batch has: error.message of the Error it throws, status 500. *)
Definition InsufficientQuantityError : response :=
  {| status := 500; body := ErrorBody "Insufficient batch quantity available" |}.

(** Row [b] with another quantity_available, expiry_date, resp. row [r]
    with another price: [b' = with_available (pb_quantity_available b') b]
    says that [b'] and [b] agree on every other column. *)
Definition with_available (q : Z) (b : product_batches_row) : product_batches_row :=
  {| pb_id := pb_id b; pb_uuid := pb_uuid b; pb_product_id := pb_product_id b;
     pb_batch_number := pb_batch_number b;
     pb_manufacture_date := pb_manufacture_date b;
     pb_expiry_date := pb_expiry_date b;
     pb_quantity_produced := pb_quantity_produced b;
     pb_quantity_available := q;
     pb_lab_test_results := pb_lab_test_results b;
     pb_qr_code_data := pb_qr_code_data b;
     pb_blockchain_hash := pb_blockchain_hash b;
     pb_created_at := pb_created_at b |}.

Definition with_expiry (d : Z) (b : product_batches_row) : product_batches_row :=
  {| pb_id := pb_id b; pb_uuid := pb_uuid b; pb_product_id := pb_product_id b;
     pb_batch_number := pb_batch_number b;
     pb_manufacture_date := pb_manufacture_date b;
     pb_expiry_date := d;
     pb_quantity_produced := pb_quantity_produced b;
     pb_quantity_available := pb_quantity_available b;
     pb_lab_test_results := pb_lab_test_results b;
     pb_qr_code_data := pb_qr_code_data b;
     pb_blockchain_hash := pb_blockchain_hash b;
     pb_created_at := pb_created_at b |}.

Definition with_price (p : Z) (r : retailer_inventory_row) : retailer_inventory_row :=
  {| ri_id := ri_id r; ri_retailer_id := ri_retailer_id r;
     ri_product_id := ri_product_id r; ri_batch_id := ri_batch_id r;
     ri_quantity_in_stock := ri_quantity_in_stock r;
     ri_quantity_reserved := ri_quantity_reserved r;
     ri_price := p;
     ri_discount_price := ri_discount_price r;
     ri_is_active := ri_is_active r;
     ri_display_priority := ri_display_priority r;
     ri_last_restocked := ri_last_restocked r;
     ri_last_sold := ri_last_sold r;
     ri_updated_at := ri_updated_at r |}.

(** Every column of a batch but quantity_available is the same. *)
Definition batch_frame (b b' : product_batches_row) : Prop :=
  b' = with_available (pb_quantity_available b') b.

(** Two runs on [R]-related relations and equal sequences; [tx_ni R c]
    says that [c] cannot tell them apart. *)
Definition related (R : tables -> tables -> Prop) (db1 db2 : database) : Prop :=
  db_seqs db1 = db_seqs db2 /\ R (db_tables db1) (db_tables db2).

Definition tx_ni {A} (R : tables -> tables -> Prop) (c : tx A) : Prop :=
  forall db1 db2, related R db1 db2 ->
    fst (c db1) = fst (c db2) /\ related R (snd (c db1)) (snd (c db2)).

(** Inventory positions that differ at most in the stored price, each price
    positive as the CHECK on the column has it. *)
Definition position_but_price (r1 r2 : retailer_inventory_row) : Prop :=
  r2 = with_price (ri_price r2) r1 /\ 0 < ri_price r1 /\ 0 < ri_price r2.

Definition price_blind (t1 t2 : tables) : Prop :=
  manufacturers t1 = manufacturers t2 /\ products t1 = products t2
  /\ retailers t1 = retailers t2 /\ product_batches t1 = product_batches t2
  /\ Forall2 position_but_price (retailer_inventory t1) (retailer_inventory t2)
  /\ product_movements t1 = product_movements t2
  /\ consumer_purchases t1 = consumer_purchases t2
  /\ purchase_items t1 = purchase_items t2.

(** Batches that differ at most in the expiry date, each date pair valid as
    valid_dates has it. *)
Definition batch_but_expiry (b1 b2 : product_batches_row) : Prop :=
  b2 = with_expiry (pb_expiry_date b2) b1
  /\ pb_manufacture_date b1 < pb_expiry_date b1
  /\ pb_manufacture_date b2 < pb_expiry_date b2.

Definition expiry_blind (t1 t2 : tables) : Prop :=
  manufacturers t1 = manufacturers t2 /\ products t1 = products t2
  /\ retailers t1 = retailers t2
  /\ Forall2 batch_but_expiry (product_batches t1) (product_batches t2)
  /\ retailer_inventory t1 = retailer_inventory t2
  /\ product_movements t1 = product_movements t2
  /\ consumer_purchases t1 = consumer_purchases t2
  /\ purchase_items t1 = purchase_items t2.

(** The derived predicate "expired" of a batch on a given day. *)
Definition batch_expired (today : Z) (b : product_batches_row) : Prop :=
  pb_expiry_date b < today.

(** Replay of the movement log of one batch, in commit order: manufacture
    adds its quantity, ship_to_retailer subtracts it, sale_to_consumer
    leaves the batch's availability alone (as do the kinds no handler
    writes). *)
Definition signed_quantity (m : product_movements_row) : Z :=
  match pm_movement_type m with
  | manufacture => pm_quantity m
  | ship_to_retailer => - pm_quantity m
  | _ => 0
  end.

Definition replay (batch_id : Z) (log : list product_movements_row) : Z :=
  fold_left (fun available m =>
               if pm_batch_id m =? batch_id then available + signed_quantity m
               else available)
            log 0.

(** The operations of the ledger and the states they reach from a ledger
    with no batch, position, movement or purchase yet. *)
Inductive operation :=
| RecordManufacture (now uuid : Z) (req_user : user) (productId : Z)
    (batch_number : string) (manufacture_date expiry_date quantity_produced : Z)
    (lab_test_results : option string)
| ShipToRetailer (now : Z) (req_user : user) (product_id batch_id quantity price : Z)
| SellToConsumer (now uuid retailer_id : Z) (items : list item)
    (wp_user_id : option Z) (payment_method pos_transaction_id : option string)
| Trace (order_by : sorter) (batchNumber : string).

Definition run (op : operation) : database -> response * database :=
  match op with
  | RecordManufacture now uuid req_user productId batch_number manufacture_date
      expiry_date quantity_produced lab_test_results =>
      post_products_batches now uuid req_user productId batch_number
        manufacture_date expiry_date quantity_produced lab_test_results
  | ShipToRetailer now req_user product_id batch_id quantity price =>
      post_inventory_add now req_user product_id batch_id quantity price
  | SellToConsumer now uuid retailer_id items wp_user_id payment_method
      pos_transaction_id =>
      post_purchase now uuid retailer_id items wp_user_id payment_method
        pos_transaction_id
  | Trace order_by batchNumber => get_trace_batch order_by batchNumber
  end.

Definition empty_ledger (db : database) : Prop :=
  product_batches (db_tables db) = [] /\ retailer_inventory (db_tables db) = []
  /\ product_movements (db_tables db) = [] /\ consumer_purchases (db_tables db) = []
  /\ purchase_items (db_tables db) = [].

Inductive reachable : database -> Prop :=
| reachable_empty db : empty_ledger db -> reachable db
| reachable_run op db : reachable db -> reachable (snd (run op db)).

(** What the reconciliation law needs of a state: each batch's replay gives
    its quantity_available, and each movement's batch exists. *)
Definition reconciled (t : tables) : Prop :=
  (forall b, In b (product_batches t) ->
             replay (pb_id b) (product_movements t) = pb_quantity_available b)
  /\ (forall m, In m (product_movements t) -> has_batch (pm_batch_id m) t = true).

(** What the sale of one line item writes: its purchase_items row and its
    movement. *)
Definition item_row (purchaseId : Z) (it : item) (pi : purchase_items_row) : Prop :=
  pi_purchase_id pi = purchaseId
  /\ pi_product_id pi = item_product_id it /\ pi_batch_id pi = item_batch_id it
  /\ pi_quantity pi = item_quantity it /\ pi_unit_price pi = item_unit_price it
  /\ pi_total_price pi = item_quantity it * item_unit_price it.

Definition item_movement (now retailer_id : Z) (wp_user_id : option Z)
    (it : item) (m : product_movements_row) : Prop :=
  pm_movement_type m = sale_to_consumer
  /\ pm_product_id m = item_product_id it /\ pm_batch_id m = item_batch_id it
  /\ pm_from_entity_type m = retailer /\ pm_from_entity_id m = retailer_id
  /\ pm_to_entity_type m = consumer /\ pm_to_entity_id m = or_zero wp_user_id
  /\ pm_quantity m = item_quantity it
  /\ pm_unit_price m = Some (item_unit_price it)
  /\ pm_created_at m = now.

(** The primary and unique keys and the foreign keys of the schema that the
    trace queries lean on. *)
Definition schema_keys (t : tables) : Prop :=
  NoDup (map m_id (manufacturers t))
  /\ NoDup (map r_id (retailers t))
  /\ NoDup (map pb_id (product_batches t))
  /\ NoDup (map pb_uuid (product_batches t))
  /\ (forall b, In b (product_batches t) ->
                exists p, In p (products t) /\ p_id p = pb_product_id b)
  /\ (forall p, In p (products t) ->
                exists m, In m (manufacturers t) /\ m_id m = p_manufacturer_id p).

(** The part of [schema_keys] that speaks of the relations no ledger
    operation writes. *)
Definition reference_keys (t : tables) : Prop :=
  NoDup (map m_id (manufacturers t))
  /\ NoDup (map r_id (retailers t))
  /\ (forall p, In p (products t) ->
                exists m, In m (manufacturers t) /\ m_id m = p_manufacturer_id p).

(** The history row of one movement when party ids are keys: each party is
    looked up by id in the relation its type names. *)
Definition movement_history_row (t : tables) (pm : product_movements_row)
  : history_row :=
  {| movement_date := pm_created_at pm;
     movement_kind := pm_movement_type pm;
     from_entity :=
       entity_label (pm_from_entity_type pm) (pm_from_entity_id pm)
         (find (fun m => pm_from_entity_id pm =? m_id m) (manufacturers t))
         (find (fun r => pm_from_entity_id pm =? r_id r) (retailers t));
     to_entity :=
       entity_label (pm_to_entity_type pm) (pm_to_entity_id pm)
         (find (fun m => pm_to_entity_id pm =? m_id m) (manufacturers t))
         (find (fun r => pm_to_entity_id pm =? r_id r) (retailers t));
     quantity_moved := pm_quantity pm;
     notes := pm_notes pm |}.

(** How the party [(ty, id)] of a movement may appear in a history row: a
    consumer by a generic label, a manufacturer or retailer by the name on
    its row, or by NULL when no row has that id. *)
Definition rendered_party (t : tables) (ty : entity_type) (id : Z)
    (label : option string) : Prop :=
  match ty with
  | manufacturer =>
      (exists m, In m (manufacturers t) /\ m_id m = id
                 /\ label = Some (m_company_name m))
      \/ ((forall m, In m (manufacturers t) -> m_id m <> id) /\ label = None)
  | retailer =>
      (exists r, In r (retailers t) /\ r_id r = id
                 /\ label = Some (r_store_name r))
      \/ ((forall r, In r (retailers t) -> r_id r <> id) /\ label = None)
  | consumer => label = Some (String.append "Consumer #" (string_of_Z id))
  end.

(** CURRENT_DATE of an instant counted in seconds. *)
Definition current_date (now : Z) : Z := now / 86400.

(** DELETE FROM retailers WHERE id = $1, as the foreign keys of the schema
    let it happen: the retailer's inventory rows go with it (ON DELETE
    CASCADE), a purchase that references the retailer forbids it, and
    product_movements holds no reference to the parties it names. *)
Definition delete_retailer (id : Z) (t : tables) : option tables :=
  if existsb (fun c => cp_retailer_id c =? id) (consumer_purchases t) then None
  else Some
    {| manufacturers := manufacturers t; products := products t;
       retailers := filter (fun r => negb (r_id r =? id)) (retailers t);
       product_batches := product_batches t;
       retailer_inventory :=
         filter (fun r => negb (ri_retailer_id r =? id)) (retailer_inventory t);
       product_movements := product_movements t;
       consumer_purchases := consumer_purchases t;
       purchase_items := purchase_items t |}.

(** ** A worked ledger

    One manufacturer with one product, two retailers; a batch of 1000 made
    on 2024-01-01 (day 19723) that expires on 2025-01-01 (day 20089), 200
    of it shipped to the first retailer the next day. *)

Definition manufacturer_user : user := {| user_id := 1001; user_type := "manufacturer" |}.
Definition retailer_user : user := {| user_id := 2001; user_type := "retailer" |}.

Definition second_retailer_user : user :=
  {| user_id := 2002; user_type := "retailer" |}.

Definition ledger0 : database :=
  {| db_tables :=
       {| manufacturers :=
            [ {| m_id := 1; m_wp_user_id := 1001; m_company_name := "Test Vape Co" |} ];
          products :=
            [ {| p_id := 1; p_manufacturer_id := 1;
                 p_product_name := "Test Vape Product"; p_sku := "TEST-VAPE-001" |} ];
          retailers :=
            [ {| r_id := 1; r_wp_user_id := 2001; r_store_name := "Corner Store" |};
              {| r_id := 2; r_wp_user_id := 2002; r_store_name := "High Street Vapes" |} ];
          product_batches := []; retailer_inventory := [];
          product_movements := []; consumer_purchases := [];
          purchase_items := [] |};
     db_seqs :=
       {| product_batches_id_seq := 1; retailer_inventory_id_seq := 1;
          product_movements_id_seq := 1; consumer_purchases_id_seq := 1;
          purchase_items_id_seq := 1 |} |}.

Definition op_manufacture : operation :=
  RecordManufacture 1704067200 7001 manufacturer_user 1 "BATCH-TEST-001"
                    19723 20089 1000 None.

Definition op_ship : operation := ShipToRetailer 1704153600 retailer_user 1 1 200 500.

Definition ledger1 : database := snd (run op_manufacture ledger0).

Definition ledger2 : database := snd (run op_ship ledger1).

Definition item_50 : item :=
  {| item_product_id := 1; item_batch_id := 1; item_quantity := 50;
     item_unit_price := 700 |}.

Definition ledger3 : database :=
  snd (run (SellToConsumer 1704240000 9001 1 [item_50] None None None) ledger2).

Definition item_1 : item :=
  {| item_product_id := 1; item_batch_id := 1; item_quantity := 1;
     item_unit_price := 700 |}.

Definition item_2 : item :=
  {| item_product_id := 1; item_batch_id := 1; item_quantity := 2;
     item_unit_price := 700 |}.

(** One purchase of two line items of the same batch, after the shipment. *)
Definition ledger_two_sales : database :=
  snd (run (SellToConsumer 1704240000 9001 1 [item_1; item_2] (Some 55) None None)
           ledger2).

(** The ledger after the shipment, the first retailer deleted. *)
Definition ledger2_retailer_deleted : database :=
  match delete_retailer 1 (db_tables ledger2) with
  | Some t => {| db_tables := t; db_seqs := db_seqs ledger2 |}
  | None => ledger2
  end.

(** The ledger after the shipment, with another price on the position. *)
Definition ledger2_repriced : database :=
  {| db_tables :=
       set_retailer_inventory
         (map (with_price 999) (retailer_inventory (db_tables ledger2)))
         (db_tables ledger2);
     db_seqs := db_seqs ledger2 |}.

(** The ledger after the manufacture, the batch expiring on day 19724. *)
Definition ledger1_short_dated : database :=
  {| db_tables :=
       set_product_batches
         (map (with_expiry 19724) (product_batches (db_tables ledger1)))
         (db_tables ledger1);
     db_seqs := db_seqs ledger1 |}.

Definition item_5_of_batch_1 : item :=
  {| item_product_id := 1; item_batch_id := 1; item_quantity := 5;
     item_unit_price := 700 |}.

Definition item_5_of_batch_2 : item :=
  {| item_product_id := 1; item_batch_id := 2; item_quantity := 5;
     item_unit_price := 700 |}.

(** The ledger after the shipment and the manufacture of a second batch, of
    which no retailer has received anything. *)
Definition ledger2_second_batch : database :=
  snd (run (RecordManufacture 1704200000 7002 manufacturer_user 1 "BATCH-TEST-002"
                              19724 20090 500 None)
           ledger2).

(** ** More vocabulary: sequences of operations, totals, well-formed ledgers *)

(** A sequence of operations, each run on the state its predecessor left. *)
Definition run_all (ops : list operation) (db : database) : database :=
  fold_left (fun d op => snd (run op d)) ops db.

Definition is_shipment (m : product_movements_row) : bool :=
  match pm_movement_type m with
  | ship_to_retailer => true
  | _ => false
  end.

(** The units of a batch that ship_to_retailer movements account for. *)
Definition shipped (batch_id : Z) (log : list product_movements_row) : Z :=
  fold_right (fun m total =>
                if (pm_batch_id m =? batch_id) && is_shipment m
                then pm_quantity m + total else total)
             0 log.

(** The units of a batch that the positions of all retailers hold. *)
Definition stock_of_batch (batch_id : Z) (positions : list retailer_inventory_row) : Z :=
  fold_right (fun r total =>
                if ri_batch_id r =? batch_id then ri_quantity_in_stock r + total
                else total)
             0 positions.

Definition position_key (r : retailer_inventory_row) : Z * Z * Z :=
  (ri_retailer_id r, ri_product_id r, ri_batch_id r).

(** The units that the line items of a purchase at [retailer_id] ask of the
    position [r]. *)
Definition demand (retailer_id : Z) (r : retailer_inventory_row) (items : list item) : Z :=
  fold_right (fun it total =>
                if same_position retailer_id (item_product_id it) (item_batch_id it) r
                then item_quantity it + total else total)
             0 items.

(** The row that the shipment handler proposes to INSERT. *)
Definition proposed_position (now id retailer_id product_id batch_id quantity price : Z)
  : retailer_inventory_row :=
  {| ri_id := id; ri_retailer_id := retailer_id;
     ri_product_id := product_id; ri_batch_id := batch_id;
     ri_quantity_in_stock := quantity; ri_quantity_reserved := 0;
     ri_price := price; ri_discount_price := None;
     ri_is_active := true; ri_display_priority := 0;
     ri_last_restocked := None; ri_last_sold := None;
     ri_updated_at := now |}.

(** A position after the line items of a purchase at [retailer_id], taken in
    order. *)
Definition sell_items (now retailer_id : Z) (items : list item)
    (r : retailer_inventory_row) : retailer_inventory_row :=
  fold_left (fun r it =>
               if same_position retailer_id (item_product_id it) (item_batch_id it) r
               then sell now (item_quantity it) r else r)
            items r.

(** Sequences only move forward. *)
Definition seqs_le (s s' : sequences) : Prop :=
  product_batches_id_seq s <= product_batches_id_seq s'
  /\ retailer_inventory_id_seq s <= retailer_inventory_id_seq s'
  /\ product_movements_id_seq s <= product_movements_id_seq s'
  /\ consumer_purchases_id_seq s <= consumer_purchases_id_seq s'
  /\ purchase_items_id_seq s <= purchase_items_id_seq s'.

Definition tx_grows {A} (c : tx A) : Prop :=
  forall db, seqs_le (db_seqs db) (db_seqs (snd (c db))).

(** What every state reached from an empty ledger satisfies: the CHECK
    constraints of the rows, the keys, the foreign keys to batches and
    products, identifiers below their sequences, and no reservation. *)
Definition ledger_ok (db : database) : Prop :=
  let t := db_tables db in
  let s := db_seqs db in
  Forall (fun b => product_batches_check b = None
                   /\ pb_id b < product_batches_id_seq s
                   /\ has_product (pb_product_id b) t = true)
         (product_batches t)
  /\ NoDup (map pb_id (product_batches t))
  /\ Forall (fun r => retailer_inventory_check r = None
                      /\ ri_quantity_reserved r = 0
                      /\ ri_id r < retailer_inventory_id_seq s)
            (retailer_inventory t)
  /\ NoDup (map position_key (retailer_inventory t))
  /\ Forall (fun m => 0 < pm_quantity m
                      /\ pm_id m < product_movements_id_seq s
                      /\ has_batch (pm_batch_id m) t = true)
            (product_movements t)
  /\ Forall (fun c => cp_id c < consumer_purchases_id_seq s) (consumer_purchases t)
  /\ Forall (fun i => pi_id i < purchase_items_id_seq s) (purchase_items t).

(** What the books say: the production of each batch is what is still
    available plus what was shipped, and the retailers hold no more of a batch
    than was shipped of it. *)
Definition balanced (t : tables) : Prop :=
  (forall b, In b (product_batches t) ->
     pb_quantity_produced b
     = pb_quantity_available b + shipped (pb_id b) (product_movements t))
  /\ (forall batch_id,
        stock_of_batch batch_id (retailer_inventory t)
        <= shipped batch_id (product_movements t)).

(** The rows that the handlers INSERT, by their columns. *)
Definition new_batch (now id uuid productId : Z) (batch_number : string)
    (manufacture_date expiry_date quantity_produced : Z)
    (lab_test_results : option string) : product_batches_row :=
  {| pb_id := id; pb_uuid := uuid; pb_product_id := productId;
     pb_batch_number := batch_number;
     pb_manufacture_date := manufacture_date;
     pb_expiry_date := expiry_date;
     pb_quantity_produced := quantity_produced;
     pb_quantity_available := quantity_produced;
     pb_lab_test_results := match lab_test_results with Some s => s | None => "{}" end;
     pb_qr_code_data := "{}"; pb_blockchain_hash := None;
     pb_created_at := now |}.

Definition new_movement (now id : Z) (kind : movement_type) (product_id batch_id : Z)
    (from_entity_type : entity_type) (from_entity_id : Z)
    (to_entity_type : entity_type) (to_entity_id : Z) (quantity : Z)
    (unit_price : option Z) : product_movements_row :=
  {| pm_id := id; pm_movement_type := kind;
     pm_product_id := product_id; pm_batch_id := batch_id;
     pm_from_entity_type := from_entity_type;
     pm_from_entity_id := from_entity_id;
     pm_to_entity_type := to_entity_type;
     pm_to_entity_id := to_entity_id;
     pm_quantity := quantity; pm_unit_price := unit_price;
     pm_notes := None; pm_created_at := now |}.

(** The caller owns the product: the join of the batch handler's first
    query has a row. *)
Definition owns_product (req_user : user) (productId : Z) (t : tables) : Prop :=
  exists product owner,
    In product (products t) /\ p_id product = productId
    /\ In owner (manufacturers t) /\ m_id owner = p_manufacturer_id product
    /\ m_wp_user_id owner = user_id req_user.

(** The state a batch creation leaves when it goes through. *)
Definition after_manufacture (now uuid productId : Z) (batch_number : string)
    (manufacture_date expiry_date quantity_produced : Z)
    (lab_test_results : option string) (manufacturer_id : Z) (db : database)
  : database :=
  let t := db_tables db in
  let s := db_seqs db in
  let batch := new_batch now (product_batches_id_seq s) uuid productId batch_number
                         manufacture_date expiry_date quantity_produced
                         lab_test_results in
  {| db_tables :=
       set_product_movements
         (product_movements t
          ++ [new_movement now (product_movements_id_seq s) manufacture productId
                           (pb_id batch) manufacturer manufacturer_id
                           manufacturer manufacturer_id quantity_produced None])
         (set_product_batches (product_batches t ++ [batch]) t);
     db_seqs :=
       {| product_batches_id_seq := product_batches_id_seq s + 1;
          retailer_inventory_id_seq := retailer_inventory_id_seq s;
          product_movements_id_seq := product_movements_id_seq s + 1;
          consumer_purchases_id_seq := consumer_purchases_id_seq s;
          purchase_items_id_seq := purchase_items_id_seq s |} |}.

(** rows[0] of the three look-ups of the shipment handler. *)
Definition retailer_of (req_user : user) (t : tables) : option retailers_row :=
  find (fun r => r_wp_user_id r =? user_id req_user) (retailers t).

Definition batch_of (product_id batch_id : Z) (t : tables) : option product_batches_row :=
  find (fun b => (pb_id b =? batch_id) && (pb_product_id b =? product_id))
       (product_batches t).

Definition manufacturer_of (product_id : Z) (t : tables) : option Z :=
  option_map p_manufacturer_id (find (fun p => p_id p =? product_id) (products t)).

(** The positions after a shipment: the position of the key restocked, or a
    new position when the key has none. *)
Definition restocked (now id retailer_id product_id batch_id quantity price : Z)
    (positions : list retailer_inventory_row) : list retailer_inventory_row :=
  if existsb (same_position retailer_id product_id batch_id) positions
  then map (fun r => if same_position retailer_id product_id batch_id r
                     then restock now quantity price r else r) positions
  else positions
       ++ [proposed_position now id retailer_id product_id batch_id quantity price].

(** The state a shipment leaves when it goes through. *)
Definition after_shipment (now retailer_id product_id batch_id quantity price
    manufacturer_id : Z) (db : database) : database :=
  let t := db_tables db in
  let s := db_seqs db in
  {| db_tables :=
       set_product_movements
         (product_movements t
          ++ [new_movement now (product_movements_id_seq s) ship_to_retailer
                           product_id batch_id manufacturer manufacturer_id
                           retailer retailer_id quantity (Some price)])
         (set_product_batches
            (map (fun b => if pb_id b =? batch_id then ship_out quantity b else b)
                 (product_batches t))
            (set_retailer_inventory
               (restocked now (retailer_inventory_id_seq s) retailer_id product_id
                          batch_id quantity price (retailer_inventory t))
               t));
     db_seqs :=
       {| product_batches_id_seq := product_batches_id_seq s;
          retailer_inventory_id_seq := retailer_inventory_id_seq s + 1;
          product_movements_id_seq := product_movements_id_seq s + 1;
          consumer_purchases_id_seq := consumer_purchases_id_seq s;
          purchase_items_id_seq := purchase_items_id_seq s |} |}.

(** A statement keeps the constraints of the ledger, whether it goes through
    or is refused. *)
Definition tx_keeps {A} (c : tx A) : Prop :=
  forall db, ledger_ok db -> ledger_ok (snd (c db)).

(** The rows a sale writes. *)
Definition new_purchase (now id uuid : Z) (wp_user_id : option Z) (retailer_id : Z)
    (payment_method pos_transaction_id : option string) (items : list item)
  : consumer_purchases_row :=
  {| cp_id := id; cp_uuid := uuid; cp_wp_user_id := wp_user_id;
     cp_retailer_id := retailer_id; cp_order_metadata := items;
     cp_purchase_date := now;
     cp_pos_transaction_id := pos_transaction_id;
     cp_payment_method := payment_method;
     cp_total_amount := total_amount items |}.

Definition new_item_row (id purchase_id : Z) (it : item) : purchase_items_row :=
  {| pi_id := id; pi_purchase_id := purchase_id;
     pi_product_id := item_product_id it; pi_batch_id := item_batch_id it;
     pi_quantity := item_quantity it; pi_unit_price := item_unit_price it;
     pi_total_price := item_quantity it * item_unit_price it;
     pi_discount_applied := 0 |}.

(** The state one pass of the purchase loop leaves when it goes through. *)
Definition after_item (now retailer_id : Z) (wp_user_id : option Z) (purchaseId : Z)
    (db : database) (it : item) : database :=
  let t := db_tables db in
  let s := db_seqs db in
  {| db_tables :=
       set_product_movements
         (product_movements t
          ++ [new_movement now (product_movements_id_seq s) sale_to_consumer
                           (item_product_id it) (item_batch_id it)
                           retailer retailer_id consumer (or_zero wp_user_id)
                           (item_quantity it) (Some (item_unit_price it))])
         (set_retailer_inventory
            (map (fun r => if same_position retailer_id (item_product_id it)
                                            (item_batch_id it) r
                           then sell now (item_quantity it) r else r)
                 (retailer_inventory t))
            (set_purchase_items
               (purchase_items t
                ++ [new_item_row (purchase_items_id_seq s) purchaseId it])
               t));
     db_seqs :=
       {| product_batches_id_seq := product_batches_id_seq s;
          retailer_inventory_id_seq := retailer_inventory_id_seq s;
          product_movements_id_seq := product_movements_id_seq s + 1;
          consumer_purchases_id_seq := consumer_purchases_id_seq s;
          purchase_items_id_seq := purchase_items_id_seq s + 1 |} |}.

(** The state a sale leaves when it goes through. *)
Definition after_purchase (now uuid retailer_id : Z) (items : list item)
    (wp_user_id : option Z) (payment_method pos_transaction_id : option string)
    (db : database) : database :=
  let t := db_tables db in
  let s := db_seqs db in
  let purchase := new_purchase now (consumer_purchases_id_seq s) uuid wp_user_id
                               retailer_id payment_method pos_transaction_id items in
  fold_left (after_item now retailer_id wp_user_id (cp_id purchase)) items
    {| db_tables := set_consumer_purchases (consumer_purchases t ++ [purchase]) t;
       db_seqs :=
         {| product_batches_id_seq := product_batches_id_seq s;
            retailer_inventory_id_seq := retailer_inventory_id_seq s;
            product_movements_id_seq := product_movements_id_seq s;
            consumer_purchases_id_seq := consumer_purchases_id_seq s + 1;
            purchase_items_id_seq := purchase_items_id_seq s |} |}.

(** What the purchase handler's statements ask of a line item. *)
Definition sellable (t : tables) (it : item) : Prop :=
  0 < item_quantity it
  /\ has_product (item_product_id it) t = true
  /\ has_batch (item_batch_id it) t = true.

(** ** Text: String.prototype.split and trim

    A string is the sequence of its code units, taken below 256. *)

(** s.split(sep) for a separator of one code unit: the pieces between the
    occurrences of [sep], of which there is always at least one. *)
Fixpoint split (sep : ascii) (s : string) : list string :=
  match s with
  | EmptyString => [EmptyString]
  | String c rest =>
      if Ascii.eqb c sep then EmptyString :: split sep rest
      else match split sep rest with
           | piece :: pieces => String c piece :: pieces
           | [] => [String c EmptyString]
           end
  end.

(** WhiteSpace and LineTerminator of ECMAScript among those code units:
    TAB, LF, VT, FF, CR, SP, NBSP. *)
Definition is_white_space (c : ascii) : bool :=
  let n := N_of_ascii c in
  (((9 <=? n) && (n <=? 13)) || (n =? 32) || (n =? 160))%N.

Fixpoint trim_start (s : string) : string :=
  match s with
  | EmptyString => EmptyString
  | String c rest => if is_white_space c then trim_start rest else s
  end.

Fixpoint trim_end (s : string) : string :=
  match s with
  | EmptyString => EmptyString
  | String c rest =>
      match trim_end rest with
      | EmptyString => if is_white_space c then EmptyString
                       else String c EmptyString
      | kept => String c kept
      end
  end.

Definition trim (s : string) : string := trim_end (trim_start s).

(** A string in a condition: the empty string is falsy. *)
Definition truthy (s : string) : bool :=
  match s with
  | EmptyString => false
  | String _ _ => true
  end.

Definition contains (c : ascii) (s : string) : bool :=
  existsb (Ascii.eqb c) (list_ascii_of_string s).

(** ** The middleware authenticateWPUser

    jwt.verify is a parameter: the payload of a token that verifies under
    WP_JWT_SECRET, or nothing when it throws.  A payload may lack user_id;
    the parameter of the query is then NULL and no row compares equal to
    it.  wp_user_mapping is the table of the setup guide; the SELECT on it
    is taken not to fail (a failure would be answered 'Invalid token'). *)

Record wp_user_mapping_row := {
  wum_wp_user_id : Z;
  wum_user_type : string }.

Record jwt_payload := {
  jwt_user_id : option Z }.

Inductive middleware_result :=
| Next (req_user : user)      (* req.user set, next() called *)
| Responded (res : response).

(** req.headers.authorization?.split(' ')[1] *)
Definition header_token (authorization : option string) : option string :=
  match authorization with
  | None => None
  | Some header => nth_error (split " "%char header) 1
  end.

Definition authenticateWPUser (jwt_verify : string -> option jwt_payload)
    (wp_user_mapping : list wp_user_mapping_row) (authorization : option string)
  : middleware_result :=
  match header_token authorization with
  | None => Responded {| status := 401; body := ErrorBody "No token provided" |}
  | Some token =>
      if negb (truthy token)
      then Responded {| status := 401; body := ErrorBody "No token provided" |}
      else
        match jwt_verify token with
        | None => Responded {| status := 401; body := ErrorBody "Invalid token" |}
        | Some decoded =>
            let userResult :=
              match jwt_user_id decoded with
              | None => []
              | Some id => filter (fun r => wum_wp_user_id r =? id) wp_user_mapping
              end in
            match userResult, jwt_user_id decoded with
            | row :: _, Some id =>
                Next {| user_id := id; user_type := wum_user_type row |}
            | _, _ =>
                Responded {| status := 401; body := ErrorBody "User not found" |}
            end
        end
  end.


(** ** setup-database.js: the statements of the schema file

    schema.split(';').filter(stmt => stmt.trim()), then each piece trimmed
    and sent if not empty; an error of a statement is logged and the loop
    goes on. *)
Definition schema_statements (schema : string) : list string :=
  filter truthy
    (map trim (filter (fun stmt => truthy (trim stmt)) (split ";"%char schema))).

(** A token that verifies, and the mapping of the worked ledger's retailer. *)
Definition demo_jwt_verify (token : string) : option jwt_payload :=
  if String.eqb token "abc.def.ghi" then Some {| jwt_user_id := Some 2001 |}
  else None.

Definition demo_wp_user_mapping : list wp_user_mapping_row :=
  [ {| wum_wp_user_id := 1001; wum_user_type := "manufacturer" |};
    {| wum_wp_user_id := 2001; wum_user_type := "retailer" |} ].

(** A schema of one table and one function with a dollar-quoted body. *)
Definition demo_schema : string :=
  "CREATE TABLE t (id INTEGER);
CREATE FUNCTION f() RETURNS INTEGER AS $$ BEGIN RETURN 1; END; $$ LANGUAGE plpgsql;
".

(** ** GET /api/search/products: the rows grouped by product

    The two queries of the handler are inputs here: their rows, in the
    order the database returned them.  The grouping is the handler's own.

    The accumulator of [reduce] is an object whose keys are row.id.  Its
    properties are listed in the order of Object.values: keys that are array
    indices (integers from 0 to 2^32 - 2) in ascending order, then the other
    keys in the order of their creation. *)

Record search_row := {
  sr_id : Z;
  sr_uuid : Z;
  sr_product_name : string;
  sr_description : option string;
  sr_nicotine_strength : option Z;
  sr_flavor : option string;
  sr_images : string;
  sr_retailer_id : Z;
  sr_store_name : string;
  sr_address : option string;
  sr_latitude : option Z;
  sr_longitude : option Z;
  sr_distance_km : option Z;    (* undefined without lat and lng *)
  sr_price : Z;
  sr_quantity_in_stock : Z;
  sr_batch_number : string;
  sr_expiry_date : Z }.

Record retailer_offer := {
  ro_retailer_id : Z;
  ro_store_name : string;
  ro_address : option string;
  ro_latitude : option Z;
  ro_longitude : option Z;
  ro_distance_km : option Z;
  ro_price : Z;
  ro_in_stock : bool;
  ro_batch_number : string;
  ro_expiry_date : Z }.

Record product_group := {
  pg_id : Z;
  pg_uuid : Z;
  pg_product_name : string;
  pg_description : option string;
  pg_nicotine_strength : option Z;
  pg_flavor : option string;
  pg_images : string;
  pg_retailers : list retailer_offer }.

Definition js_object (V : Type) := list (Z * V).

Definition is_array_index (key : Z) : bool := (0 <=? key) && (key <? 4294967295).

(** acc[key] *)
Definition js_get {V} (key : Z) (o : js_object V) : option V :=
  option_map snd (find (fun kv => fst kv =? key) o).

(** acc[key] = v for a key that [acc] does not have yet. *)
Fixpoint js_define {V} (key : Z) (v : V) (o : js_object V) : js_object V :=
  match o with
  | [] => [(key, v)]
  | (key', v') :: rest =>
      if is_array_index key && (negb (is_array_index key') || (key <? key'))
      then (key, v) :: o
      else (key', v') :: js_define key v rest
  end.

(** A change of the object that acc[key] refers to. *)
Definition js_update {V} (key : Z) (f : V -> V) (o : js_object V) : js_object V :=
  map (fun kv => if fst kv =? key then (fst kv, f (snd kv)) else kv) o.

Definition group_header (row : search_row) : product_group :=
  {| pg_id := sr_id row; pg_uuid := sr_uuid row;
     pg_product_name := sr_product_name row;
     pg_description := sr_description row;
     pg_nicotine_strength := sr_nicotine_strength row;
     pg_flavor := sr_flavor row; pg_images := sr_images row;
     pg_retailers := [] |}.

Definition offer_of (row : search_row) : retailer_offer :=
  {| ro_retailer_id := sr_retailer_id row; ro_store_name := sr_store_name row;
     ro_address := sr_address row; ro_latitude := sr_latitude row;
     ro_longitude := sr_longitude row; ro_distance_km := sr_distance_km row;
     ro_price := sr_price row;
     ro_in_stock := 0 <? sr_quantity_in_stock row;
     ro_batch_number := sr_batch_number row;
     ro_expiry_date := sr_expiry_date row |}.

Definition push_offer (row : search_row) (g : product_group) : product_group :=
  {| pg_id := pg_id g; pg_uuid := pg_uuid g;
     pg_product_name := pg_product_name g;
     pg_description := pg_description g;
     pg_nicotine_strength := pg_nicotine_strength g;
     pg_flavor := pg_flavor g; pg_images := pg_images g;
     pg_retailers := pg_retailers g ++ [offer_of row] |}.

(** The callback of result.rows.reduce. *)
Definition group_row (acc : js_object product_group) (row : search_row)
  : js_object product_group :=
  let productKey := sr_id row in
  let acc :=
    match js_get productKey acc with
    | None => js_define productKey (group_header row) acc
    | Some _ => acc
    end in
  js_update productKey (push_offer row) acc.

(** products: Object.values(result.rows.reduce(..., {})) *)
Definition search_products (rows : list search_row) : list product_group :=
  map snd (fold_left group_row rows []).

(** The group that the rows of one product make: the columns of the first,
    the offers of all, in the order of the rows. *)
Definition group_of (id : Z) (rows : list search_row) : option product_group :=
  match filter (fun row => sr_id row =? id) rows with
  | [] => None
  | first :: others =>
      Some {| pg_id := sr_id first; pg_uuid := sr_uuid first;
              pg_product_name := sr_product_name first;
              pg_description := sr_description first;
              pg_nicotine_strength := sr_nicotine_strength first;
              pg_flavor := sr_flavor first; pg_images := sr_images first;
              pg_retailers := map offer_of (first :: others) |}
  end.

(** Three rows in order of price, of products 7, 3 and 7. *)
Definition demo_search_row (id retailer_id price : Z) : search_row :=
  {| sr_id := id; sr_uuid := 100 + id; sr_product_name := "Mint";
     sr_description := None; sr_nicotine_strength := None; sr_flavor := None;
     sr_images := "[]"; sr_retailer_id := retailer_id;
     sr_store_name := "Corner Store"; sr_address := None;
     sr_latitude := None; sr_longitude := None; sr_distance_km := None;
     sr_price := price; sr_quantity_in_stock := 5;
     sr_batch_number := "B-1"; sr_expiry_date := 20089 |}.

Definition demo_search_rows : list search_row :=
  [demo_search_row 7 1 400; demo_search_row 3 1 450; demo_search_row 7 2 500].

(** ** The plugin's API token (generate_jwt, get_api_token)

    base64_encode and str_replace are PHP's; hash_hmac('sha256', data, key,
    true) is a parameter, the raw digest. *)

Definition base64_alphabet : list ascii :=
  list_ascii_of_string
    "ABCDEFGHIJKLMNOPQRSTUVWXYZabcdefghijklmnopqrstuvwxyz0123456789+/".

Definition base64_digit (n : N) : ascii :=
  nth (N.to_nat n) base64_alphabet "A"%char.

(** base64_encode: three bytes make four digits; one or two bytes left over
    make two or three digits and are padded with '='. *)
Fixpoint base64_encode (s : string) : string :=
  match s with
  | EmptyString => EmptyString
  | String a EmptyString =>
      let a := N_of_ascii a in
      String (base64_digit (a / 4))
        (String (base64_digit ((a mod 4) * 16)) "==")
  | String a (String b EmptyString) =>
      let a := N_of_ascii a in
      let b := N_of_ascii b in
      String (base64_digit (a / 4))
        (String (base64_digit ((a mod 4) * 16 + b / 16))
           (String (base64_digit ((b mod 16) * 4)) "="))
  | String a (String b (String c rest)) =>
      let a := N_of_ascii a in
      let b := N_of_ascii b in
      let c := N_of_ascii c in
      String (base64_digit (a / 4))
        (String (base64_digit ((a mod 4) * 16 + b / 16))
           (String (base64_digit ((b mod 16) * 4 + c / 64))
              (String (base64_digit (c mod 64)) (base64_encode rest))))
  end%N.

(** str_replace with a search of one character. *)
Fixpoint str_replace_char (search : ascii) (replace subject : string) : string :=
  match subject with
  | EmptyString => EmptyString
  | String c rest =>
      if Ascii.eqb c search
      then (replace ++ str_replace_char search replace rest)%string
      else String c (str_replace_char search replace rest)
  end.

(** str_replace(['+', '/', '='], ['-', '_', ''], subject): one pair after
    the other, each over the whole subject. *)
Definition base64url (s : string) : string :=
  str_replace_char "="%char ""
    (str_replace_char "/"%char "_"
       (str_replace_char "+"%char "-" (base64_encode s))).

Definition dquote : string := String (ascii_of_N 34) EmptyString.

(** json_encode(['typ' => 'JWT', 'alg' => 'HS256']) *)
Definition jwt_header_json : string :=
  String.concat dquote ["{"; "typ"; ":"; "JWT"; ","; "alg"; ":"; "HS256"; "}"].

(** json_encode(array('user_id' => $user_id, 'exp' => $exp)) for integers. *)
Definition jwt_payload_json (wp_user_id exp : Z) : string :=
  String.concat EmptyString
    ["{"; dquote; "user_id"; dquote; ":"; string_of_Z wp_user_id; ",";
     dquote; "exp"; dquote; ":"; string_of_Z exp; "}"].

Definition generate_jwt (hash_hmac_sha256 : string -> string -> string)
    (payload secret : string) : string :=
  let base64Header := base64url jwt_header_json in
  let base64Payload := base64url payload in
  let signature :=
    hash_hmac_sha256 (base64Header ++ "." ++ base64Payload)%string secret in
  let base64Signature := base64url signature in
  (base64Header ++ "." ++ base64Payload ++ "." ++ base64Signature)%string.

(** get_api_token at the instant [time] for the current user. *)
Definition get_api_token (hash_hmac_sha256 : string -> string -> string)
    (current_user_id time : Z) (secret : string) : string :=
  generate_jwt hash_hmac_sha256 (jwt_payload_json current_user_id (time + 3600)) secret.

(** The header that the plugin sends with its requests. *)
Definition plugin_authorization (hash_hmac_sha256 : string -> string -> string)
    (current_user_id time : Z) (secret : string) : string :=
  ("Bearer " ++ get_api_token hash_hmac_sha256 current_user_id time secret)%string.

(** The characters of a base64url text. *)
Definition is_base64url (c : ascii) : bool :=
  existsb (Ascii.eqb c)
    (list_ascii_of_string
       "ABCDEFGHIJKLMNOPQRSTUVWXYZabcdefghijklmnopqrstuvwxyz0123456789-_").

(** A digest for the worked token: the key followed by the length of the
    data in one byte. *)
Definition demo_hmac (data key : string) : string :=
  (key ++ String (ascii_of_nat (String.length data)) EmptyString)%string.

(** ** POST /api/products

    The handler writes two relations that the ledger does not have,
    product_categories being a third it refers to.  A catalogue is the
    ledger with them beside it; the columns of a products row that the
    ledger handlers never read (uuid, category, status, ...) are kept in
    [cat_products_rest], row for row with [products].  JSON values of the
    body are their text. *)

Record product_categories_row := {
  pc_id : Z;
  pc_name : string;
  pc_slug : string }.

Record products_rest_row := {
  px_id : Z;
  px_uuid : Z;
  px_category_id : Z;
  px_description : option string;
  px_nicotine_strength : option Z;
  px_volume_ml : option Z;
  px_flavor : option string;
  px_ingredients : list string;
  px_warnings : list string;
  px_images : string;
  px_attributes : string;
  px_status : string;
  px_created_at : Z }.

Record compliance_log_row := {
  cl_id : Z;
  cl_event_type : string;
  cl_entity_type : string;
  cl_entity_id : Z;
  cl_user_id : option Z;
  cl_event_data : string;
  cl_ip_address : option string;
  cl_user_agent : option string;
  cl_created_at : Z }.

Record catalogue := {
  cat_db : database;
  cat_product_categories : list product_categories_row;
  cat_products_rest : list products_rest_row;
  cat_compliance_log : list compliance_log_row;
  cat_products_id_seq : Z;
  cat_compliance_log_id_seq : Z }.

(** req.body of POST /api/products, and JSON.stringify(req.body). *)
Record product_body := {
  b_product_name : option string;
  b_sku : option string;
  b_category_id : option Z;
  b_description : option string;
  b_nicotine_strength : option Z;
  b_volume_ml : option Z;
  b_flavor : option string;
  b_ingredients : option (list string);
  b_warnings : option (list string);
  b_images : option string;
  b_attributes : option string;
  b_json : string }.

Inductive catalogue_json :=
| ProductCreated (product_id product_uuid : Z)
| CatalogueError (error : string).

Record catalogue_response := {
  c_status : Z;
  c_body : catalogue_json }.

Definition ctx (A : Type) := catalogue -> outcome A * catalogue.

Definition cbind {A B} (c : ctx A) (k : A -> ctx B) : ctx B :=
  fun s =>
    match c s with
    | (Returned a, s') => k a s'
    | (Thrown e, s') => (Thrown e, s')
    end.

(** ROLLBACK: the relations as at BEGIN, the sequences as they are. *)
Definition catalogue_rollback (at_begin current : catalogue) : catalogue :=
  {| cat_db := rollback (cat_db at_begin) (cat_db current);
     cat_product_categories := cat_product_categories at_begin;
     cat_products_rest := cat_products_rest at_begin;
     cat_compliance_log := cat_compliance_log at_begin;
     cat_products_id_seq := cat_products_id_seq current;
     cat_compliance_log_id_seq := cat_compliance_log_id_seq current |}.

Definition set_products (l : list products_row) (t : tables) : tables :=
  {| manufacturers := manufacturers t; products := l;
     retailers := retailers t; product_batches := product_batches t;
     retailer_inventory := retailer_inventory t;
     product_movements := product_movements t;
     consumer_purchases := consumer_purchases t;
     purchase_items := purchase_items t |}.

Definition or_default {A} (given : option A) (default : A) : A :=
  match given with
  | Some a => a
  | None => default
  end.

(** INSERT INTO products (...) RETURNING id, uuid.  The id is drawn first;
    then the NOT NULL columns, the primary key and the two UNIQUE
    constraints, and the two foreign keys.  status takes its default,
    'draft', which its CHECK admits. *)
Definition insert_products (now uuid manufacturer_id : Z) (body : product_body)
  : ctx (Z * Z) :=
  fun s =>
    let t := db_tables (cat_db s) in
    let id := cat_products_id_seq s in
    let drawn :=
      {| cat_db := cat_db s;
         cat_product_categories := cat_product_categories s;
         cat_products_rest := cat_products_rest s;
         cat_compliance_log := cat_compliance_log s;
         cat_products_id_seq := id + 1;
         cat_compliance_log_id_seq := cat_compliance_log_id_seq s |} in
    match b_category_id body, b_product_name body, b_sku body with
    | Some category_id, Some product_name, Some sku =>
        if has_product id t
        then (Thrown (DatabaseError "products_pkey"), drawn)
        else if existsb (fun x => px_uuid x =? uuid) (cat_products_rest s)
        then (Thrown (DatabaseError "products_uuid_key"), drawn)
        else if existsb (fun p => (p_manufacturer_id p =? manufacturer_id)
                                  && String.eqb (p_sku p) sku) (products t)
        then (Thrown (DatabaseError "unique_sku_per_manufacturer"), drawn)
        else if negb (existsb (fun m => m_id m =? manufacturer_id) (manufacturers t))
        then (Thrown (DatabaseError "products_manufacturer_id_fkey"), drawn)
        else if negb (existsb (fun c => pc_id c =? category_id)
                              (cat_product_categories s))
        then (Thrown (DatabaseError "products_category_id_fkey"), drawn)
        else
          (Returned (id, uuid),
           {| cat_db :=
                {| db_tables :=
                     set_products
                       (products t
                        ++ [ {| p_id := id; p_manufacturer_id := manufacturer_id;
                                p_product_name := product_name; p_sku := sku |} ])
                       t;
                   db_seqs := db_seqs (cat_db s) |};
              cat_product_categories := cat_product_categories s;
              cat_products_rest :=
                cat_products_rest s
                ++ [ {| px_id := id; px_uuid := uuid;
                        px_category_id := category_id;
                        px_description := b_description body;
                        px_nicotine_strength := b_nicotine_strength body;
                        px_volume_ml := b_volume_ml body;
                        px_flavor := b_flavor body;
                        px_ingredients := or_default (b_ingredients body) [];
                        px_warnings := or_default (b_warnings body) [];
                        px_images := or_default (b_images body) "[]";
                        px_attributes := or_default (b_attributes body) "{}";
                        px_status := "draft";
                        px_created_at := now |} ];
              cat_compliance_log := cat_compliance_log s;
              cat_products_id_seq := id + 1;
              cat_compliance_log_id_seq := cat_compliance_log_id_seq s |})
    | _, _, _ => (Thrown (DatabaseError "not_null_violation"), drawn)
    end.

(** INSERT INTO compliance_log (...). *)
Definition insert_compliance_log (now : Z) (event_type entity_type : string)
    (entity_id : Z) (wp_user_id : Z) (event_data : string)
    (ip_address user_agent : option string) : ctx unit :=
  fun s =>
    let id := cat_compliance_log_id_seq s in
    let drawn :=
      {| cat_db := cat_db s;
         cat_product_categories := cat_product_categories s;
         cat_products_rest := cat_products_rest s;
         cat_compliance_log := cat_compliance_log s;
         cat_products_id_seq := cat_products_id_seq s;
         cat_compliance_log_id_seq := id + 1 |} in
    if existsb (fun l => cl_id l =? id) (cat_compliance_log s)
    then (Thrown (DatabaseError "compliance_log_pkey"), drawn)
    else
      (Returned tt,
       {| cat_db := cat_db s;
          cat_product_categories := cat_product_categories s;
          cat_products_rest := cat_products_rest s;
          cat_compliance_log :=
            cat_compliance_log s
            ++ [ {| cl_id := id; cl_event_type := event_type;
                    cl_entity_type := entity_type; cl_entity_id := entity_id;
                    cl_user_id := Some wp_user_id; cl_event_data := event_data;
                    cl_ip_address := ip_address; cl_user_agent := user_agent;
                    cl_created_at := now |} ];
          cat_products_id_seq := cat_products_id_seq s;
          cat_compliance_log_id_seq := id + 1 |}).

Definition post_products (now uuid : Z) (req_user : user)
    (req_ip user_agent : option string) (body : product_body)
  : catalogue -> catalogue_response * catalogue :=
  fun s =>
    if negb (String.eqb (user_type req_user) "manufacturer")
    then ({| c_status := 403;
             c_body := CatalogueError "Only manufacturers can add products" |}, s)
    else
      let transaction : ctx catalogue_response :=
        (* Get manufacturer ID *)
        match filter (fun m => m_wp_user_id m =? user_id req_user)
                     (manufacturers (db_tables (cat_db s))) with
        | [] => fun s' => (Thrown (JsError "Manufacturer not found"), s')
        | manufacturer_row :: _ =>
            let manufacturerId := m_id manufacturer_row in
            (* Insert product *)
            cbind (insert_products now uuid manufacturerId body)
              (fun productResult =>
                 (* Log compliance event *)
                 cbind (insert_compliance_log now "product_created" "product"
                          (fst productResult) (user_id req_user) (b_json body)
                          req_ip user_agent)
                   (fun _ s' =>
                      (Returned {| c_status := 200;
                                   c_body := ProductCreated (fst productResult)
                                                            (snd productResult) |},
                       s')))
        end in
      match transaction s with
      | (Returned res, s') => (res, s')
      | (Thrown _, s') =>
          ({| c_status := 500; c_body := CatalogueError "Failed to create product" |},
           catalogue_rollback s s')
      end.

(** What the constraints of the two relations make of every catalogue:
    ids below their sequences, and a rest for each products row. *)
Definition catalogue_ok (s : catalogue) : Prop :=
  Forall (fun p => p_id p < cat_products_id_seq s) (products (db_tables (cat_db s)))
  /\ Forall (fun l => cl_id l < cat_compliance_log_id_seq s) (cat_compliance_log s)
  /\ map px_id (cat_products_rest s) = map p_id (products (db_tables (cat_db s))).

(** The first manufacturers row of the caller. *)
Definition manufacturer_of_user (req_user : user) (t : tables) : option manufacturers_row :=
  find (fun m => m_wp_user_id m =? user_id req_user) (manufacturers t).

(** The worked ledger with the default categories beside it. *)
Definition demo_catalogue : catalogue :=
  {| cat_db := ledger0;
     cat_product_categories :=
       [ {| pc_id := 1; pc_name := "E-Cigarettes/Vapes"; pc_slug := "vapes" |};
         {| pc_id := 2; pc_name := "Nicotine Pouches"; pc_slug := "pouches" |} ];
     cat_products_rest :=
       [ {| px_id := 1; px_uuid := 5001; px_category_id := 1;
            px_description := None; px_nicotine_strength := None;
            px_volume_ml := None; px_flavor := None; px_ingredients := [];
            px_warnings := []; px_images := "[]"; px_attributes := "{}";
            px_status := "draft"; px_created_at := 1704000000 |} ];
     cat_compliance_log := [];
     cat_products_id_seq := 2;
     cat_compliance_log_id_seq := 1 |}.

Definition demo_product_body : product_body :=
  {| b_product_name := Some "Mint Pouch"; b_sku := Some "MINT-001";
     b_category_id := Some 2; b_description := None;
     b_nicotine_strength := Some 600; b_volume_ml := None; b_flavor := Some "mint";
     b_ingredients := None; b_warnings := None; b_images := None;
     b_attributes := None; b_json := "{}" |}.

(** ** GET /api/products/available

    ILIKE and the collation behind ORDER BY p.product_name are parameters:
    [ilike name pattern] decides product_name ILIKE '%' || pattern || '%',
    and [order_by_name] arranges rows by a text key.  page and limit are
    integers when they are sent.  A products row is a row of [products]
    with its rest, taken row for row. *)

Definition products_full (s : catalogue) : list (products_row * products_rest_row) :=
  combine (products (db_tables (cat_db s))) (cat_products_rest s).

(** A row of the FROM clause. *)
Record available_join := {
  aj_p : products_row;
  aj_px : products_rest_row;
  aj_m : manufacturers_row;
  aj_c : product_categories_row;
  aj_pb : option product_batches_row }.

(** The columns of GROUP BY. *)
Record available_key := {
  ak_id : Z;
  ak_uuid : Z;
  ak_product_name : string;
  ak_sku : string;
  ak_description : option string;
  ak_nicotine_strength : option Z;
  ak_volume_ml : option Z;
  ak_flavor : option string;
  ak_images : string;
  ak_category_name : string;
  ak_manufacturer_name : string }.

Record available_row := {
  ar_key : available_key;
  ar_available_batches : Z;         (* COUNT(DISTINCT pb.id) *)
  ar_total_available : option Z }.  (* SUM(pb.quantity_available) *)

Record pagination := {
  pg_page : Z;
  pg_limit : Z;
  pg_total : Z }.

Inductive available_json :=
| AvailableProducts (products_listed : list available_row) (paging : pagination)
| AvailableError (error : string).

Record available_response := {
  a_status : Z;
  a_body : available_json }.

Definition option_eqb {A} (eqb : A -> A -> bool) (x y : option A) : bool :=
  match x, y with
  | Some a, Some b => eqb a b
  | None, None => true
  | _, _ => false
  end.

Definition available_key_eqb (k1 k2 : available_key) : bool :=
  (ak_id k1 =? ak_id k2) && (ak_uuid k1 =? ak_uuid k2)
  && String.eqb (ak_product_name k1) (ak_product_name k2)
  && String.eqb (ak_sku k1) (ak_sku k2)
  && option_eqb String.eqb (ak_description k1) (ak_description k2)
  && option_eqb Z.eqb (ak_nicotine_strength k1) (ak_nicotine_strength k2)
  && option_eqb Z.eqb (ak_volume_ml k1) (ak_volume_ml k2)
  && option_eqb String.eqb (ak_flavor k1) (ak_flavor k2)
  && String.eqb (ak_images k1) (ak_images k2)
  && String.eqb (ak_category_name k1) (ak_category_name k2)
  && String.eqb (ak_manufacturer_name k1) (ak_manufacturer_name k2).

Definition available_key_of (j : available_join) : available_key :=
  {| ak_id := p_id (aj_p j); ak_uuid := px_uuid (aj_px j);
     ak_product_name := p_product_name (aj_p j); ak_sku := p_sku (aj_p j);
     ak_description := px_description (aj_px j);
     ak_nicotine_strength := px_nicotine_strength (aj_px j);
     ak_volume_ml := px_volume_ml (aj_px j);
     ak_flavor := px_flavor (aj_px j);
     ak_images := px_images (aj_px j);
     ak_category_name := pc_name (aj_c j);
     ak_manufacturer_name := m_company_name (aj_m j) |}.

(** FROM products p JOIN manufacturers m ... JOIN product_categories c ...
    LEFT JOIN product_batches pb ON p.id = pb.product_id
      AND pb.quantity_available > 0 AND pb.expiry_date > CURRENT_DATE *)
Definition available_from (today : Z) (s : catalogue) : list available_join :=
  let t := db_tables (cat_db s) in
  flat_map (fun ppx : products_row * products_rest_row =>
    flat_map (fun m =>
      flat_map (fun c =>
        map (fun pb => {| aj_p := fst ppx; aj_px := snd ppx; aj_m := m;
                          aj_c := c; aj_pb := pb |})
            (left_join (fun pb => (p_id (fst ppx) =? pb_product_id pb)
                                  && (0 <? pb_quantity_available pb)
                                  && (today <? pb_expiry_date pb))
                       (product_batches t)))
        (filter (fun c => px_category_id (snd ppx) =? pc_id c)
                (cat_product_categories s)))
      (filter (fun m => p_manufacturer_id (fst ppx) =? m_id m) (manufacturers t)))
    (products_full s).

(** WHERE p.status = 'active' and the two optional conditions; a parameter
    that is absent or empty adds none. *)
Definition available_where (ilike : string -> string -> bool)
    (category search : option string) (j : available_join) : bool :=
  String.eqb (px_status (aj_px j)) "active"
  && match category with
     | Some slug => if truthy slug then String.eqb (pc_slug (aj_c j)) slug else true
     | None => true
     end
  && match search with
     | Some pattern =>
         if truthy pattern then ilike (p_product_name (aj_p j)) pattern else true
     | None => true
     end.

(** The keys of the groups, each once, in the order of their first row. *)
Fixpoint distinct_keys (keys : list available_key) : list available_key :=
  match keys with
  | [] => []
  | k :: rest =>
      k :: filter (fun k' => negb (available_key_eqb k' k)) (distinct_keys rest)
  end.

Fixpoint distinct (ids : list Z) : list Z :=
  match ids with
  | [] => []
  | id :: rest => id :: filter (fun id' => negb (id' =? id)) (distinct rest)
  end.

(** SUM over the values that are not NULL; NULL when there is none. *)
Definition sql_sum (values : list (option Z)) : option Z :=
  fold_left (fun acc v =>
               match acc, v with
               | Some a, Some b => Some (a + b)
               | None, Some b => Some b
               | _, None => acc
               end)
            values None.

Definition available_group (rows : list available_join) (k : available_key)
  : available_row :=
  let members := filter (fun j => available_key_eqb (available_key_of j) k) rows in
  {| ar_key := k;
     ar_available_batches :=
       Z.of_nat (List.length
                   (distinct (flat_map (fun j => match aj_pb j with
                                                 | Some pb => [pb_id pb]
                                                 | None => []
                                                 end) members)));
     ar_total_available :=
       sql_sum (map (fun j => option_map pb_quantity_available (aj_pb j)) members) |}.

(** HAVING SUM(pb.quantity_available) > 0 *)
Definition available_having (r : available_row) : bool :=
  match ar_total_available r with
  | Some total => 0 <? total
  | None => false
  end.

Definition get_products_available (ilike : string -> string -> bool)
    (order_by_name : forall A : Type, (A -> string) -> list A -> list A)
    (today : Z) (req_user : user) (category search : option string)
    (page limit : option Z) (s : catalogue) : available_response :=
  if negb (String.eqb (user_type req_user) "retailer")
  then {| a_status := 403;
          a_body := AvailableError "Only retailers can access this endpoint" |}
  else
    let page := or_default page 1 in
    let limit := or_default limit 20 in
    let offset := (page - 1) * limit in
    if (limit <? 0) || (offset <? 0)
    then {| a_status := 500; a_body := AvailableError "Failed to fetch products" |}
    else
      let rows := filter (available_where ilike category search)
                         (available_from today s) in
      let groups :=
        map (available_group rows) (distinct_keys (map available_key_of rows)) in
      let result :=
        firstn (Z.to_nat limit)
          (skipn (Z.to_nat offset)
             (order_by_name _ (fun r => ak_product_name (ar_key r))
                            (filter available_having groups))) in
      {| a_status := 200;
         a_body := AvailableProducts result
                     {| pg_page := page; pg_limit := limit;
                        pg_total := Z.of_nat (List.length result) |} |}.

(** The calls that write: product creation, and the requests of the ledger. *)
Inductive api_call :=
| CreateProduct (now uuid : Z) (req_user : user) (req_ip user_agent : option string)
    (body : product_body)
| LedgerRequest (op : operation).

Definition serve (call : api_call) (s : catalogue) : catalogue :=
  match call with
  | CreateProduct now uuid req_user req_ip user_agent body =>
      snd (post_products now uuid req_user req_ip user_agent body s)
  | LedgerRequest op =>
      {| cat_db := snd (run op (cat_db s));
         cat_product_categories := cat_product_categories s;
         cat_products_rest := cat_products_rest s;
         cat_compliance_log := cat_compliance_log s;
         cat_products_id_seq := cat_products_id_seq s;
         cat_compliance_log_id_seq := cat_compliance_log_id_seq s |}
  end.

Definition no_active_product (s : catalogue) : Prop :=
  Forall (fun x => px_status x <> "active") (cat_products_rest s).

(** An executor of ORDER BY on a text key: insertion by code-unit order. *)
Fixpoint insert_by_name {A} (key : A -> string) (x : A) (l : list A) : list A :=
  match l with
  | [] => [x]
  | y :: l' => if String.leb (key y) (key x) then y :: insert_by_name key x l'
               else x :: l
  end.

Definition order_by_code_units : forall A : Type, (A -> string) -> list A -> list A :=
  fun A key l => fold_left (fun acc x => insert_by_name key x acc) l [].

(** Any text matches any pattern: enough for a listing that is empty. *)
Definition ilike_anything (name pattern : string) : bool := true.

(** * Properties *)

(** ** The transaction monad *)

Lemma rollback_same db : rollback db db = db.
Proof. destruct db; reflexivity. Qed.

Lemma bind_returned {A B} (c : tx A) (k : A -> tx B) db b db' :
  bind c k db = (Returned b, db') ->
  exists a db1, c db = (Returned a, db1) /\ k a db1 = (Returned b, db').
Proof.
  unfold bind. destruct (c db) as [[a|e] db1]; intros H.
  - exists a, db1. split; [reflexivity | exact H].
  - discriminate H.
Qed.

Lemma constraint_returned name ok db u db' :
  constraint name ok db = (Returned u, db') -> ok (db_tables db) = true /\ db' = db.
Proof.
  unfold constraint. destruct (ok (db_tables db)); intros H; inversion H; auto.
Qed.

Lemma check_row_returned v db u db' :
  check_row v db = (Returned u, db') -> v = None /\ db' = db.
Proof.
  destruct v; cbn; intros H; inversion H; auto.
Qed.

Lemma filter_hd_In {A} (f : A -> bool) (l : list A) x rest :
  filter f l = x :: rest -> In x l /\ f x = true.
Proof.
  intros H. apply filter_In. rewrite H. left; reflexivity.
Qed.

(** ** What a statement that returned has done *)

Lemma ret_returned {A} (x : A) db a db' :
  ret x db = (Returned a, db') -> a = x /\ db' = db.
Proof. cbv [ret]. intros H; inversion H; auto. Qed.

Lemma query_returned {A} (q : tables -> A) db a db' :
  query q db = (Returned a, db') -> a = q (db_tables db) /\ db' = db.
Proof. cbv [query]. intros H; inversion H; auto. Qed.

Lemma store_returned f db u db' :
  store f db = (Returned u, db') ->
  db_tables db' = f (db_tables db) /\ db_seqs db' = db_seqs db.
Proof. cbv [store]. intros H; inversion H; auto. Qed.

Lemma nextval_product_batches_id_returned db a db' :
  nextval_product_batches_id db = (Returned a, db') ->
  a = product_batches_id_seq (db_seqs db) /\ db_tables db' = db_tables db
  /\ product_movements_id_seq (db_seqs db') = product_movements_id_seq (db_seqs db).
Proof. cbv [nextval_product_batches_id]. intros H; inversion H; auto. Qed.

Lemma nextval_retailer_inventory_id_returned db a db' :
  nextval_retailer_inventory_id db = (Returned a, db') ->
  a = retailer_inventory_id_seq (db_seqs db) /\ db_tables db' = db_tables db
  /\ product_movements_id_seq (db_seqs db') = product_movements_id_seq (db_seqs db).
Proof. cbv [nextval_retailer_inventory_id]. intros H; inversion H; auto. Qed.

Lemma nextval_product_movements_id_returned db a db' :
  nextval_product_movements_id db = (Returned a, db') ->
  a = product_movements_id_seq (db_seqs db) /\ db_tables db' = db_tables db.
Proof. cbv [nextval_product_movements_id]. intros H; inversion H; auto. Qed.

Lemma nextval_consumer_purchases_id_returned db a db' :
  nextval_consumer_purchases_id db = (Returned a, db') ->
  a = consumer_purchases_id_seq (db_seqs db) /\ db_tables db' = db_tables db
  /\ product_movements_id_seq (db_seqs db') = product_movements_id_seq (db_seqs db).
Proof. cbv [nextval_consumer_purchases_id]. intros H; inversion H; auto. Qed.

Lemma nextval_purchase_items_id_returned db a db' :
  nextval_purchase_items_id db = (Returned a, db') ->
  a = purchase_items_id_seq (db_seqs db) /\ db_tables db' = db_tables db
  /\ product_movements_id_seq (db_seqs db') = product_movements_id_seq (db_seqs db).
Proof. cbv [nextval_purchase_items_id]. intros H; inversion H; auto. Qed.

(** One step of a statement that returned: the facts about the step are
    left in the context, the state after it is named by its relations. *)
Ltac subst_lhs H := match type of H with ?a = _ => subst a end.

Ltac tx_prim H :=
  first
    [ apply constraint_returned in H; destruct H as [H ->]
    | apply check_row_returned in H; destruct H as [H ->]
    | apply query_returned in H; destruct H as [H ->]; try subst_lhs H
    | apply ret_returned in H; destruct H as [H ->]; try subst_lhs H
    | apply store_returned in H; destruct H as [H ?]
    | apply nextval_product_batches_id_returned in H; destruct H as (H & ? & ?);
      try subst_lhs H
    | apply nextval_retailer_inventory_id_returned in H; destruct H as (H & ? & ?);
      try subst_lhs H
    | apply nextval_product_movements_id_returned in H; destruct H as (H & ?);
      try subst_lhs H
    | apply nextval_consumer_purchases_id_returned in H; destruct H as (H & ? & ?);
      try subst_lhs H
    | apply nextval_purchase_items_id_returned in H; destruct H as (H & ? & ?);
      try subst_lhs H
    | idtac ].

Ltac tx_invert H :=
  repeat
    (let a := fresh "a" in
     let d := fresh "db" in
     let Hs := fresh "Hs" in
     apply bind_returned in H; destruct H as (a & d & Hs & H); tx_prim Hs);
  tx_prim H.

Lemma insert_product_batches_returned now uuid product_id batch_number
    manufacture_date expiry_date quantity_produced quantity_available
    lab_test_results db row db' :
  insert_product_batches now uuid product_id batch_number manufacture_date
    expiry_date quantity_produced quantity_available lab_test_results db
  = (Returned row, db') ->
  row = {| pb_id := product_batches_id_seq (db_seqs db); pb_uuid := uuid;
           pb_product_id := product_id; pb_batch_number := batch_number;
           pb_manufacture_date := manufacture_date;
           pb_expiry_date := expiry_date;
           pb_quantity_produced := quantity_produced;
           pb_quantity_available := quantity_available;
           pb_lab_test_results := lab_test_results;
           pb_qr_code_data := "{}"; pb_blockchain_hash := None;
           pb_created_at := now |}
  /\ db_tables db'
     = set_product_batches (product_batches (db_tables db) ++ [row]) (db_tables db)
  /\ product_batches_check row = None
  /\ has_batch (pb_id row) (db_tables db) = false
  /\ has_product product_id (db_tables db) = true
  /\ product_movements_id_seq (db_seqs db') = product_movements_id_seq (db_seqs db)
  /\ existsb (fun b => pb_uuid b =? uuid) (product_batches (db_tables db)) = false.
Proof.
  intros H. unfold insert_product_batches in H. tx_invert H.
  cbn in *. repeat split; try assumption; try congruence;
    apply negb_true_iff; congruence.
Qed.

Lemma insert_product_movements_returned now kind product_id batch_id
    from_entity_type from_entity_id to_entity_type to_entity_id quantity
    unit_price db u db' :
  insert_product_movements now kind product_id batch_id from_entity_type
    from_entity_id to_entity_type to_entity_id quantity unit_price db
  = (Returned u, db') ->
  db_tables db'
  = set_product_movements
      (product_movements (db_tables db)
       ++ [ {| pm_id := product_movements_id_seq (db_seqs db);
               pm_movement_type := kind;
               pm_product_id := product_id; pm_batch_id := batch_id;
               pm_from_entity_type := from_entity_type;
               pm_from_entity_id := from_entity_id;
               pm_to_entity_type := to_entity_type;
               pm_to_entity_id := to_entity_id;
               pm_quantity := quantity; pm_unit_price := unit_price;
               pm_notes := None; pm_created_at := now |} ])
      (db_tables db)
  /\ 0 < quantity
  /\ has_product product_id (db_tables db) = true
  /\ has_batch batch_id (db_tables db) = true.
Proof.
  intros H. unfold insert_product_movements in H. tx_invert H.
  cbn in *. repeat split; try assumption.
  match goal with
  | Hc : product_movements_check _ = None |- _ =>
      unfold product_movements_check in Hc; cbn in Hc;
      destruct (0 <? quantity) eqn:E; [apply Z.ltb_lt; exact E | discriminate]
  end.
Qed.

Lemma sql_update_inr {row} (where_ : row -> bool) set check rows rows' :
  sql_update where_ set check rows = inr rows' ->
  rows' = map (fun r => if where_ r then set r else r) rows
  /\ (forall r, In r rows -> where_ r = true -> check (set r) = None).
Proof.
  revert rows'. induction rows as [|r rest IH]; cbn; intros rows' H.
  - inversion H. split; [reflexivity | intros r []].
  - destruct (where_ r) eqn:W.
    + destruct (check (set r)) eqn:C; [discriminate|].
      destruct (sql_update where_ set check rest) as [c|rest'] eqn:U; [discriminate|].
      inversion H; subst. destruct (IH rest' eq_refl) as [-> Hc].
      split; [reflexivity|]. intros r0 [<-|Hin] W0; [exact C | exact (Hc r0 Hin W0)].
    + destruct (sql_update where_ set check rest) as [c|rest'] eqn:U; [discriminate|].
      inversion H; subst. destruct (IH rest' eq_refl) as [-> Hc].
      split; [reflexivity|]. intros r0 [<-|Hin] W0; [congruence | exact (Hc r0 Hin W0)].
Qed.

Lemma update_batch_availability_returned quantity batch_id db u db' :
  update_batch_availability quantity batch_id db = (Returned u, db') ->
  db_tables db'
  = set_product_batches
      (map (fun b => if pb_id b =? batch_id then ship_out quantity b else b)
           (product_batches (db_tables db)))
      (db_tables db)
  /\ db_seqs db' = db_seqs db.
Proof.
  unfold update_batch_availability.
  destruct (sql_update _ _ _ _) as [c|rows] eqn:U; intros H; [discriminate|].
  apply sql_update_inr in U. destruct U as [-> _].
  cbv [store] in H. inversion H; subst. split; reflexivity.
Qed.

Lemma update_retailer_inventory_returned where_ set db u db' :
  update_retailer_inventory where_ set db = (Returned u, db') ->
  db_tables db'
  = set_retailer_inventory
      (map (fun r => if where_ r then set r else r)
           (retailer_inventory (db_tables db)))
      (db_tables db)
  /\ db_seqs db' = db_seqs db
  /\ (forall r, In r (retailer_inventory (db_tables db)) -> where_ r = true ->
                retailer_inventory_check (set r) = None).
Proof.
  unfold update_retailer_inventory.
  destruct (sql_update _ _ _ _) as [c|rows] eqn:U; intros H; [discriminate|].
  apply sql_update_inr in U. destruct U as [-> Hc].
  cbv [store] in H. inversion H; subst. repeat split; try reflexivity. exact Hc.
Qed.

Lemma upsert_retailer_inventory_returned now retailer_id product_id batch_id
    quantity price db u db' :
  upsert_retailer_inventory now retailer_id product_id batch_id quantity price db
  = (Returned u, db') ->
  exists positions,
    db_tables db' = set_retailer_inventory positions (db_tables db).
Proof.
  intros H. unfold upsert_retailer_inventory in H.
  apply bind_returned in H. destruct H as (id & db1 & Hs1 & H). tx_prim Hs1.
  apply bind_returned in H. destruct H as (? & db2 & Hs2 & H). tx_prim Hs2.
  apply bind_returned in H. destruct H as (conflict & db3 & Hs3 & H). tx_prim Hs3.
  destruct (existsb _ _).
  - apply update_retailer_inventory_returned in H. destruct H as (H & _ & _).
    eexists. exact H.
  - tx_invert H. eexists. reflexivity.
Qed.

Lemma try_transaction_cases {R} (body : tx R) on_catch db r db' :
  try_transaction body on_catch db = (r, db') ->
  body db = (Returned r, db')
  \/ exists e d, body db = (Thrown e, d) /\ r = on_catch e /\ db' = rollback db d.
Proof.
  unfold try_transaction. destruct (body db) as [[a|e] d]; intros H; inversion H; subst.
  - left; reflexivity.
  - right. exists e, d. auto.
Qed.

(** ** C4: what a recorded manufacture creates *)

Lemma post_products_batches_returned
    (now uuid : Z) (req_user : user) (productId : Z) (batch_number : string)
    (manufacture_date expiry_date quantity_produced : Z)
    (lab_test_results : option string) (db db' : database) (res : response) :
  post_products_batches now uuid req_user productId batch_number manufacture_date
    expiry_date quantity_produced lab_test_results db = (res, db') ->
  status res = 200 ->
  exists product owner batch,
    In product (products (db_tables db)) /\ p_id product = productId
    /\ In owner (manufacturers (db_tables db))
    /\ m_id owner = p_manufacturer_id product
    /\ m_wp_user_id owner = user_id req_user
    /\ product_batches (db_tables db') = product_batches (db_tables db) ++ [batch]
    /\ pb_product_id batch = productId
    /\ pb_quantity_produced batch = quantity_produced
    /\ pb_quantity_available batch = quantity_produced
    /\ 0 < quantity_produced /\ manufacture_date < expiry_date
    /\ product_movements (db_tables db')
       = product_movements (db_tables db)
         ++ [ {| pm_id := product_movements_id_seq (db_seqs db);
                 pm_movement_type := manufacture;
                 pm_product_id := productId; pm_batch_id := pb_id batch;
                 pm_from_entity_type := manufacturer;
                 pm_from_entity_id := m_id owner;
                 pm_to_entity_type := manufacturer;
                 pm_to_entity_id := m_id owner;
                 pm_quantity := quantity_produced; pm_unit_price := None;
                 pm_notes := None; pm_created_at := now |} ]
    /\ res = {| status := 200; body := BatchCreated (pb_id batch) (pb_uuid batch) |}
    /\ has_batch (pb_id batch) (db_tables db) = false
    /\ existsb (fun b => pb_uuid b =? pb_uuid batch) (product_batches (db_tables db))
       = false
    /\ manufacturers (db_tables db') = manufacturers (db_tables db)
    /\ products (db_tables db') = products (db_tables db)
    /\ retailers (db_tables db') = retailers (db_tables db).
Proof.
  intros Hrun Hok. unfold post_products_batches in Hrun.
  apply try_transaction_cases in Hrun.
  destruct Hrun as [Hrun | (e & d & _ & -> & _)]; [|discriminate Hok].
  apply bind_returned in Hrun. destruct Hrun as (productResult & db1 & Hq & Hrun).
  tx_prim Hq.
  destruct (flat_map _ (products (db_tables db))) as [|product rest] eqn:Hjoin.
  { inversion Hrun; subst. discriminate Hok. }
  assert (Hin : In product (flat_map
            (fun p => flat_map (fun m =>
               if (p_manufacturer_id p =? m_id m) && (p_id p =? productId)
                  && (m_wp_user_id m =? user_id req_user)
               then [p] else []) (manufacturers (db_tables db)))
            (products (db_tables db)))).
  { rewrite Hjoin. left; reflexivity. }
  apply in_flat_map in Hin. destruct Hin as (p & Hp & Hin).
  apply in_flat_map in Hin. destruct Hin as (m & Hm & Hin).
  destruct ((p_manufacturer_id p =? m_id m) && (p_id p =? productId)
            && (m_wp_user_id m =? user_id req_user)) eqn:Hon; [|destruct Hin].
  destruct Hin as [<-|[]].
  apply andb_prop in Hon. destruct Hon as [Hon Hwp].
  apply andb_prop in Hon. destruct Hon as [Hmid Hpid].
  apply Z.eqb_eq in Hwp, Hmid, Hpid.
  apply bind_returned in Hrun. destruct Hrun as (batch & db2 & Hb & Hrun).
  apply insert_product_batches_returned in Hb.
  destruct Hb as (Hrow & Ht2 & Hcheck & Hfresh & _ & Hseq & Huuid).
  apply bind_returned in Hrun. destruct Hrun as (u & db3 & Hmv & Hrun).
  apply insert_product_movements_returned in Hmv.
  destruct Hmv as (Ht3 & Hpos & _ & _).
  tx_prim Hrun.
  exists p, m, batch.
  rewrite Ht3, Ht2. cbn [product_batches product_movements set_product_batches
                          set_product_movements manufacturers products retailers].
  rewrite Hseq, <- Hmid.
  unfold product_batches_check in Hcheck. rewrite Hrow in Hcheck, Hfresh |- *.
  cbn in Hcheck, Hfresh |- *.
  destruct (0 <? quantity_produced) eqn:E1; [|discriminate].
  destruct (0 <=? quantity_produced); [|discriminate].
  destruct (manufacture_date <? expiry_date) eqn:E2; [|discriminate].
  apply Z.ltb_lt in E1, E2.
  repeat split; auto.
Qed.


Lemma post_products_batches_failed now uuid req_user productId batch_number
    manufacture_date expiry_date quantity_produced lab_test_results db res db' :
  post_products_batches now uuid req_user productId batch_number manufacture_date
    expiry_date quantity_produced lab_test_results db = (res, db') ->
  status res <> 200 -> db_tables db' = db_tables db.
Proof.
  intros Hrun Hno. unfold post_products_batches in Hrun.
  apply try_transaction_cases in Hrun.
  destruct Hrun as [Hrun | (e & d & _ & _ & ->)]; [|reflexivity].
  apply bind_returned in Hrun. destruct Hrun as (productResult & db1 & Hq & Hrun).
  tx_prim Hq.
  destruct (flat_map _ (products (db_tables db))) as [|product rest].
  { tx_prim Hrun. reflexivity. }
  apply bind_returned in Hrun. destruct Hrun as (batch & db2 & _ & Hrun).
  apply bind_returned in Hrun. destruct Hrun as (u & db3 & _ & Hrun).
  tx_prim Hrun. exfalso. apply Hno. reflexivity.
Qed.

(** C4. A batch-creation request (POST /api/products/:productId/batches)
    that succeeds appends one batch whose quantity_available is the
    requested quantity_produced (which is positive, with expiry after
    manufacture), and appends one movement: kind manufacture, for that
    batch, from and to the manufacturer that owns the product, of quantity
    quantity_produced.  Nothing else is added to either relation. *)
Theorem record_manufacture_creates_batch_and_movement
    (now uuid : Z) (req_user : user) (productId : Z) (batch_number : string)
    (manufacture_date expiry_date quantity_produced : Z)
    (lab_test_results : option string) (db db' : database) (res : response) :
  post_products_batches now uuid req_user productId batch_number manufacture_date
    expiry_date quantity_produced lab_test_results db = (res, db') ->
  status res = 200 ->
  exists product owner batch,
    In product (products (db_tables db)) /\ p_id product = productId
    /\ In owner (manufacturers (db_tables db))
    /\ m_id owner = p_manufacturer_id product
    /\ m_wp_user_id owner = user_id req_user
    /\ product_batches (db_tables db') = product_batches (db_tables db) ++ [batch]
    /\ pb_product_id batch = productId
    /\ pb_quantity_produced batch = quantity_produced
    /\ pb_quantity_available batch = quantity_produced
    /\ 0 < quantity_produced /\ manufacture_date < expiry_date
    /\ product_movements (db_tables db')
       = product_movements (db_tables db)
         ++ [ {| pm_id := product_movements_id_seq (db_seqs db);
                 pm_movement_type := manufacture;
                 pm_product_id := productId; pm_batch_id := pb_id batch;
                 pm_from_entity_type := manufacturer;
                 pm_from_entity_id := m_id owner;
                 pm_to_entity_type := manufacturer;
                 pm_to_entity_id := m_id owner;
                 pm_quantity := quantity_produced; pm_unit_price := None;
                 pm_notes := None; pm_created_at := now |} ]
    /\ res = {| status := 200; body := BatchCreated (pb_id batch) (pb_uuid batch) |}.
Proof.
  intros Hrun Hok.
  destruct (post_products_batches_returned _ _ _ _ _ _ _ _ _ _ _ _ Hrun Hok)
    as (product & owner & batch & H).
  exists product, owner, batch. tauto.
Qed.

(** The first scenario: a batch of 1000 and its manufacture movement. *)
Lemma record_manufacture_creates_batch_and_movement_witness :
  exists batch movement,
    product_batches (db_tables ledger1) = [batch]
    /\ pb_quantity_available batch = 1000
    /\ product_movements (db_tables ledger1) = [movement]
    /\ pm_movement_type movement = manufacture
    /\ pm_from_entity_id movement = pm_to_entity_id movement
    /\ pm_quantity movement = 1000.
Proof.
  destruct (record_manufacture_creates_batch_and_movement
              1704067200 7001 manufacturer_user 1 "BATCH-TEST-001"
              19723 20089 1000 None ledger0 ledger1
              {| status := 200; body := BatchCreated 1 7001 |})
    as (product & owner & batch & _ & _ & _ & _ & _ & Hb & _ & _ & Hqa & _ & _ & Hm & _).
  - vm_compute. reflexivity.
  - reflexivity.
  - exists batch. eexists. split; [exact Hb|]. split; [exact Hqa|].
    split; [exact Hm|]. cbn. auto.
Defined.

(** ** What the shipment and purchase handlers do to each relation *)

Lemma insert_purchase_items_returned purchase_id product_id batch_id quantity
    unit_price total_price db u db' :
  insert_purchase_items purchase_id product_id batch_id quantity unit_price
    total_price db = (Returned u, db') ->
  db_tables db'
  = set_purchase_items
      (purchase_items (db_tables db)
       ++ [ {| pi_id := purchase_items_id_seq (db_seqs db);
               pi_purchase_id := purchase_id;
               pi_product_id := product_id; pi_batch_id := batch_id;
               pi_quantity := quantity; pi_unit_price := unit_price;
               pi_total_price := total_price; pi_discount_applied := 0 |} ])
      (db_tables db)
  /\ 0 < quantity
  /\ has_batch batch_id (db_tables db) = true.
Proof.
  intros H. unfold insert_purchase_items in H. tx_invert H.
  cbn in *. repeat split; try congruence.
  match goal with
  | Hc : purchase_items_check _ = None |- _ =>
      unfold purchase_items_check in Hc; cbn in Hc;
      destruct (0 <? quantity) eqn:E; [apply Z.ltb_lt; exact E | discriminate]
  end.
Qed.

Lemma insert_consumer_purchases_returned now uuid wp_user_id retailer_id total
    payment_method pos_transaction_id items db row db' :
  insert_consumer_purchases now uuid wp_user_id retailer_id total payment_method
    pos_transaction_id items db = (Returned row, db') ->
  row = {| cp_id := consumer_purchases_id_seq (db_seqs db); cp_uuid := uuid;
           cp_wp_user_id := wp_user_id; cp_retailer_id := retailer_id;
           cp_order_metadata := items; cp_purchase_date := now;
           cp_pos_transaction_id := pos_transaction_id;
           cp_payment_method := payment_method;
           cp_total_amount := total |}
  /\ db_tables db'
     = set_consumer_purchases (consumer_purchases (db_tables db) ++ [row]) (db_tables db)
  /\ has_retailer retailer_id (db_tables db) = true.
Proof.
  intros H. unfold insert_consumer_purchases in H. tx_invert H.
  cbn in *. repeat split; congruence.
Qed.

Lemma process_items_returned now retailer_id wp_user_id purchaseId items :
  forall db u db',
  process_items now retailer_id wp_user_id purchaseId items db = (Returned u, db') ->
  manufacturers (db_tables db') = manufacturers (db_tables db)
  /\ products (db_tables db') = products (db_tables db)
  /\ retailers (db_tables db') = retailers (db_tables db)
  /\ product_batches (db_tables db') = product_batches (db_tables db)
  /\ consumer_purchases (db_tables db') = consumer_purchases (db_tables db)
  /\ exists rows movements,
       purchase_items (db_tables db') = purchase_items (db_tables db) ++ rows
       /\ product_movements (db_tables db') = product_movements (db_tables db) ++ movements
       /\ Forall2 (item_row purchaseId) items rows
       /\ Forall2 (item_movement now retailer_id wp_user_id) items movements
       /\ Forall (fun it => 0 < item_quantity it
                            /\ has_batch (item_batch_id it) (db_tables db) = true) items.
Proof.
  induction items as [|it rest IH]; intros db u db' H.
  - cbn in H. tx_prim H. repeat split; try reflexivity.
    exists [], []. rewrite !app_nil_r. repeat split; constructor.
  - cbn [process_items] in H.
    apply bind_returned in H. destruct H as (u1 & db1 & H1 & H).
    unfold process_item in H1.
    apply bind_returned in H1. destruct H1 as (u2 & db2 & Hpi & H1).
    apply bind_returned in H1. destruct H1 as (u3 & db3 & Hup & Hmv).
    apply insert_purchase_items_returned in Hpi. destruct Hpi as (T2 & Hq & Hb).
    apply update_retailer_inventory_returned in Hup. destruct Hup as (T3 & _ & _).
    apply insert_product_movements_returned in Hmv. destruct Hmv as (T1 & _ & _ & _).
    apply IH in H.
    destruct H as (E1 & E2 & E3 & E4 & E5 & rows & mvs & Er & Em & Fr & Fm & Fq).
    rewrite T1, T3, T2 in E1, E2, E3, E4, E5, Er, Em. cbn in E1, E2, E3, E4, E5, Er, Em.
    repeat (split; [assumption|]).
    eexists (_ :: rows), (_ :: mvs).
    rewrite Er, Em, <- !app_assoc. cbn [app].
    split; [reflexivity|]. split; [reflexivity|].
    split; [constructor; [|exact Fr]; cbv [item_row]; cbn; auto 10|].
    split; [constructor; [|exact Fm]; cbv [item_movement]; cbn; auto 12|].
    constructor; [auto|].
    eapply Forall_impl; [|exact Fq]. cbn. intros it' [Hq' Hb'].
    split; [exact Hq'|]. rewrite <- Hb'. unfold has_batch.
    rewrite T1, T3, T2. reflexivity.
Qed.

Lemma post_purchase_effect now uuid retailer_id items wp_user_id payment_method
    pos_transaction_id db res db' :
  post_purchase now uuid retailer_id items wp_user_id payment_method
    pos_transaction_id db = (res, db') ->
  (res = {| status := 500; body := ErrorBody "Failed to process purchase" |}
   /\ db_tables db' = db_tables db)
  \/ (exists purchase rows movements,
        res = {| status := 200;
                 body := PurchaseCompleted (cp_id purchase) (cp_uuid purchase) |}
        /\ purchase = {| cp_id := consumer_purchases_id_seq (db_seqs db);
                         cp_uuid := uuid; cp_wp_user_id := wp_user_id;
                         cp_retailer_id := retailer_id;
                         cp_order_metadata := items; cp_purchase_date := now;
                         cp_pos_transaction_id := pos_transaction_id;
                         cp_payment_method := payment_method;
                         cp_total_amount := total_amount items |}
        /\ manufacturers (db_tables db') = manufacturers (db_tables db)
        /\ products (db_tables db') = products (db_tables db)
        /\ retailers (db_tables db') = retailers (db_tables db)
        /\ product_batches (db_tables db') = product_batches (db_tables db)
        /\ consumer_purchases (db_tables db')
           = consumer_purchases (db_tables db) ++ [purchase]
        /\ purchase_items (db_tables db') = purchase_items (db_tables db) ++ rows
        /\ product_movements (db_tables db')
           = product_movements (db_tables db) ++ movements
        /\ Forall2 (item_row (cp_id purchase)) items rows
        /\ Forall2 (item_movement now retailer_id wp_user_id) items movements
        /\ Forall (fun it => 0 < item_quantity it
                             /\ has_batch (item_batch_id it) (db_tables db) = true)
                  items).
Proof.
  intros Hrun. unfold post_purchase in Hrun.
  apply try_transaction_cases in Hrun.
  destruct Hrun as [Hrun | (e & d & _ & -> & ->)]; [|left; split; reflexivity].
  right. unfold purchase_body in Hrun.
  apply bind_returned in Hrun. destruct Hrun as (purchase & db1 & Hp & Hrun).
  apply bind_returned in Hrun. destruct Hrun as (u & db2 & Hi & Hrun).
  tx_prim Hrun.
  apply insert_consumer_purchases_returned in Hp. destruct Hp as (Hrow & T1 & _).
  apply process_items_returned in Hi.
  destruct Hi as (E1 & E2 & E3 & E4 & E5 & rows & mvs & Er & Em & Fr & Fm & Fq).
  rewrite T1 in E1, E2, E3, E4, E5, Er, Em. cbn in E1, E2, E3, E4, E5, Er, Em.
  exists purchase, rows, mvs.
  repeat (split; [first [assumption | reflexivity]|]).
  eapply Forall_impl; [|exact Fq]. cbn. intros it [Hq Hb].
  split; [exact Hq|]. rewrite <- Hb. unfold has_batch. rewrite T1. reflexivity.
Qed.

Lemma post_inventory_add_effect now req_user product_id batch_id quantity price
    db res db' :
  post_inventory_add now req_user product_id batch_id quantity price db = (res, db') ->
  (status res <> 200 /\ db_tables db' = db_tables db)
  \/ (res = {| status := 200; body := InventoryAdded |}
      /\ user_type req_user = "retailer"
      /\ exists retailer_row batch manufacturer_id id,
           In retailer_row (retailers (db_tables db))
           /\ r_wp_user_id retailer_row = user_id req_user
           /\ In batch (product_batches (db_tables db))
           /\ pb_id batch = batch_id /\ pb_product_id batch = product_id
           /\ quantity <= pb_quantity_available batch
           /\ 0 < quantity
           /\ manufacturers (db_tables db') = manufacturers (db_tables db)
           /\ products (db_tables db') = products (db_tables db)
           /\ retailers (db_tables db') = retailers (db_tables db)
           /\ product_batches (db_tables db')
              = map (fun b => if pb_id b =? batch_id then ship_out quantity b else b)
                    (product_batches (db_tables db))
           /\ product_movements (db_tables db')
              = product_movements (db_tables db)
                ++ [ {| pm_id := id; pm_movement_type := ship_to_retailer;
                        pm_product_id := product_id; pm_batch_id := batch_id;
                        pm_from_entity_type := manufacturer;
                        pm_from_entity_id := manufacturer_id;
                        pm_to_entity_type := retailer;
                        pm_to_entity_id := r_id retailer_row;
                        pm_quantity := quantity; pm_unit_price := Some price;
                        pm_notes := None; pm_created_at := now |} ]
           /\ consumer_purchases (db_tables db') = consumer_purchases (db_tables db)
           /\ purchase_items (db_tables db') = purchase_items (db_tables db)).
Proof.
  intros Hrun. unfold post_inventory_add in Hrun.
  destruct (String.eqb_spec (user_type req_user) "retailer") as [Hty|Hty];
    cbn [negb] in Hrun.
  2:{ inversion Hrun; subst. left. split; [discriminate | reflexivity]. }
  apply try_transaction_cases in Hrun.
  destruct Hrun as [Hrun | (e & d & _ & -> & ->)];
    [|left; split; [discriminate | reflexivity]].
  right. unfold inventory_add_body in Hrun.
  apply bind_returned in Hrun. destruct Hrun as (retailerResult & db1 & Hq & Hrun).
  tx_prim Hq.
  destruct (filter _ (retailers (db_tables db))) as [|retailer_row rs] eqn:Hret;
    [discriminate Hrun|].
  apply filter_hd_In in Hret. destruct Hret as [Hrin Hrwp]. apply Z.eqb_eq in Hrwp.
  apply bind_returned in Hrun. destruct Hrun as (batchResult & db2 & Hq & Hrun).
  tx_prim Hq.
  destruct (filter _ (product_batches (db_tables db))) as [|batch bs] eqn:Hb;
    cbn [map] in Hrun; [discriminate Hrun|].
  apply filter_hd_In in Hb. destruct Hb as [Hbin Hbkey].
  apply andb_prop in Hbkey. destruct Hbkey as [Hbid Hbpid].
  apply Z.eqb_eq in Hbid, Hbpid.
  destruct (pb_quantity_available batch <? quantity) eqn:Hlt; [discriminate Hrun|].
  apply Z.ltb_ge in Hlt.
  apply bind_returned in Hrun. destruct Hrun as (u1 & db3 & Hup & Hrun).
  apply bind_returned in Hrun. destruct Hrun as (u2 & db4 & Hba & Hrun).
  apply bind_returned in Hrun. destruct Hrun as (manufacturerResult & db5 & Hq & Hrun).
  tx_prim Hq.
  destruct (map p_manufacturer_id _) as [|manufacturer_id ms]; [discriminate Hrun|].
  apply bind_returned in Hrun. destruct Hrun as (u3 & db6 & Hmv & Hrun).
  tx_prim Hrun.
  apply upsert_retailer_inventory_returned in Hup. destruct Hup as (positions & T3).
  apply update_batch_availability_returned in Hba. destruct Hba as (T4 & _).
  apply insert_product_movements_returned in Hmv. destruct Hmv as (T6 & Hpos & _ & _).
  split; [reflexivity|]. split; [exact Hty|].
  exists retailer_row, batch, manufacturer_id, (product_movements_id_seq (db_seqs db4)).
  rewrite T6, T4, T3. cbn.
  repeat (split; [first [assumption | reflexivity]|]). reflexivity.
Qed.

(** ** C1: a shipment of more than the batch has *)

(** A shipment request (POST /api/inventory/add) served alone: asked for
    more than the quantity_available of the batch it names, it changes
    nothing and does not succeed, and when the caller is a registered
    retailer the response is the insufficient-quantity error; a request
    that succeeds has decremented a batch that held at least the requested
    quantity in the state its transaction began in. *)
Theorem ship_insufficient_quantity_rejected
    (now : Z) (req_user : user) (product_id batch_id quantity price : Z)
    (db : database) :
  let result := post_inventory_add now req_user product_id batch_id quantity price db in
  ((forall b, In b (product_batches (db_tables db)) -> pb_id b = batch_id ->
              pb_quantity_available b < quantity) ->
   snd result = db
   /\ status (fst result) <> 200
   /\ (user_type req_user = "retailer" ->
       (exists r, In r (retailers (db_tables db)) /\ r_wp_user_id r = user_id req_user) ->
       fst result = InsufficientQuantityError))
  /\ (status (fst result) = 200 ->
      exists b, In b (product_batches (db_tables db))
        /\ pb_id b = batch_id /\ pb_product_id b = product_id
        /\ quantity <= pb_quantity_available b
        /\ product_batches (db_tables (snd result))
           = map (fun b => if pb_id b =? batch_id then ship_out quantity b else b)
                 (product_batches (db_tables db))).
Proof.
  cbv zeta. split.
  - intros Hless. unfold post_inventory_add.
    destruct (String.eqb_spec (user_type req_user) "retailer") as [Hty|Hty]; cbn [negb].
    2:{ cbn. repeat split; [discriminate | intros; contradiction]. }
    unfold try_transaction, inventory_add_body, bind, query.
    destruct (filter (fun r => r_wp_user_id r =? user_id req_user)
                     (retailers (db_tables db))) as [|r0 rs] eqn:Hret.
    + cbn. rewrite rollback_same. repeat split; [discriminate|].
      intros _ [r [Hin Hid]].
      assert (In r []) as []. rewrite <- Hret. apply filter_In. split; [exact Hin|].
      apply Z.eqb_eq; exact Hid.
    + destruct (filter (fun b => (pb_id b =? batch_id) && (pb_product_id b =? product_id))
                       (product_batches (db_tables db))) as [|b0 bs] eqn:Hb; cbn [map].
      * cbn. rewrite rollback_same. repeat split; discriminate.
      * apply filter_hd_In in Hb. destruct Hb as [Hin Hkey].
        apply andb_prop in Hkey. destruct Hkey as [Hid _].
        apply Z.eqb_eq in Hid. specialize (Hless b0 Hin Hid).
        apply Z.ltb_lt in Hless. rewrite Hless.
        cbn. rewrite rollback_same. repeat split; discriminate.
  - intros Hok.
    destruct (post_inventory_add now req_user product_id batch_id quantity price db)
      as [res db'] eqn:Hrun.
    apply post_inventory_add_effect in Hrun. cbn [fst snd] in *.
    destruct Hrun as [[Hno _] | (_ & _ & r & b & mid & id & H)]; [contradiction|].
    exists b. tauto.
Qed.

(** The fourth scenario: 900 asked of the 800 left. *)
Lemma ship_insufficient_quantity_rejected_witness :
  let result := post_inventory_add 1704326400 retailer_user 1 1 900 500 ledger2 in
  snd result = ledger2 /\ status (fst result) <> 200
  /\ fst result = InsufficientQuantityError.
Proof.
  destruct (ship_insufficient_quantity_rejected
              1704326400 retailer_user 1 1 900 500 ledger2) as [H _].
  cbv zeta in H |- *.
  assert (Hless : forall b, In b (product_batches (db_tables ledger2)) ->
                            pb_id b = 1 -> pb_quantity_available b < 900).
  { intros b [Hb|[]] _. subst b. vm_compute. reflexivity. }
  destruct (H Hless) as (H1 & H2 & H3).
  split; [exact H1 | split; [exact H2 |]].
  apply H3; [reflexivity|].
  eexists. split; [left; reflexivity | reflexivity].
Defined.

(** *** Two shipments at once *)

(** The two halves are the body of the handler. *)
Lemma inventory_add_body_split now req_user product_id batch_id quantity price db :
  inventory_add_body now req_user product_id batch_id quantity price db
  = bind (inventory_add_reads req_user product_id batch_id quantity)
         (fun retailerId =>
            inventory_add_writes now retailerId product_id batch_id quantity price)
         db.
Proof.
  unfold inventory_add_body, inventory_add_reads, inventory_add_writes, bind, query.
  destruct (filter _ (retailers (db_tables db))) as [|retailer_row rest];
    [reflexivity|].
  destruct (map pb_quantity_available _) as [|quantity_available others];
    [reflexivity|].
  destruct (quantity_available <? quantity); reflexivity.
Qed.

(** The check writes nothing. *)
Lemma inventory_add_reads_pure req_user product_id batch_id quantity db :
  snd (inventory_add_reads req_user product_id batch_id quantity db) = db.
Proof.
  unfold inventory_add_reads, bind, query.
  destruct (filter _ (retailers (db_tables db))) as [|retailer_row rest];
    [reflexivity|].
  destruct (map pb_quantity_available _) as [|quantity_available others];
    [reflexivity|].
  destruct (quantity_available <? quantity); reflexivity.
Qed.

(** With nothing committed in between, the interleaved request is the
    request served alone. *)
Lemma post_inventory_add_alone now req_user product_id batch_id quantity price db :
  post_inventory_add_interleaved now req_user product_id batch_id quantity price db db
  = post_inventory_add now req_user product_id batch_id quantity price db.
Proof.
  unfold post_inventory_add_interleaved, post_inventory_add.
  destruct (negb _); [reflexivity|].
  unfold try_transaction. rewrite inventory_add_body_split. unfold bind.
  pose proof (inventory_add_reads_pure req_user product_id batch_id quantity db) as P.
  destruct (inventory_add_reads req_user product_id batch_id quantity db)
    as [[retailerId|e] d]; cbn [snd] in P; subst d; [reflexivity|].
  rewrite rollback_same. reflexivity.
Qed.

Lemma sql_update_rejects {row} (where_ : row -> bool) set check rows r :
  In r rows -> where_ r = true -> check (set r) <> None ->
  exists c, sql_update where_ set check rows = inl c.
Proof.
  induction rows as [|x rest IH]; intros Hin W C; [destruct Hin|].
  cbn [sql_update]. destruct Hin as [->|Hin].
  - rewrite W. destruct (check (set r)) as [c|]; [|contradiction].
    exists c; reflexivity.
  - destruct (IH Hin W C) as (c & ->).
    destruct (where_ x); [|exists c; reflexivity].
    destruct (check (set x)) as [c'|]; eexists; reflexivity.
Qed.

Lemma upsert_retailer_inventory_thrown now retailer_id product_id batch_id
    quantity price db e d :
  upsert_retailer_inventory now retailer_id product_id batch_id quantity price db
  = (Thrown e, d) ->
  exists c, e = DatabaseError c.
Proof.
  unfold upsert_retailer_inventory, bind, nextval_retailer_inventory_id, check_row,
    query, constraint, store, update_retailer_inventory, ret, throw.
  cbn [db_tables db_seqs].
  repeat match goal with
         | |- context [match ?x with _ => _ end] =>
             match x with
             | context [match _ with _ => _ end] => fail 1
             | _ => destruct x
             end
         end; intros H; inversion H; eexists; reflexivity.
Qed.

(** C1 fails on two shipments of 700 out of the 1000 of the batch, asked
    at once by the two retailers.  Both pass the availability check on the
    1000 that are committed; the first commits and leaves 300; the UPDATE
    of the second is then refused by CHECK (quantity_available >= 0), so
    the second request answers 500 with the error of the database, where it
    answers the insufficient-quantity error when it is served after the
    first. *)
Lemma concurrent_shipments_both_pass_the_check :
  let first := post_inventory_add 1704153600 retailer_user 1 1 700 500 ledger1 in
  let second := post_inventory_add_interleaved 1704153601 second_retailer_user
                  1 1 700 500 ledger1 (snd first) in
  map pb_quantity_available (product_batches (db_tables ledger1)) = [1000]
  /\ fst (inventory_add_reads retailer_user 1 1 700 ledger1) = Returned 1
  /\ fst (inventory_add_reads second_retailer_user 1 1 700 ledger1) = Returned 2
  /\ fst first = {| status := 200; body := InventoryAdded |}
  /\ map pb_quantity_available (product_batches (db_tables (snd first))) = [300]
  /\ fst (inventory_add_writes 1704153601 2 1 1 700 500 (snd first))
     = Thrown (DatabaseError "product_batches_quantity_available_check")
  /\ status (fst second) = 500
  /\ fst second <> InsufficientQuantityError
  /\ db_tables (snd second) = db_tables (snd first)
  /\ fst (post_inventory_add 1704153601 second_retailer_user 1 1 700 500 (snd first))
     = InsufficientQuantityError.
Proof.
  cbv zeta. repeat split; try (vm_compute; reflexivity).
  vm_compute. intros E. discriminate E.
Qed.

(** C1. The availability check and the decrement share a transaction, but
    they are not one atomic unit against other shipments.  A check that
    passed on a state which another transaction has since changed is not
    repeated: when the batch no longer holds the quantity at the time of
    the writes, the request fails through a constraint of the database,
    CHECK (quantity_available >= 0) at the latest.  It answers 500 with
    the error of the database, not the insufficient-quantity error, and
    what the other transactions committed stays as it is. *)
Theorem ship_check_and_decrement_not_atomic
    (now : Z) (req_user : user) (product_id batch_id quantity price : Z)
    (db committed : database) (retailerId : Z) :
  user_type req_user = "retailer" ->
  fst (inventory_add_reads req_user product_id batch_id quantity db)
  = Returned retailerId ->
  (exists b, In b (product_batches (db_tables committed))
             /\ pb_id b = batch_id /\ pb_quantity_available b < quantity) ->
  let result := post_inventory_add_interleaved now req_user product_id batch_id
                  quantity price db committed in
  (exists c, fst (inventory_add_writes now retailerId product_id batch_id quantity
                    price committed) = Thrown (DatabaseError c))
  /\ status (fst result) = 500
  /\ fst result <> InsufficientQuantityError
  /\ db_tables (snd result) = db_tables committed.
Proof.
  intros Hty Hreads (b & Hb & Hid & Hless). cbv zeta.
  unfold post_inventory_add_interleaved. rewrite Hty.
  change (negb (String.eqb "retailer" "retailer")) with false. cbv iota.
  destruct (inventory_add_reads req_user product_id batch_id quantity db)
    as [[rid|e] d0]; cbn [fst] in Hreads; [|discriminate Hreads].
  injection Hreads as ->.
  assert (Hthrown : exists c d,
             inventory_add_writes now retailerId product_id batch_id quantity price
               committed = (Thrown (DatabaseError c), d)).
  { unfold inventory_add_writes. unfold bind at 1.
    destruct (upsert_retailer_inventory now retailerId product_id batch_id quantity
                price committed) as [[u|e] d1] eqn:Hup.
    - apply upsert_retailer_inventory_returned in Hup.
      destruct Hup as (positions & T1).
      unfold bind at 1. unfold update_batch_availability.
      destruct (sql_update_rejects (fun b => pb_id b =? batch_id) (ship_out quantity)
                  product_batches_check (product_batches (db_tables d1)) b)
        as (c & ->).
      + rewrite T1. exact Hb.
      + apply Z.eqb_eq; exact Hid.
      + unfold product_batches_check.
        destruct (negb (0 <? _)); [discriminate|].
        replace (0 <=? pb_quantity_available (ship_out quantity b)) with false;
          [discriminate|].
        symmetry. apply Z.leb_gt. cbn. lia.
      + eexists. eexists. reflexivity.
    - destruct (upsert_retailer_inventory_thrown _ _ _ _ _ _ _ _ _ Hup) as (c & ->).
      eexists. eexists. reflexivity. }
  destruct Hthrown as (c & d & Hw). unfold try_transaction. rewrite Hw.
  cbn [fst snd status]. split; [exists c; reflexivity|].
  split; [reflexivity|]. split; [|reflexivity].
  unfold InsufficientQuantityError. cbn. intros E. discriminate E.
Qed.

(** The second of two shipments of 700 out of 1000, its check made before
    the first committed. *)
Lemma ship_check_and_decrement_not_atomic_witness :
  let committed :=
    snd (post_inventory_add 1704153600 retailer_user 1 1 700 500 ledger1) in
  let result := post_inventory_add_interleaved 1704153601 second_retailer_user
                  1 1 700 500 ledger1 committed in
  status (fst result) = 500
  /\ fst result <> InsufficientQuantityError
  /\ db_tables (snd result) = db_tables committed.
Proof.
  cbv zeta.
  destruct (ship_check_and_decrement_not_atomic 1704153601 second_retailer_user
              1 1 700 500 ledger1
              (snd (post_inventory_add 1704153600 retailer_user 1 1 700 500 ledger1))
              2) as (_ & H).
  - reflexivity.
  - reflexivity.
  - eexists. split; [left; reflexivity|]. split; reflexivity.
  - exact H.
Defined.

(** ** C9: the columns of a batch after its creation *)

Lemma batch_frame_refl b : batch_frame b b.
Proof. destruct b; reflexivity. Qed.

Lemma batches_frame_refl l : Forall2 batch_frame l l.
Proof. induction l; constructor; auto using batch_frame_refl. Qed.

Lemma batches_frame_ship_out quantity batch_id l :
  Forall2 batch_frame l
    (map (fun b => if pb_id b =? batch_id then ship_out quantity b else b) l).
Proof.
  induction l as [|b l IH]; cbn; constructor; [|exact IH].
  destruct (pb_id b =? batch_id); [reflexivity | apply batch_frame_refl].
Qed.

Lemma batch_frame_columns b b' :
  batch_frame b b' ->
  pb_id b' = pb_id b /\ pb_uuid b' = pb_uuid b /\ pb_product_id b' = pb_product_id b
  /\ pb_batch_number b' = pb_batch_number b
  /\ pb_manufacture_date b' = pb_manufacture_date b
  /\ pb_expiry_date b' = pb_expiry_date b
  /\ pb_quantity_produced b' = pb_quantity_produced b
  /\ pb_lab_test_results b' = pb_lab_test_results b
  /\ pb_qr_code_data b' = pb_qr_code_data b
  /\ pb_blockchain_hash b' = pb_blockchain_hash b
  /\ pb_created_at b' = pb_created_at b.
Proof.
  unfold batch_frame. intros ->. cbn. repeat split.
Qed.

(** C9. A shipment, a purchase and a trace leave the batches in place, row
    for row, each with the quantity_produced and every other column it had
    before, quantity_available excepted; a purchase and a trace leave the
    batches as they are. *)
Theorem batch_columns_written_once :
  (forall now req_user product_id batch_id quantity price db,
      Forall2 (fun b b' => batch_frame b b'
                           /\ pb_quantity_produced b' = pb_quantity_produced b)
        (product_batches (db_tables db))
        (product_batches (db_tables
           (snd (post_inventory_add now req_user product_id batch_id quantity price db)))))
  /\ (forall now uuid retailer_id items wp_user_id payment_method pos_transaction_id db,
         product_batches (db_tables
           (snd (post_purchase now uuid retailer_id items wp_user_id payment_method
                               pos_transaction_id db)))
         = product_batches (db_tables db))
  /\ (forall order_by batchNumber db,
         snd (get_trace_batch order_by batchNumber db) = db).
Proof.
  split; [|split].
  - intros now req_user product_id batch_id quantity price db.
    eapply Forall2_impl.
    { intros b b' Hf. split; [exact Hf|]. apply batch_frame_columns in Hf. tauto. }
    destruct (post_inventory_add now req_user product_id batch_id quantity price db)
      as [res db'] eqn:Hrun.
    apply post_inventory_add_effect in Hrun. cbn [snd].
    destruct Hrun as [[_ ->] | (_ & _ & r & b & mid & id & H)].
    + apply batches_frame_refl.
    + destruct H as (_ & _ & _ & _ & _ & _ & _ & _ & _ & _ & -> & _).
      apply batches_frame_ship_out.
  - intros now uuid retailer_id items wp_user_id payment_method pos_transaction_id db.
    destruct (post_purchase now uuid retailer_id items wp_user_id payment_method
                            pos_transaction_id db) as [res db'] eqn:Hrun.
    apply post_purchase_effect in Hrun. cbn [snd].
    destruct Hrun as [[_ ->] | (p & rows & mvs & H)]; [reflexivity|].
    destruct H as (_ & _ & _ & _ & _ & -> & _). reflexivity.
  - intros order_by batchNumber db. unfold get_trace_batch.
    destruct (trace_batch_query batchNumber (db_tables db)); reflexivity.
Qed.

(** ** C5: the reconciliation law *)

Lemma replay_fold batch_id log : forall acc,
  fold_left (fun available m =>
               if pm_batch_id m =? batch_id then available + signed_quantity m
               else available) log acc
  = acc + replay batch_id log.
Proof.
  unfold replay. induction log as [|m log IH]; intros acc; cbn.
  - lia.
  - rewrite IH. rewrite (IH (if pm_batch_id m =? batch_id then _ else _)).
    destruct (pm_batch_id m =? batch_id); lia.
Qed.

Lemma replay_app batch_id l1 l2 :
  replay batch_id (l1 ++ l2) = replay batch_id l1 + replay batch_id l2.
Proof.
  unfold replay at 1. rewrite fold_left_app. fold (replay batch_id l1).
  apply replay_fold.
Qed.

Lemma replay_silent batch_id log :
  (forall m, In m log -> pm_batch_id m <> batch_id \/ signed_quantity m = 0) ->
  replay batch_id log = 0.
Proof.
  induction log as [|m log IH]; intros H; [reflexivity|].
  change (m :: log) with ([m] ++ log). rewrite replay_app, IH.
  - unfold replay; cbn. destruct (Z.eqb_spec (pm_batch_id m) batch_id) as [E|E]; [|lia].
    destruct (H m (or_introl eq_refl)) as [Hne|Hz]; [contradiction | lia].
  - intros m' Hin. apply H. right; exact Hin.
Qed.

Lemma has_batch_In id t :
  has_batch id t = true <-> exists b, In b (product_batches t) /\ pb_id b = id.
Proof.
  unfold has_batch. rewrite existsb_exists. split; intros (b & Hin & E); exists b;
    (split; [exact Hin|]); apply Z.eqb_eq; exact E.
Qed.

Lemma reconciled_manufacture t t' batch movement :
  reconciled t ->
  has_batch (pb_id batch) t = false ->
  product_batches t' = product_batches t ++ [batch] ->
  product_movements t' = product_movements t ++ [movement] ->
  pm_movement_type movement = manufacture ->
  pm_batch_id movement = pb_id batch ->
  pm_quantity movement = pb_quantity_available batch ->
  reconciled t'.
Proof.
  intros [Hrep Hfk] Hfresh Eb Em Hkind Hid Hq. split.
  - intros b Hin. rewrite Em, replay_app. rewrite Eb in Hin.
    apply in_app_or in Hin. destruct Hin as [Hin|[<-|[]]].
    + rewrite (Hrep b Hin). unfold replay; cbn.
      destruct (Z.eqb_spec (pm_batch_id movement) (pb_id b)) as [E|E]; [|lia].
      exfalso. rewrite Hid in E.
      assert (has_batch (pb_id batch) t = true) as Hc.
      { apply has_batch_In. exists b. auto. }
      congruence.
    + rewrite replay_silent.
      * unfold replay; cbn. rewrite Hid, Z.eqb_refl.
        unfold signed_quantity. rewrite Hkind. lia.
      * intros m Hm. left. intros E. apply Hfk in Hm. congruence.
  - intros m Hin. rewrite Em in Hin. apply has_batch_In.
    apply in_app_or in Hin. destruct Hin as [Hin|[<-|[]]].
    + apply Hfk, has_batch_In in Hin. destruct Hin as (b & Hb & E).
      exists b. rewrite Eb. split; [apply in_or_app; left; exact Hb | exact E].
    + exists batch. rewrite Eb. split; [apply in_or_app; right; left; reflexivity | auto].
Qed.

Lemma reconciled_ship t t' batch_id quantity movement :
  reconciled t ->
  has_batch batch_id t = true ->
  product_batches t'
  = map (fun b => if pb_id b =? batch_id then ship_out quantity b else b)
        (product_batches t) ->
  product_movements t' = product_movements t ++ [movement] ->
  pm_movement_type movement = ship_to_retailer ->
  pm_batch_id movement = batch_id ->
  pm_quantity movement = quantity ->
  reconciled t'.
Proof.
  intros [Hrep Hfk] Hex Eb Em Hkind Hid Hq. split.
  - intros b' Hin. rewrite Eb in Hin. apply in_map_iff in Hin.
    destruct Hin as (b & <- & Hin).
    rewrite Em, replay_app. unfold replay at 2; cbn.
    unfold signed_quantity. rewrite Hkind, Hid, Hq.
    destruct (Z.eqb_spec (pb_id b) batch_id) as [E|E]; cbn [pb_id ship_out].
    + rewrite (Hrep b Hin). rewrite E, Z.eqb_refl. cbn. lia.
    + rewrite (Hrep b Hin).
      destruct (Z.eqb_spec batch_id (pb_id b)) as [E'|E']; [congruence | lia].
  - assert (Hkeep : forall id, has_batch id t = true -> has_batch id t' = true).
    { intros id Hh. apply has_batch_In in Hh. destruct Hh as (b & Hb & E).
      apply has_batch_In. rewrite Eb.
      exists (if pb_id b =? batch_id then ship_out quantity b else b).
      split; [apply in_map_iff; exists b; split; [reflexivity | exact Hb]|].
      destruct (pb_id b =? batch_id); exact E. }
    intros m Hin. rewrite Em in Hin.
    apply in_app_or in Hin. destruct Hin as [Hin|[<-|[]]].
    + apply Hkeep, Hfk, Hin.
    + rewrite Hid. apply Hkeep, Hex.
Qed.

Lemma reconciled_sales t t' movements :
  reconciled t ->
  product_batches t' = product_batches t ->
  product_movements t' = product_movements t ++ movements ->
  Forall (fun m => pm_movement_type m = sale_to_consumer
                   /\ has_batch (pm_batch_id m) t = true) movements ->
  reconciled t'.
Proof.
  intros [Hrep Hfk] Eb Em Hall. rewrite Forall_forall in Hall. split.
  - intros b Hin. rewrite Eb in Hin. rewrite Em, replay_app, (Hrep b Hin).
    rewrite replay_silent; [lia|].
    intros m Hm. right. unfold signed_quantity.
    destruct (Hall m Hm) as [-> _]. reflexivity.
  - assert (Hkeep : forall id, has_batch id t = true -> has_batch id t' = true).
    { intros id Hh. unfold has_batch in *. rewrite Eb. exact Hh. }
    intros m Hin. rewrite Em in Hin. apply Hkeep.
    apply in_app_or in Hin. destruct Hin as [Hin|Hin]; [apply Hfk, Hin|].
    apply (Hall m Hin).
Qed.

Lemma reconciled_same t t' :
  reconciled t -> t' = t -> reconciled t'.
Proof. intros H ->. exact H. Qed.

Lemma run_reconciled op db :
  reconciled (db_tables db) -> reconciled (db_tables (snd (run op db))).
Proof.
  intros Hrec. destruct op; cbn [run].
  - (* record_manufacture *)
    destruct (post_products_batches now uuid req_user productId batch_number
                manufacture_date expiry_date quantity_produced lab_test_results db)
      as [res db'] eqn:Hrun. cbn [snd].
    destruct (Z.eq_dec (status res) 200) as [Hok|Hno].
    + destruct (post_products_batches_returned _ _ _ _ _ _ _ _ _ _ _ _ Hrun Hok)
        as (product & owner & batch & H).
      destruct H as (_ & _ & _ & _ & _ & Eb & _ & _ & Hqa & _ & _ & Em & _ & Hfresh & _).
      eapply reconciled_manufacture; eauto.
    + eapply reconciled_same; [exact Hrec|].
      eapply post_products_batches_failed; eauto.
  - (* ship_to_retailer *)
    destruct (post_inventory_add now req_user product_id batch_id quantity price db)
      as [res db'] eqn:Hrun. cbn [snd].
    apply post_inventory_add_effect in Hrun.
    destruct Hrun as [[_ E] | (_ & _ & r & b & mid & id & H)].
    + rewrite E. exact Hrec.
    + destruct H as (_ & _ & Hin & Hid & _ & _ & _ & _ & _ & _ & Eb & Em & _).
      eapply reconciled_ship; eauto.
      apply has_batch_In. exists b. auto.
  - (* sell_to_consumer *)
    destruct (post_purchase now uuid retailer_id items wp_user_id payment_method
                            pos_transaction_id db) as [res db'] eqn:Hrun. cbn [snd].
    apply post_purchase_effect in Hrun.
    destruct Hrun as [[_ E] | (p & rows & mvs & H)].
    + rewrite E. exact Hrec.
    + destruct H as (_ & _ & _ & _ & _ & Eb & _ & _ & Em & _ & Fm & Fq).
      eapply reconciled_sales; eauto.
      clear - Fm Fq. induction Fm as [|it m its ms Hm Fm IH]; constructor.
      * inversion Fq; subst. destruct Hm as (Hk & _ & Hb & _).
        rewrite Hb. tauto.
      * apply IH. inversion Fq; assumption.
  - (* trace *)
    unfold get_trace_batch.
    destruct (trace_batch_query batchNumber (db_tables db)); exact Hrec.
Qed.

Lemma reachable_reconciled db : reachable db -> reconciled (db_tables db).
Proof.
  induction 1 as [db (Eb & _ & Em & _) | op db _ IH].
  - split; [rewrite Eb | rewrite Em]; intros x [].
  - apply run_reconciled, IH.
Qed.

(** C5. In every state reached from an empty ledger by manufactures,
    shipments, purchases (and traces), replaying the movements of a batch
    in commit order, a manufacture adding its quantity, a shipment
    subtracting it and a sale leaving the sum alone, gives the
    quantity_available of the batch. *)
Theorem replay_reproduces_quantity_available (db : database) (b : product_batches_row) :
  reachable db ->
  In b (product_batches (db_tables db)) ->
  replay (pb_id b) (product_movements (db_tables db)) = pb_quantity_available b.
Proof.
  intros Hreach Hin. apply (proj1 (reachable_reconciled db Hreach) b Hin).
Qed.

Lemma ledger3_reachable : reachable ledger3.
Proof.
  unfold ledger3, ledger2, ledger1.
  repeat apply reachable_run. apply reachable_empty.
  repeat split.
Qed.

(** The third scenario: 1000 made, 200 shipped, 50 sold, 800 available. *)
Lemma replay_reproduces_quantity_available_witness :
  exists b, In b (product_batches (db_tables ledger3))
            /\ replay (pb_id b) (product_movements (db_tables ledger3)) = 800
            /\ pb_quantity_available b = 800.
Proof.
  eexists. split; [left; reflexivity|].
  split; [|reflexivity].
  rewrite (replay_reproduces_quantity_available ledger3 _ ledger3_reachable
             (or_introl eq_refl)).
  reflexivity.
Defined.

(** ** Runs that a handler cannot tell apart *)

Section NonInterference.

Variable R : tables -> tables -> Prop.

Lemma tx_ni_ret {A} (a : A) : tx_ni R (ret a).
Proof. intros db1 db2 H. split; [reflexivity | exact H]. Qed.

Lemma tx_ni_throw {A} (e : exn) : tx_ni R (@throw A e).
Proof. intros db1 db2 H. split; [reflexivity | exact H]. Qed.

Lemma tx_ni_bind {A B} (c : tx A) (k : A -> tx B) :
  tx_ni R c -> (forall a, tx_ni R (k a)) -> tx_ni R (bind c k).
Proof.
  intros Hc Hk db1 db2 H. unfold bind.
  destruct (Hc db1 db2 H) as [Ho Hd].
  destruct (c db1) as [[a1|e1] d1], (c db2) as [[a2|e2] d2];
    cbn in Ho, Hd; try discriminate Ho.
  - inversion Ho; subst. apply Hk, Hd.
  - inversion Ho; subst. split; [reflexivity | exact Hd].
Qed.

Lemma tx_ni_query {A} (q : tables -> A) :
  (forall t1 t2, R t1 t2 -> q t1 = q t2) -> tx_ni R (query q).
Proof.
  intros Hq db1 db2 H. unfold query; cbn. split; [|exact H].
  rewrite (Hq _ _ (proj2 H)). reflexivity.
Qed.

Lemma tx_ni_constraint name (ok : tables -> bool) :
  (forall t1 t2, R t1 t2 -> ok t1 = ok t2) -> tx_ni R (constraint name ok).
Proof.
  intros Hq db1 db2 H. unfold constraint. rewrite (Hq _ _ (proj2 H)).
  destruct (ok (db_tables db2)); split; first [reflexivity | exact H].
Qed.

Lemma tx_ni_check_row v : tx_ni R (check_row v).
Proof. destruct v; [apply tx_ni_throw | apply tx_ni_ret]. Qed.

Lemma tx_ni_store f :
  (forall t1 t2, R t1 t2 -> R (f t1) (f t2)) -> tx_ni R (store f).
Proof.
  intros Hf db1 db2 [Hs Ht]. unfold store; cbn. split; [reflexivity|].
  split; [exact Hs | apply Hf, Ht].
Qed.

Lemma tx_ni_nextval_product_batches_id : tx_ni R nextval_product_batches_id.
Proof.
  intros db1 db2 [Hs Ht]. unfold nextval_product_batches_id; cbn. rewrite Hs.
  split; [reflexivity|]. split; [reflexivity | exact Ht].
Qed.

Lemma tx_ni_nextval_retailer_inventory_id : tx_ni R nextval_retailer_inventory_id.
Proof.
  intros db1 db2 [Hs Ht]. unfold nextval_retailer_inventory_id; cbn. rewrite Hs.
  split; [reflexivity|]. split; [reflexivity | exact Ht].
Qed.

Lemma tx_ni_nextval_product_movements_id : tx_ni R nextval_product_movements_id.
Proof.
  intros db1 db2 [Hs Ht]. unfold nextval_product_movements_id; cbn. rewrite Hs.
  split; [reflexivity|]. split; [reflexivity | exact Ht].
Qed.

Lemma tx_ni_nextval_consumer_purchases_id : tx_ni R nextval_consumer_purchases_id.
Proof.
  intros db1 db2 [Hs Ht]. unfold nextval_consumer_purchases_id; cbn. rewrite Hs.
  split; [reflexivity|]. split; [reflexivity | exact Ht].
Qed.

Lemma tx_ni_nextval_purchase_items_id : tx_ni R nextval_purchase_items_id.
Proof.
  intros db1 db2 [Hs Ht]. unfold nextval_purchase_items_id; cbn. rewrite Hs.
  split; [reflexivity|]. split; [reflexivity | exact Ht].
Qed.

(** The catch block keeps two indistinguishable runs indistinguishable. *)
Lemma try_transaction_ni {T} (body : tx T) on_catch db1 db2 :
  tx_ni R body -> related R db1 db2 ->
  fst (try_transaction body on_catch db1) = fst (try_transaction body on_catch db2)
  /\ related R (snd (try_transaction body on_catch db1))
               (snd (try_transaction body on_catch db2)).
Proof.
  intros Hb H. unfold try_transaction.
  destruct (Hb db1 db2 H) as [Ho Hd].
  destruct (body db1) as [[a1|e1] d1], (body db2) as [[a2|e2] d2];
    cbn in Ho, Hd; try discriminate Ho; inversion Ho; subst; cbn.
  - split; [reflexivity | exact Hd].
  - split; [reflexivity|]. split; [exact (proj1 Hd) | exact (proj2 H)].
Qed.

End NonInterference.

(** Two related lists of rows under an UPDATE whose WHERE clause, SET
    clause and CHECKs respect the relation. *)
Lemma sql_update_related {row} (P : row -> row -> Prop) where_ set check :
  (forall r1 r2, P r1 r2 -> where_ r1 = where_ r2) ->
  (forall r1 r2, P r1 r2 -> check (set r1) = check (set r2)) ->
  (forall r1 r2, P r1 r2 -> P (set r1) (set r2)) ->
  forall l1 l2, Forall2 P l1 l2 ->
    match sql_update where_ set check l1, sql_update where_ set check l2 with
    | inl c1, inl c2 => c1 = c2
    | inr l1', inr l2' => Forall2 P l1' l2'
    | _, _ => False
    end.
Proof.
  intros Hw Hc Hs l1 l2 H. induction H as [|r1 r2 l1 l2 Hr Hl IH]; cbn.
  - constructor.
  - rewrite (Hw _ _ Hr). destruct (where_ r2).
    + rewrite (Hc _ _ Hr). destruct (check (set r2)); [reflexivity|].
      destruct (sql_update where_ set check l1), (sql_update where_ set check l2);
        try exact IH. constructor; [apply Hs, Hr | exact IH].
    + destruct (sql_update where_ set check l1), (sql_update where_ set check l2);
        try exact IH. constructor; [exact Hr | exact IH].
Qed.

Lemma Forall2_existsb {A} (P : A -> A -> Prop) (f : A -> bool) l1 l2 :
  (forall a b, P a b -> f a = f b) -> Forall2 P l1 l2 -> existsb f l1 = existsb f l2.
Proof.
  intros Hf H. induction H as [|a b l1 l2 Hab _ IH]; cbn; [reflexivity|].
  rewrite (Hf _ _ Hab), IH. reflexivity.
Qed.

Lemma Forall2_map_filter {A B} (P : A -> A -> Prop) (f : A -> bool) (g : A -> B) l1 l2 :
  (forall a b, P a b -> f a = f b) -> (forall a b, P a b -> g a = g b) ->
  Forall2 P l1 l2 -> map g (filter f l1) = map g (filter f l2).
Proof.
  intros Hf Hg H. induction H as [|a b l1 l2 Hab _ IH]; cbn; [reflexivity|].
  rewrite (Hf _ _ Hab). destruct (f b); cbn; rewrite ?(Hg _ _ Hab), IH; reflexivity.
Qed.

(** ** C10: the stored price of a position and a purchase *)

Ltac tx_ni_steps side_query side_store :=
  repeat
    first
      [ apply tx_ni_bind; [|intros ?]
      | apply tx_ni_ret
      | apply tx_ni_throw
      | apply tx_ni_check_row
      | apply tx_ni_nextval_product_batches_id
      | apply tx_ni_nextval_retailer_inventory_id
      | apply tx_ni_nextval_product_movements_id
      | apply tx_ni_nextval_consumer_purchases_id
      | apply tx_ni_nextval_purchase_items_id
      | apply tx_ni_constraint; side_query
      | apply tx_ni_query; side_query
      | apply tx_ni_store; side_store ].

Ltac price_blind_query :=
  let t1 := fresh "t" in
  let t2 := fresh "t" in
  intros t1 t2 (E1 & E2 & E3 & E4 & E5 & E6 & E7 & E8);
  cbv [has_batch has_product has_retailer has_purchase];
  rewrite ?E1, ?E2, ?E3, ?E4, ?E6, ?E7, ?E8; reflexivity.

Ltac price_blind_store :=
  let t1 := fresh "t" in
  let t2 := fresh "t" in
  intros t1 t2 (E1 & E2 & E3 & E4 & E5 & E6 & E7 & E8);
  unfold price_blind; cbn;
  rewrite ?E1, ?E2, ?E3, ?E4, ?E6, ?E7, ?E8;
  repeat split; first [assumption | reflexivity].

Lemma position_but_price_sell now quantity r1 r2 :
  position_but_price r1 r2 ->
  position_but_price (sell now quantity r1) (sell now quantity r2)
  /\ retailer_inventory_check (sell now quantity r1)
     = retailer_inventory_check (sell now quantity r2).
Proof.
  intros (E & H1 & H2). unfold position_but_price, retailer_inventory_check.
  rewrite E. cbn.
  apply Z.ltb_lt in H1 as B1. apply Z.ltb_lt in H2 as B2. rewrite B1, B2.
  repeat split; assumption.
Qed.

Lemma position_but_price_key retailer_id product_id batch_id r1 r2 :
  position_but_price r1 r2 ->
  same_position retailer_id product_id batch_id r1
  = same_position retailer_id product_id batch_id r2.
Proof.
  intros (E & _ & _). rewrite E. reflexivity.
Qed.

Lemma price_blind_sell now retailer_id product_id batch_id quantity :
  tx_ni price_blind
    (update_retailer_inventory (same_position retailer_id product_id batch_id)
                               (sell now quantity)).
Proof.
  intros db1 db2 [Hs (E1 & E2 & E3 & E4 & E5 & E6 & E7 & E8)].
  unfold update_retailer_inventory.
  pose proof (sql_update_related position_but_price
                (same_position retailer_id product_id batch_id)
                (sell now quantity) retailer_inventory_check
                (position_but_price_key _ _ _)
                (fun r1 r2 H => proj2 (position_but_price_sell now quantity r1 r2 H))
                (fun r1 r2 H => proj1 (position_but_price_sell now quantity r1 r2 H))
                _ _ E5) as U.
  destruct (sql_update _ _ _ (retailer_inventory (db_tables db1))) as [c1|l1],
           (sql_update _ _ _ (retailer_inventory (db_tables db2))) as [c2|l2];
    try contradiction.
  - subst c2. cbn. split; [reflexivity|]. split; [exact Hs|].
    unfold price_blind. auto 10.
  - cbn. split; [reflexivity|]. split; [exact Hs|].
    unfold price_blind. cbn. auto 10.
Qed.

Lemma price_blind_process_items now retailer_id wp_user_id purchaseId items :
  tx_ni price_blind (process_items now retailer_id wp_user_id purchaseId items).
Proof.
  induction items as [|it rest IH]; cbn [process_items].
  - apply tx_ni_ret.
  - apply tx_ni_bind; [|intros _; exact IH].
    unfold process_item, insert_purchase_items, insert_product_movements.
    apply tx_ni_bind; [|intros _; apply tx_ni_bind; [apply price_blind_sell|intros _]];
      tx_ni_steps price_blind_query price_blind_store.
Qed.

Lemma price_blind_purchase_body now uuid retailer_id items wp_user_id
    payment_method pos_transaction_id :
  tx_ni price_blind
    (purchase_body now uuid retailer_id items wp_user_id payment_method
                   pos_transaction_id).
Proof.
  unfold purchase_body, insert_consumer_purchases.
  apply tx_ni_bind.
  - tx_ni_steps price_blind_query price_blind_store.
  - intros purchase. apply tx_ni_bind; [apply price_blind_process_items|].
    intros _. apply tx_ni_ret.
Qed.

(** C10. Two purchases with the same request, on ledgers that differ only
    in the prices stored on inventory positions, give the same response and
    the same purchase, purchase-item and movement rows, and leave ledgers
    that again differ only in those prices.  When the purchase succeeds,
    its total_amount is the sum of quantity * unit_price over the items of
    the request, and each purchase-item row and sale movement carries the
    unit_price of its item. *)
Theorem purchase_ignores_stored_price
    (now uuid retailer_id : Z) (items : list item) (wp_user_id : option Z)
    (payment_method pos_transaction_id : option string) (db1 db2 : database) :
  db_seqs db1 = db_seqs db2 ->
  price_blind (db_tables db1) (db_tables db2) ->
  let run1 := post_purchase now uuid retailer_id items wp_user_id payment_method
                            pos_transaction_id db1 in
  let run2 := post_purchase now uuid retailer_id items wp_user_id payment_method
                            pos_transaction_id db2 in
  fst run1 = fst run2
  /\ db_seqs (snd run1) = db_seqs (snd run2)
  /\ price_blind (db_tables (snd run1)) (db_tables (snd run2))
  /\ (status (fst run1) = 200 ->
      exists purchase rows movements,
        consumer_purchases (db_tables (snd run1))
        = consumer_purchases (db_tables db1) ++ [purchase]
        /\ cp_total_amount purchase = total_amount items
        /\ purchase_items (db_tables (snd run1))
           = purchase_items (db_tables db1) ++ rows
        /\ Forall2 (item_row (cp_id purchase)) items rows
        /\ product_movements (db_tables (snd run1))
           = product_movements (db_tables db1) ++ movements
        /\ Forall2 (item_movement now retailer_id wp_user_id) items movements).
Proof.
  intros Hs Ht run1 run2.
  destruct (try_transaction_ni price_blind
              (purchase_body now uuid retailer_id items wp_user_id payment_method
                             pos_transaction_id)
              (fun _ => {| status := 500;
                           body := ErrorBody "Failed to process purchase" |})
              db1 db2 (price_blind_purchase_body _ _ _ _ _ _ _) (conj Hs Ht))
    as [Hres [Hseq Hrel]].
  fold (post_purchase now uuid retailer_id items wp_user_id payment_method
                      pos_transaction_id) in Hres, Hseq, Hrel.
  split; [exact Hres|]. split; [exact Hseq|]. split; [exact Hrel|].
  intros Hok. subst run1.
  destruct (post_purchase now uuid retailer_id items wp_user_id payment_method
                          pos_transaction_id db1) as [res db'] eqn:Hrun.
  apply post_purchase_effect in Hrun. cbn [fst snd] in *.
  destruct Hrun as [[-> _] | (p & rows & mvs & H)]; [discriminate Hok|].
  destruct H as (_ & Hp & _ & _ & _ & _ & Ec & Er & Em & Fr & Fm & _).
  exists p, rows, mvs. rewrite Hp at 2. cbn. auto 10.
Qed.

Lemma purchase_ignores_stored_price_witness :
  fst (post_purchase 1704240000 9001 1 [item_50] None None None ledger2)
  = fst (post_purchase 1704240000 9001 1 [item_50] None None None ledger2_repriced)
  /\ status (fst (post_purchase 1704240000 9001 1 [item_50] None None None ledger2))
     = 200.
Proof.
  split; [|reflexivity].
  apply (purchase_ignores_stored_price 1704240000 9001 1 [item_50] None None None
           ledger2 ledger2_repriced).
  - reflexivity.
  - unfold price_blind. repeat split; try reflexivity.
    vm_compute. constructor; [|constructor].
    repeat split; reflexivity.
Defined.

(** ** C6: the expiry date of a batch and a shipment *)

Lemma batch_but_expiry_ship_out quantity b1 b2 :
  batch_but_expiry b1 b2 ->
  batch_but_expiry (ship_out quantity b1) (ship_out quantity b2)
  /\ product_batches_check (ship_out quantity b1)
     = product_batches_check (ship_out quantity b2).
Proof.
  intros (E & H1 & H2). unfold batch_but_expiry, product_batches_check.
  assert (Em : pb_manufacture_date b2 = pb_manufacture_date b1)
    by (rewrite E; reflexivity).
  rewrite E. cbn. rewrite Em in H2.
  apply Z.ltb_lt in H1 as B1. apply Z.ltb_lt in H2 as B2. rewrite B1, B2.
  repeat split; assumption.
Qed.

Lemma batch_but_expiry_id id b1 b2 :
  batch_but_expiry b1 b2 -> (pb_id b1 =? id) = (pb_id b2 =? id).
Proof.
  intros (E & _ & _). rewrite E. reflexivity.
Qed.

Lemma expiry_blind_has_batch id t1 t2 :
  expiry_blind t1 t2 -> has_batch id t1 = has_batch id t2.
Proof.
  intros (_ & _ & _ & E4 & _). unfold has_batch.
  apply (Forall2_existsb batch_but_expiry); [|exact E4].
  intros a b (E & _ & _). rewrite E. reflexivity.
Qed.

Ltac expiry_blind_query :=
  first
    [ apply expiry_blind_has_batch
    | let t1 := fresh "t" in
      let t2 := fresh "t" in
      intros t1 t2 (E1 & E2 & E3 & E4 & E5 & E6 & E7 & E8);
      cbv [has_product has_retailer has_purchase];
      rewrite ?E1, ?E2, ?E3, ?E5, ?E6, ?E7, ?E8; reflexivity ].

Ltac expiry_blind_store :=
  let t1 := fresh "t" in
  let t2 := fresh "t" in
  intros t1 t2 (E1 & E2 & E3 & E4 & E5 & E6 & E7 & E8);
  unfold expiry_blind; cbn;
  rewrite ?E1, ?E2, ?E3, ?E5, ?E6, ?E7, ?E8;
  repeat split; first [assumption | reflexivity].

Lemma expiry_blind_update_batch_availability quantity batch_id :
  tx_ni expiry_blind (update_batch_availability quantity batch_id).
Proof.
  intros db1 db2 [Hs (E1 & E2 & E3 & E4 & E5 & E6 & E7 & E8)].
  unfold update_batch_availability.
  pose proof (sql_update_related batch_but_expiry
                (fun b => pb_id b =? batch_id) (ship_out quantity)
                product_batches_check
                (batch_but_expiry_id batch_id)
                (fun b1 b2 H => proj2 (batch_but_expiry_ship_out quantity b1 b2 H))
                (fun b1 b2 H => proj1 (batch_but_expiry_ship_out quantity b1 b2 H))
                _ _ E4) as U.
  destruct (sql_update _ _ _ (product_batches (db_tables db1))) as [c1|l1],
           (sql_update _ _ _ (product_batches (db_tables db2))) as [c2|l2];
    try contradiction.
  - subst c2. cbn. split; [reflexivity|]. split; [exact Hs|].
    unfold expiry_blind. auto 10.
  - cbn. split; [reflexivity|]. split; [exact Hs|].
    unfold expiry_blind. cbn. auto 10.
Qed.

Lemma expiry_blind_update_retailer_inventory where_ set :
  tx_ni expiry_blind (update_retailer_inventory where_ set).
Proof.
  intros db1 db2 [Hs (E1 & E2 & E3 & E4 & E5 & E6 & E7 & E8)].
  unfold update_retailer_inventory. rewrite E5.
  destruct (sql_update _ _ _ (retailer_inventory (db_tables db2))) as [c|l]; cbn.
  - split; [reflexivity|]. split; [exact Hs|]. unfold expiry_blind. auto 10.
  - split; [reflexivity|]. split; [exact Hs|]. unfold expiry_blind. cbn. auto 10.
Qed.

Lemma expiry_blind_inventory_add_body now req_user product_id batch_id quantity price :
  tx_ni expiry_blind
    (inventory_add_body now req_user product_id batch_id quantity price).
Proof.
  unfold inventory_add_body.
  apply tx_ni_bind; [apply tx_ni_query; expiry_blind_query|].
  intros [|retailer_row rest]; [apply tx_ni_throw|].
  apply tx_ni_bind.
  { apply tx_ni_query. intros t1 t2 (_ & _ & _ & E4 & _).
    apply (Forall2_map_filter batch_but_expiry); [| |exact E4];
      intros a b (E & _ & _); rewrite E; reflexivity. }
  intros [|quantity_available others]; [apply tx_ni_throw|].
  destruct (quantity_available <? quantity); [apply tx_ni_throw|].
  apply tx_ni_bind.
  { unfold upsert_retailer_inventory.
    apply tx_ni_bind; [apply tx_ni_nextval_retailer_inventory_id|]. intros id.
    apply tx_ni_bind; [apply tx_ni_check_row|]. intros _.
    apply tx_ni_bind; [apply tx_ni_query; expiry_blind_query|].
    intros [|]; [apply expiry_blind_update_retailer_inventory|].
    tx_ni_steps expiry_blind_query expiry_blind_store. }
  intros _. apply tx_ni_bind; [apply expiry_blind_update_batch_availability|].
  intros _. apply tx_ni_bind; [apply tx_ni_query; expiry_blind_query|].
  intros [|manufacturer_id others']; [apply tx_ni_throw|].
  unfold insert_product_movements.
  tx_ni_steps expiry_blind_query expiry_blind_store.
Qed.

(** C6 fails: on day 20100 the batch of the worked ledger,
    which expired on day 20089, is shipped from; the handler answers 200
    and the batch goes from 1000 to 800 available. *)
Lemma ship_from_expired_batch_succeeds :
  let now := 1736640000 in
  let result := post_inventory_add now retailer_user 1 1 200 500 ledger1 in
  current_date now = 20100
  /\ (exists b, product_batches (db_tables ledger1) = [b] /\ pb_id b = 1
                /\ batch_expired (current_date now) b)
  /\ fst result = {| status := 200; body := InventoryAdded |}
  /\ map pb_quantity_available (product_batches (db_tables ledger1)) = [1000]
  /\ map pb_quantity_available (product_batches (db_tables (snd result))) = [800].
Proof.
  cbv zeta. split; [reflexivity|]. split.
  - eexists. split; [reflexivity|]. split; reflexivity.
  - repeat split.
Qed.

(** C6. The outcome of a shipment request does not depend on the expiry
    dates of the batches: on two ledgers that differ only in expiry dates
    (each later than the manufacture date, as valid_dates has it) the
    handler gives the same response and leaves ledgers that again differ
    only in those dates.  Whether the batch is expired is not looked
    at. *)
Theorem ship_ignores_expiry_date
    (now : Z) (req_user : user) (product_id batch_id quantity price : Z)
    (db1 db2 : database) :
  db_seqs db1 = db_seqs db2 ->
  expiry_blind (db_tables db1) (db_tables db2) ->
  let run1 := post_inventory_add now req_user product_id batch_id quantity price db1 in
  let run2 := post_inventory_add now req_user product_id batch_id quantity price db2 in
  fst run1 = fst run2
  /\ db_seqs (snd run1) = db_seqs (snd run2)
  /\ expiry_blind (db_tables (snd run1)) (db_tables (snd run2)).
Proof.
  intros Hs Ht. cbv zeta. unfold post_inventory_add.
  destruct (negb (String.eqb (user_type req_user) "retailer")).
  - cbn. auto.
  - destruct (try_transaction_ni expiry_blind
                (inventory_add_body now req_user product_id batch_id quantity price)
                (fun error => {| status := 500; body := ErrorBody (error_message error) |})
                db1 db2 (expiry_blind_inventory_add_body _ _ _ _ _ _) (conj Hs Ht))
      as [Hres [Hseq Hrel]].
    auto.
Qed.

(** On day 19725 the batch of [ledger1] is in date and that of
    [ledger1_short_dated] is not; both shipments are accepted. *)
Lemma ship_ignores_expiry_date_witness :
  let now := 1704240000 in
  (exists b, In b (product_batches (db_tables ledger1_short_dated))
             /\ batch_expired (current_date now) b)
  /\ fst (post_inventory_add now retailer_user 1 1 200 500 ledger1)
     = fst (post_inventory_add now retailer_user 1 1 200 500 ledger1_short_dated)
  /\ status (fst (post_inventory_add now retailer_user 1 1 200 500 ledger1_short_dated))
     = 200.
Proof.
  cbv zeta. split; [|split; [|reflexivity]].
  - eexists. split; [left; reflexivity | reflexivity].
  - apply (ship_ignores_expiry_date 1704240000 retailer_user 1 1 200 500
             ledger1 ledger1_short_dated).
    + reflexivity.
    + unfold expiry_blind. repeat split; try reflexivity.
      vm_compute. constructor; [|constructor].
      repeat split; reflexivity.
Defined.

(** ** The executor of ORDER BY keeps the promise of the clause *)

Lemma insert_after_perm {A} (key : A -> Z) x l :
  Permutation (x :: l) (insert_after key x l).
Proof.
  induction l as [|y l IH]; cbn; [reflexivity|].
  destruct (key y <=? key x); [|reflexivity].
  rewrite perm_swap. constructor. exact IH.
Qed.

Lemma insert_after_sorted {A} (key : A -> Z) x l :
  StronglySorted (fun a b => key a <= key b) l ->
  StronglySorted (fun a b => key a <= key b) (insert_after key x l).
Proof.
  induction 1 as [|y l Hs IH Hy]; cbn.
  - constructor; constructor.
  - destruct (Z.leb_spec (key y) (key x)) as [Hle|Hlt].
    + constructor; [exact IH|].
      apply (Permutation_Forall (insert_after_perm key x l)).
      constructor; assumption.
    + constructor; [constructor; assumption|].
      constructor; [lia|].
      eapply Forall_impl; [|exact Hy]. cbn. intros z Hz. lia.
Qed.

Lemma fold_insert_spec {A} (key : A -> Z) (ins : A -> list A -> list A) :
  (forall x l, Permutation (x :: l) (ins x l)) ->
  (forall x l, StronglySorted (fun a b => key a <= key b) l ->
               StronglySorted (fun a b => key a <= key b) (ins x l)) ->
  forall l acc,
    StronglySorted (fun a b => key a <= key b) acc ->
    Permutation (l ++ acc) (fold_left (fun acc x => ins x acc) l acc)
    /\ StronglySorted (fun a b => key a <= key b)
                      (fold_left (fun acc x => ins x acc) l acc).
Proof.
  intros Hp Hs. induction l as [|x l IH]; intros acc Hacc; cbn.
  - split; [reflexivity | exact Hacc].
  - destruct (IH (ins x acc) (Hs x acc Hacc)) as [P S]. split; [|exact S].
    rewrite <- P. rewrite <- (Hp x acc). apply Permutation_middle.
Qed.

Lemma order_by_stable_spec : order_by_spec order_by_stable.
Proof.
  intros A key l. unfold order_by_stable.
  destruct (fold_insert_spec key (insert_after key)
              (insert_after_perm key) (insert_after_sorted key) l [])
    as [P S]; [constructor|].
  rewrite app_nil_r in P. split; assumption.
Qed.

(** ** The trace of a batch *)

Lemma left_join_cases {T} (on : T -> bool) (right : list T) (o : option T) :
  In o (left_join on right) ->
  (exists r, o = Some r /\ In r right /\ on r = true)
  \/ (o = None /\ forall r, In r right -> on r = false).
Proof.
  unfold left_join. destruct (filter on right) as [|r0 rest] eqn:F; intros Hin.
  - destruct Hin as [<-|[]]. right. split; [reflexivity|].
    intros r Hr. destruct (on r) eqn:E; [|reflexivity].
    assert (In r []) as []. rewrite <- F. apply filter_In. auto.
  - apply in_map_iff in Hin. destruct Hin as (r & <- & Hr).
    rewrite <- F in Hr. apply filter_In in Hr. left. exists r. tauto.
Qed.

Lemma left_join_inhabited {T} (on : T -> bool) (right : list T) :
  exists o, In o (left_join on right).
Proof.
  unfold left_join. destruct (filter on right) as [|r0 rest].
  - exists None. left; reflexivity.
  - exists (Some r0). left; reflexivity.
Qed.

Lemma entity_label_rendered t ty id m r :
  In m (left_join (fun m => is_manufacturer ty && (id =? m_id m)) (manufacturers t)) ->
  In r (left_join (fun r => is_retailer ty && (id =? r_id r)) (retailers t)) ->
  rendered_party t ty id (entity_label ty id m r).
Proof.
  intros Hm Hr. apply left_join_cases in Hm, Hr. destruct ty; cbn in *.
  - destruct Hm as [(m0 & -> & Hin & E) | (-> & Hno)].
    + left. exists m0. apply Z.eqb_eq in E. auto.
    + right. split; [|reflexivity]. intros m0 Hin E.
      apply Hno in Hin. apply Z.eqb_neq in Hin. congruence.
  - destruct Hr as [(r0 & -> & Hin & E) | (-> & Hno)].
    + left. exists r0. apply Z.eqb_eq in E. auto.
    + right. split; [|reflexivity]. intros r0 Hin E.
      apply Hno in Hin. apply Z.eqb_neq in Hin. congruence.
  - reflexivity.
Qed.

Lemma history_join_parties_In t pm pb j :
  In j (history_join_parties t pm pb) ->
  hj_pm j = pm /\ hj_pb j = pb
  /\ rendered_party t (pm_from_entity_type pm) (pm_from_entity_id pm)
                    (from_entity (history_select j))
  /\ rendered_party t (pm_to_entity_type pm) (pm_to_entity_id pm)
                    (to_entity (history_select j)).
Proof.
  unfold history_join_parties. intros H.
  apply in_flat_map in H. destruct H as (m1 & Hm1 & H).
  apply in_flat_map in H. destruct H as (r1 & Hr1 & H).
  apply in_flat_map in H. destruct H as (m2 & Hm2 & H).
  apply in_map_iff in H. destruct H as (r2 & <- & Hr2). cbn.
  split; [reflexivity|]. split; [reflexivity|].
  split; apply entity_label_rendered; assumption.
Qed.

Lemma history_join_parties_inhabited t pm pb :
  exists j, In j (history_join_parties t pm pb).
Proof.
  unfold history_join_parties.
  destruct (left_join_inhabited
              (fun m => is_manufacturer (pm_from_entity_type pm)
                        && (pm_from_entity_id pm =? m_id m)) (manufacturers t))
    as (m1 & Hm1).
  destruct (left_join_inhabited
              (fun r => is_retailer (pm_from_entity_type pm)
                        && (pm_from_entity_id pm =? r_id r)) (retailers t))
    as (r1 & Hr1).
  destruct (left_join_inhabited
              (fun m => is_manufacturer (pm_to_entity_type pm)
                        && (pm_to_entity_id pm =? m_id m)) (manufacturers t))
    as (m2 & Hm2).
  destruct (left_join_inhabited
              (fun r => is_retailer (pm_to_entity_type pm)
                        && (pm_to_entity_id pm =? r_id r)) (retailers t))
    as (r2 & Hr2).
  eexists.
  apply in_flat_map. exists m1. split; [exact Hm1|].
  apply in_flat_map. exists r1. split; [exact Hr1|].
  apply in_flat_map. exists m2. split; [exact Hm2|].
  apply in_map_iff. exists r2. split; [reflexivity | exact Hr2].
Qed.

Lemma history_query_In order_by batch_uuid t h :
  order_by_spec order_by ->
  (In h (history_query order_by batch_uuid t) <->
   exists j, In j (history_from t) /\ pb_uuid (hj_pb j) = batch_uuid
             /\ h = history_select j).
Proof.
  intros Hord. unfold history_query. rewrite in_map_iff.
  destruct (Hord _ (fun j => pm_created_at (hj_pm j))
              (filter (fun j => pb_uuid (hj_pb j) =? batch_uuid) (history_from t)))
    as [P _].
  split.
  - intros (j & <- & Hj). apply (Permutation_in _ (Permutation_sym P)) in Hj.
    apply filter_In in Hj. destruct Hj as [Hj E]. apply Z.eqb_eq in E.
    exists j. auto.
  - intros (j & Hj & E & ->). exists j. split; [reflexivity|].
    apply (Permutation_in _ P). apply filter_In. split; [exact Hj|].
    apply Z.eqb_eq; exact E.
Qed.

(** The query of the function lists every movement of the batch whatever
    has become of the parties it names.  A consumer party is rendered
    "Consumer #id"; a manufacturer or retailer party is rendered by the
    name on its row, and by NULL when no row has its id any more. *)
Lemma history_query_keeps_movements (order_by : sorter) (t : tables)
    (pm : product_movements_row) (pb : product_batches_row) :
  order_by_spec order_by ->
  In pm (product_movements t) -> In pb (product_batches t) ->
  pm_batch_id pm = pb_id pb ->
  exists h, In h (history_query order_by (pb_uuid pb) t)
    /\ movement_date h = pm_created_at pm
    /\ movement_kind h = pm_movement_type pm
    /\ quantity_moved h = pm_quantity pm
    /\ notes h = pm_notes pm
    /\ rendered_party t (pm_from_entity_type pm) (pm_from_entity_id pm) (from_entity h)
    /\ rendered_party t (pm_to_entity_type pm) (pm_to_entity_id pm) (to_entity h).
Proof.
  intros Hord Hpm Hpb Hid.
  destruct (history_join_parties_inhabited t pm pb) as (j & Hj).
  destruct (history_join_parties_In t pm pb j Hj) as (Epm & Epb & Hfrom & Hto).
  exists (history_select j). split.
  - apply (history_query_In order_by (pb_uuid pb) t _ Hord).
    exists j. split; [|split; [rewrite Epb; reflexivity | reflexivity]].
    unfold history_from. apply in_flat_map. exists pm. split; [exact Hpm|].
    apply in_flat_map. exists pb. split; [|exact Hj].
    apply filter_In. split; [exact Hpb|]. apply Z.eqb_eq; exact Hid.
  - rewrite <- Epm at 1 2 3 4. repeat split; assumption.
Qed.

Lemma NoDup_map_In_eq {A} (f : A -> Z) (l : list A) a b :
  NoDup (map f l) -> In a l -> In b l -> f a = f b -> a = b.
Proof.
  induction l as [|x l IH]; cbn; intros Hnd Ha Hb E; [contradiction|].
  inversion Hnd as [|? ? Hnotin Hnd']; subst.
  destruct Ha as [<-|Ha], Hb as [<-|Hb]; auto.
  - exfalso. apply Hnotin. rewrite E. apply in_map, Hb.
  - exfalso. apply Hnotin. rewrite <- E. apply in_map, Ha.
Qed.

Lemma filter_key_NoDup {A} (key : A -> Z) (k : Z) (l : list A) :
  NoDup (map key l) ->
  filter (fun x => k =? key x) l
  = match find (fun x => k =? key x) l with
    | Some x => [x]
    | None => []
    end.
Proof.
  induction l as [|x l IH]; cbn; intros Hnd; [reflexivity|].
  inversion Hnd as [|? ? Hnotin Hnd']; subst.
  destruct (Z.eqb_spec k (key x)) as [E|E]; [|apply IH, Hnd'].
  f_equal. destruct (filter (fun y => k =? key y) l) as [|y rest] eqn:F; [reflexivity|].
  exfalso. apply filter_hd_In in F. destruct F as [Hy Ey]. apply Z.eqb_eq in Ey.
  apply Hnotin. rewrite <- E, Ey. apply in_map, Hy.
Qed.

Lemma left_join_key {A} (key : A -> Z) (c : bool) (k : Z) (l : list A) :
  NoDup (map key l) ->
  left_join (fun x => c && (k =? key x)) l
  = [if c then find (fun x => k =? key x) l else None].
Proof.
  intros Hnd. unfold left_join. destruct c; cbn [andb].
  - rewrite (filter_key_NoDup key k l Hnd).
    destruct (find (fun x => k =? key x) l); reflexivity.
  - replace (filter (fun _ => false) l) with (@nil A); [reflexivity|].
    clear Hnd. induction l; cbn; auto.
Qed.

Lemma history_join_parties_keys t pm pb :
  NoDup (map m_id (manufacturers t)) -> NoDup (map r_id (retailers t)) ->
  exists j, history_join_parties t pm pb = [j]
            /\ hj_pm j = pm /\ hj_pb j = pb
            /\ history_select j = movement_history_row t pm.
Proof.
  intros Hm Hr. unfold history_join_parties.
  rewrite !(left_join_key m_id _ _ _ Hm), !(left_join_key r_id _ _ _ Hr). cbn.
  eexists. split; [reflexivity|]. split; [reflexivity|]. split; [reflexivity|].
  unfold history_select, movement_history_row. cbn.
  destruct (pm_from_entity_type pm), (pm_to_entity_type pm); reflexivity.
Qed.

Lemma history_of_movement t b pm :
  schema_keys t -> In b (product_batches t) ->
  map history_select
      (filter (fun j => pb_uuid (hj_pb j) =? pb_uuid b)
              (flat_map (history_join_parties t pm)
                        (filter (fun pb => pm_batch_id pm =? pb_id pb)
                                (product_batches t))))
  = if pm_batch_id pm =? pb_id b then [movement_history_row t pm] else [].
Proof.
  intros (Hm & Hr & Hid & Huuid & _) Hb.
  rewrite (filter_key_NoDup pb_id (pm_batch_id pm) _ Hid).
  destruct (find (fun x => pm_batch_id pm =? pb_id x) (product_batches t))
    as [b'|] eqn:F.
  - apply find_some in F. destruct F as [Hb' E]. apply Z.eqb_eq in E.
    cbn [flat_map]. rewrite app_nil_r.
    destruct (history_join_parties_keys t pm b' Hm Hr) as (j & -> & _ & Epb & Esel).
    cbn [filter]. rewrite Epb.
    destruct (Z.eqb_spec (pm_batch_id pm) (pb_id b)) as [E'|E'].
    + assert (b' = b) as ->.
      { apply (NoDup_map_In_eq pb_id (product_batches t)); auto. congruence. }
      rewrite Z.eqb_refl. cbn. rewrite Esel. reflexivity.
    + destruct (Z.eqb_spec (pb_uuid b') (pb_uuid b)) as [U|U]; [|reflexivity].
      exfalso. apply E'. rewrite E. f_equal.
      apply (NoDup_map_In_eq pb_uuid (product_batches t)); auto.
  - cbn. destruct (Z.eqb_spec (pm_batch_id pm) (pb_id b)) as [E'|E']; [|reflexivity].
    exfalso. apply (find_none _ _ F) in Hb. apply Z.eqb_neq in Hb. contradiction.
Qed.

Lemma history_of_batch t b :
  schema_keys t -> In b (product_batches t) ->
  map history_select
      (filter (fun j => pb_uuid (hj_pb j) =? pb_uuid b) (history_from t))
  = map (movement_history_row t)
        (filter (fun pm => pm_batch_id pm =? pb_id b) (product_movements t)).
Proof.
  intros Hk Hb. unfold history_from.
  induction (product_movements t) as [|pm log IH]; [reflexivity|].
  cbn [flat_map filter]. rewrite filter_app, map_app, IH.
  rewrite (history_of_movement t b pm Hk Hb).
  destruct (pm_batch_id pm =? pb_id b); reflexivity.
Qed.

Lemma sorted_history order_by l :
  order_by_spec order_by ->
  StronglySorted (fun h1 h2 => movement_date h1 <= movement_date h2)
    (map history_select (order_by _ (fun j => pm_created_at (hj_pm j)) l)).
Proof.
  intros Hord. destruct (Hord _ (fun j => pm_created_at (hj_pm j)) l) as [_ S].
  induction S as [|j rest _ IH Hj]; cbn; constructor; [exact IH|].
  apply Forall_map. exact Hj.
Qed.

(** With the keys of the schema in force, the query of the function gives
    the movements of the batch, each once, in non-decreasing order of
    created_at; it names no second key. *)
Lemma history_query_sorted (order_by : sorter) (t : tables) (b : product_batches_row) :
  order_by_spec order_by -> schema_keys t -> In b (product_batches t) ->
  Permutation
    (map (movement_history_row t)
         (filter (fun pm => pm_batch_id pm =? pb_id b) (product_movements t)))
    (history_query order_by (pb_uuid b) t)
  /\ StronglySorted (fun h1 h2 => movement_date h1 <= movement_date h2)
                    (history_query order_by (pb_uuid b) t).
Proof.
  intros Hord Hkeys Hin. split.
  - rewrite <- (history_of_batch _ _ Hkeys Hin). unfold history_query.
    apply Permutation_map. apply Hord.
  - apply sorted_history, Hord.
Qed.

(** The function hands none of this over: the two CASE columns of its
    query are text, the columns it declares are VARCHAR, and RETURN QUERY
    raises on every call. *)
Lemma history_select_types_text :
  history_select_types = [TIMESTAMPTZ; VARCHAR; TEXT; TEXT; INTEGER; TEXT].
Proof. reflexivity. Qed.

Lemma get_batch_history_raises order_by batch_uuid t :
  get_batch_history order_by batch_uuid t
  = inl "structure of query does not match function result type".
Proof. reflexivity. Qed.

Lemma get_trace_batch_cases order_by batchNumber db :
  get_trace_batch order_by batchNumber db
  = (match trace_batch_query batchNumber (db_tables db) with
     | [] => {| status := 404; body := ErrorBody "Batch not found" |}
     | _ :: _ => {| status := 500; body := ErrorBody "Failed to trace batch" |}
     end, db).
Proof.
  unfold get_trace_batch. destruct (trace_batch_query _ _); reflexivity.
Qed.

Lemma trace_batch_query_In batchNumber t d :
  In d (trace_batch_query batchNumber t) ->
  In (bd_batch d) (product_batches t) /\ pb_batch_number (bd_batch d) = batchNumber.
Proof.
  unfold trace_batch_query. intros H.
  apply in_flat_map in H. destruct H as (pb & Hpb & H).
  apply in_flat_map in H. destruct H as (p & _ & H).
  apply in_map_iff in H. destruct H as (m & <- & _). cbn.
  apply filter_In in Hpb. destruct Hpb as [Hin E].
  apply String.eqb_eq in E. auto.
Qed.

Lemma trace_batch_query_found batchNumber t b :
  schema_keys t -> In b (product_batches t) -> pb_batch_number b = batchNumber ->
  trace_batch_query batchNumber t <> [].
Proof.
  intros (_ & _ & _ & _ & Hfp & Hfm) Hb E.
  destruct (Hfp b Hb) as (p & Hp & Ep). destruct (Hfm p Hp) as (m & Hm & Em).
  assert (In {| bd_batch := b; bd_product_name := p_product_name p;
                bd_sku := p_sku p; bd_manufacturer_name := m_company_name m |}
             (trace_batch_query batchNumber t)) as Hin.
  { unfold trace_batch_query.
    apply in_flat_map. exists b. split.
    { apply filter_In. split; [exact Hb|]. apply String.eqb_eq; exact E. }
    apply in_flat_map. exists p. split.
    { apply filter_In. split; [exact Hp|]. apply Z.eqb_eq; auto. }
    apply in_map_iff. exists m. split; [reflexivity|].
    apply filter_In. split; [exact Hm|]. apply Z.eqb_eq; auto. }
  intros Hnil. rewrite Hnil in Hin. exact Hin.
Qed.

Lemma trace_batch_query_missing batchNumber t :
  (forall b, In b (product_batches t) -> pb_batch_number b <> batchNumber) ->
  trace_batch_query batchNumber t = [].
Proof.
  intros Hno. destruct (trace_batch_query batchNumber t) as [|d rest] eqn:Q;
    [reflexivity|].
  exfalso. destruct (trace_batch_query_In batchNumber t d) as [Hin E].
  { rewrite Q. left; reflexivity. }
  exact (Hno _ Hin E).
Qed.

Lemma ledger3_schema_keys : schema_keys (db_tables ledger3).
Proof.
  unfold schema_keys. cbn.
  repeat split; try (repeat constructor; cbn; intuition discriminate).
  - intros b [<-|[]]. eexists. split; [left; reflexivity | reflexivity].
  - intros p [<-|[]]. eexists. split; [left; reflexivity | reflexivity].
Qed.

(** ** C7: what a trace returns *)

(** C7 fails on the fifth scenario: the batch made, shipped from and sold
    from has three movements, and its trace answers 500 "Failed to trace
    batch" with no movement at all. *)
Lemma trace_of_sold_batch_fails :
  reachable ledger3
  /\ map (fun b => (pb_id b, pb_batch_number b)) (product_batches (db_tables ledger3))
     = [ (1, "BATCH-TEST-001") ]
  /\ map (fun m => (pm_batch_id m, pm_movement_type m, pm_created_at m))
         (product_movements (db_tables ledger3))
     = [ (1, manufacture, 1704067200); (1, ship_to_retailer, 1704153600);
         (1, sale_to_consumer, 1704240000) ]
  /\ get_trace_batch order_by_stable "BATCH-TEST-001" ledger3
     = ({| status := 500; body := ErrorBody "Failed to trace batch" |}, ledger3).
Proof.
  split; [apply ledger3_reachable|].
  split; [reflexivity|]. split; reflexivity.
Qed.

(** C7. With the keys of the schema in force, a trace of a batch number
    that no batch carries answers 404 "Batch not found", and a trace of a
    number that some batch carries answers 500 "Failed to trace batch": the
    first query finds the batch, the call of get_batch_history raises, and
    no sequence of movements is returned, in any order.  The ledger is left
    as it was. *)
Theorem trace_of_existing_batch_fails
    (order_by : sorter) (batchNumber : string) (db : database) :
  schema_keys (db_tables db) ->
  ((forall b, In b (product_batches (db_tables db)) ->
              pb_batch_number b <> batchNumber) ->
   get_trace_batch order_by batchNumber db
   = ({| status := 404; body := ErrorBody "Batch not found" |}, db))
  /\ ((exists b, In b (product_batches (db_tables db))
                 /\ pb_batch_number b = batchNumber) ->
      get_trace_batch order_by batchNumber db
      = ({| status := 500; body := ErrorBody "Failed to trace batch" |}, db)).
Proof.
  intros Hkeys. rewrite get_trace_batch_cases. split.
  - intros Hno. rewrite (trace_batch_query_missing _ _ Hno). reflexivity.
  - intros (b & Hb & E).
    pose proof (trace_batch_query_found batchNumber _ b Hkeys Hb E) as Hne.
    destruct (trace_batch_query batchNumber (db_tables db)); [contradiction|].
    reflexivity.
Qed.

(** The fifth scenario: the batch that exists is not traced, a number
    that no batch carries is not found. *)
Lemma trace_of_existing_batch_fails_witness :
  get_trace_batch order_by_stable "BATCH-TEST-001" ledger3
  = ({| status := 500; body := ErrorBody "Failed to trace batch" |}, ledger3)
  /\ get_trace_batch order_by_stable "BATCH-TEST-002" ledger3
     = ({| status := 404; body := ErrorBody "Batch not found" |}, ledger3).
Proof.
  destruct (trace_of_existing_batch_fails order_by_stable "BATCH-TEST-001" ledger3
              ledger3_schema_keys) as [_ Hfound].
  destruct (trace_of_existing_batch_fails order_by_stable "BATCH-TEST-002" ledger3
              ledger3_schema_keys) as [Hmissing _].
  split.
  - apply Hfound. eexists. split; [left; reflexivity | reflexivity].
  - apply Hmissing. intros b [<-|[]]. discriminate.
Defined.

(** ** C8: a party that is no longer there *)

Lemma ledger2_retailer_deleted_schema_keys :
  schema_keys (db_tables ledger2_retailer_deleted).
Proof.
  unfold schema_keys. cbn.
  repeat split; try (repeat constructor; cbn; intuition discriminate).
  - intros b [<-|[]]. eexists. split; [left; reflexivity | reflexivity].
  - intros p [<-|[]]. eexists. split; [left; reflexivity | reflexivity].
Qed.

(** C8 fails: the first retailer deleted after the shipment, the trace of
    the batch answers 500 "Failed to trace batch", as it did before the
    retailer was deleted. *)
Lemma trace_after_retailer_deleted_fails :
  delete_retailer 1 (db_tables ledger2) = Some (db_tables ledger2_retailer_deleted)
  /\ map (fun m => (pm_movement_type m, pm_to_entity_type m, pm_to_entity_id m))
         (product_movements (db_tables ledger2_retailer_deleted))
     = [ (manufacture, manufacturer, 1); (ship_to_retailer, retailer, 1) ]
  /\ map r_id (retailers (db_tables ledger2_retailer_deleted)) = [2]
  /\ get_trace_batch order_by_stable "BATCH-TEST-001" ledger2
     = ({| status := 500; body := ErrorBody "Failed to trace batch" |}, ledger2)
  /\ get_trace_batch order_by_stable "BATCH-TEST-001" ledger2_retailer_deleted
     = ({| status := 500; body := ErrorBody "Failed to trace batch" |},
        ledger2_retailer_deleted).
Proof.
  split; [reflexivity|]. split; [reflexivity|]. split; [reflexivity|].
  split; reflexivity.
Qed.

(** C8. A trace over a batch does not succeed, whatever has become of the
    parties its movements name: with the keys of the schema in force the
    first query finds the batch, the call of get_batch_history raises, and
    the handler answers 500 "Failed to trace batch".  The query inside the
    function, taken alone, keeps the movement, and it has no label made
    from the id of a manufacturer or retailer whose row is gone: that
    party is rendered NULL. *)
Theorem trace_fails_whatever_the_parties
    (order_by : sorter) (db : database)
    (pm : product_movements_row) (pb : product_batches_row) :
  order_by_spec order_by ->
  schema_keys (db_tables db) ->
  In pm (product_movements (db_tables db)) ->
  In pb (product_batches (db_tables db)) ->
  pm_batch_id pm = pb_id pb ->
  get_trace_batch order_by (pb_batch_number pb) db
  = ({| status := 500; body := ErrorBody "Failed to trace batch" |}, db)
  /\ exists h, In h (history_query order_by (pb_uuid pb) (db_tables db))
       /\ movement_date h = pm_created_at pm
       /\ movement_kind h = pm_movement_type pm
       /\ quantity_moved h = pm_quantity pm
       /\ notes h = pm_notes pm
       /\ rendered_party (db_tables db) (pm_from_entity_type pm) (pm_from_entity_id pm)
                         (from_entity h)
       /\ rendered_party (db_tables db) (pm_to_entity_type pm) (pm_to_entity_id pm)
                         (to_entity h).
Proof.
  intros Hord Hkeys Hpm Hpb Hid. split.
  - rewrite get_trace_batch_cases.
    pose proof (trace_batch_query_found _ _ pb Hkeys Hpb eq_refl) as Hne.
    destruct (trace_batch_query _ (db_tables db)); [contradiction|]. reflexivity.
  - exact (history_query_keeps_movements order_by _ pm pb Hord Hpm Hpb Hid).
Qed.

(** The shipment to the deleted retailer: the trace fails, and the query
    of the function has the shipment with a NULL receiver. *)
Lemma trace_fails_whatever_the_parties_witness :
  get_trace_batch order_by_stable "BATCH-TEST-001" ledger2_retailer_deleted
  = ({| status := 500; body := ErrorBody "Failed to trace batch" |},
     ledger2_retailer_deleted)
  /\ exists h,
       In h (history_query order_by_stable 7001 (db_tables ledger2_retailer_deleted))
       /\ movement_kind h = ship_to_retailer
       /\ quantity_moved h = 200
       /\ to_entity h = None.
Proof.
  edestruct (trace_fails_whatever_the_parties order_by_stable
               ledger2_retailer_deleted)
    as (Htrace & h & Hin & _ & Hk & Hq & _ & _ & Hto).
  - apply order_by_stable_spec.
  - apply ledger2_retailer_deleted_schema_keys.
  - right; left; reflexivity.
  - left; reflexivity.
  - reflexivity.
  - split; [exact Htrace|].
    exists h. split; [exact Hin|]. split; [exact Hk|]. split; [exact Hq|].
    cbn in Hto. destruct Hto as [(r & Hr & E & _) | [_ E]]; [|exact E].
    exfalso. destruct Hr as [<-|[]]. discriminate E.
Defined.

(** ** C2, C3: what a purchase checks of a line item *)

Lemma same_position_sell now quantity retailer_id product_id batch_id r :
  same_position retailer_id product_id batch_id (sell now quantity r)
  = same_position retailer_id product_id batch_id r.
Proof. reflexivity. Qed.

(** A purchase that goes through took no more of any existing position than
    it held, item by item. *)
Lemma process_items_within_stock now retailer_id wp_user_id purchaseId items :
  forall db u db',
  process_items now retailer_id wp_user_id purchaseId items db = (Returned u, db') ->
  forall it, In it items ->
  forall r, In r (retailer_inventory (db_tables db)) ->
    same_position retailer_id (item_product_id it) (item_batch_id it) r = true ->
    item_quantity it <= ri_quantity_in_stock r.
Proof.
  induction items as [|hd rest IH]; intros db u db' H it Hit r Hr Hkey;
    [destruct Hit|].
  cbn [process_items] in H.
  apply bind_returned in H. destruct H as (u1 & db1 & H1 & H).
  unfold process_item in H1.
  apply bind_returned in H1. destruct H1 as (u2 & db2 & Hpi & H1).
  apply bind_returned in H1. destruct H1 as (u3 & db3 & Hup & Hmv).
  apply insert_purchase_items_returned in Hpi. destruct Hpi as (T2 & Hq & _).
  apply update_retailer_inventory_returned in Hup. destruct Hup as (T3 & _ & Hchk).
  apply insert_product_movements_returned in Hmv. destruct Hmv as (T1 & _ & _ & _).
  rewrite T2 in T3, Hchk. cbn in T3, Hchk.
  destruct Hit as [<-|Hit].
  - specialize (Hchk r Hr Hkey). unfold retailer_inventory_check in Hchk. cbn in Hchk.
    destruct (Z.leb_spec 0 (ri_quantity_in_stock r - item_quantity hd)) as [Hle|Hlt];
      [lia | discriminate Hchk].
  - set (g := fun r0 =>
                if same_position retailer_id (item_product_id hd) (item_batch_id hd) r0
                then sell now (item_quantity hd) r0 else r0).
    assert (Hin1 : In (g r) (retailer_inventory (db_tables db1))).
    { rewrite T1, T3. cbn. apply in_map_iff. exists r. split; [reflexivity | exact Hr]. }
    assert (Hkey1 : same_position retailer_id (item_product_id it) (item_batch_id it)
                                  (g r) = true).
    { unfold g.
      destruct (same_position retailer_id (item_product_id hd) (item_batch_id hd) r);
        [|exact Hkey].
      rewrite same_position_sell. exact Hkey. }
    specialize (IH db1 u db' H it Hit (g r) Hin1 Hkey1).
    unfold g in IH.
    destruct (same_position retailer_id (item_product_id hd) (item_batch_id hd) r);
      cbn in IH; lia.
Qed.

(** What the purchase handler does enforce: it answers 200 only if every
    line item has a positive quantity that no existing position of its
    (retailer, product, batch) key falls short of; any other answer leaves
    the relations as they were. *)
Lemma post_purchase_guards now uuid retailer_id items wp_user_id payment_method
    pos_transaction_id db :
  let result := post_purchase now uuid retailer_id items wp_user_id payment_method
                              pos_transaction_id db in
  (status (fst result) = 200 ->
   forall it, In it items ->
     0 < item_quantity it
     /\ forall r, In r (retailer_inventory (db_tables db)) ->
          same_position retailer_id (item_product_id it) (item_batch_id it) r = true ->
          item_quantity it <= ri_quantity_in_stock r)
  /\ (status (fst result) <> 200 -> db_tables (snd result) = db_tables db).
Proof.
  cbv zeta. split.
  - intros Hok it Hit. unfold post_purchase, try_transaction in Hok.
    destruct (purchase_body now uuid retailer_id items wp_user_id payment_method
                            pos_transaction_id db) as [[res|e] db'] eqn:Hbody;
      [|discriminate Hok].
    unfold purchase_body in Hbody.
    apply bind_returned in Hbody. destruct Hbody as (purchase & db1 & Hp & Hbody).
    apply bind_returned in Hbody. destruct Hbody as (u & db2 & Hi & _).
    apply insert_consumer_purchases_returned in Hp. destruct Hp as (_ & T1 & _).
    split.
    + apply process_items_returned in Hi.
      destruct Hi as (_ & _ & _ & _ & _ & rows & mvs & _ & _ & _ & _ & Fq).
      rewrite Forall_forall in Fq. apply (Fq it Hit).
    + intros r Hr Hkey.
      apply (process_items_within_stock _ _ _ _ _ _ _ _ Hi it Hit r); [|exact Hkey].
      rewrite T1. exact Hr.
  - intros Hno.
    destruct (post_purchase now uuid retailer_id items wp_user_id payment_method
                            pos_transaction_id db) as [res db'] eqn:Hrun.
    apply post_purchase_effect in Hrun. cbn [fst snd] in *.
    destruct Hrun as [[_ E] | (p & rows & mvs & -> & _)]; [exact E|].
    exfalso. apply Hno. reflexivity.
Qed.

(** C3, at the failing input. The second retailer holds no position at all;
    a purchase of 5 units of batch 1 from it is answered 200 and committed:
    a purchase row, a purchase-item row and a sale movement out of that
    retailer are written, and no position is decremented.  (With a position
    in place the handler does refuse what C3 asks it to refuse, see
    [post_purchase_guards].) *)
Theorem purchase_without_position_commits :
  let result := post_purchase 1704240000 9001 2 [item_5_of_batch_1] None None None
                              ledger2 in
  (forall r, In r (retailer_inventory (db_tables ledger2)) ->
             same_position 2 (item_product_id item_5_of_batch_1)
                           (item_batch_id item_5_of_batch_1) r = false)
  /\ fst result = {| status := 200; body := PurchaseCompleted 1 9001 |}
  /\ retailer_inventory (db_tables (snd result))
     = retailer_inventory (db_tables ledger2)
  /\ map cp_retailer_id (consumer_purchases (db_tables (snd result))) = [2]
  /\ map pi_quantity (purchase_items (db_tables (snd result))) = [5]
  /\ exists sale,
       product_movements (db_tables (snd result))
       = product_movements (db_tables ledger2) ++ [sale]
       /\ item_movement 1704240000 2 None item_5_of_batch_1 sale.
Proof.
  cbv zeta. split.
  - intros r [<-|[]]. reflexivity.
  - split; [reflexivity|]. split; [reflexivity|]. split; [reflexivity|].
    split; [reflexivity|]. eexists. split; [reflexivity|].
    unfold item_movement. cbn. repeat split.
Qed.

(** C2, at the failing input. The first retailer holds 200 of batch 1 and
    nothing of batch 2; its purchase of 50 of batch 1 and 5 of batch 2 is
    answered 200 and committed whole: one purchase row, two purchase-item
    rows, the position of batch 1 down to 150, two sale movements.  (Every
    answer other than 200 does leave the relations untouched, and a
    non-positive quantity or one above an existing position's stock does
    bring such an answer, see [post_purchase_guards].) *)
Theorem purchase_with_unstocked_item_commits :
  let result := post_purchase 1704240000 9001 1 [item_50; item_5_of_batch_2]
                              None None None ledger2_second_batch in
  map (fun r => (ri_retailer_id r, ri_product_id r, ri_batch_id r,
                 ri_quantity_in_stock r))
      (retailer_inventory (db_tables ledger2_second_batch)) = [(1, 1, 1, 200)]
  /\ has_batch 2 (db_tables ledger2_second_batch) = true
  /\ fst result = {| status := 200; body := PurchaseCompleted 1 9001 |}
  /\ map (fun r => (ri_retailer_id r, ri_product_id r, ri_batch_id r,
                    ri_quantity_in_stock r))
         (retailer_inventory (db_tables (snd result))) = [(1, 1, 1, 150)]
  /\ map cp_total_amount (consumer_purchases (db_tables (snd result))) = [38500]
  /\ map (fun i => (pi_batch_id i, pi_quantity i))
         (purchase_items (db_tables (snd result))) = [(1, 50); (2, 5)]
  /\ map (fun m => (pm_movement_type m, pm_batch_id m, pm_quantity m))
         (product_movements (db_tables (snd result)))
     = map (fun m => (pm_movement_type m, pm_batch_id m, pm_quantity m))
           (product_movements (db_tables ledger2_second_batch))
       ++ [ (sale_to_consumer, 1, 50); (sale_to_consumer, 2, 5) ].
Proof.
  cbv zeta. repeat split.
Qed.

(** ** The keys of the schema hold in every reachable state *)

Lemma run_reference_tables op db :
  manufacturers (db_tables (snd (run op db))) = manufacturers (db_tables db)
  /\ products (db_tables (snd (run op db))) = products (db_tables db)
  /\ retailers (db_tables (snd (run op db))) = retailers (db_tables db).
Proof.
  destruct op; cbn [run].
  - destruct (post_products_batches now uuid req_user productId batch_number
                manufacture_date expiry_date quantity_produced lab_test_results db)
      as [res db'] eqn:Hrun. cbn [snd].
    destruct (Z.eq_dec (status res) 200) as [Hok|Hno].
    + destruct (post_products_batches_returned _ _ _ _ _ _ _ _ _ _ _ _ Hrun Hok)
        as (product & owner & batch & H). tauto.
    + rewrite (post_products_batches_failed _ _ _ _ _ _ _ _ _ _ _ _ Hrun Hno). auto.
  - destruct (post_inventory_add now req_user product_id batch_id quantity price db)
      as [res db'] eqn:Hrun. cbn [snd].
    apply post_inventory_add_effect in Hrun.
    destruct Hrun as [[_ ->] | (_ & _ & r & b & mid & id & H)]; [auto | tauto].
  - destruct (post_purchase now uuid retailer_id items wp_user_id payment_method
                            pos_transaction_id db) as [res db'] eqn:Hrun. cbn [snd].
    apply post_purchase_effect in Hrun.
    destruct Hrun as [[_ ->] | (p & rows & mvs & H)]; [auto | tauto].
  - unfold get_trace_batch.
    destruct (trace_batch_query batchNumber (db_tables db)); auto.
Qed.

Lemma NoDup_map_snoc {A} (f : A -> Z) (l : list A) (x : A) :
  NoDup (map f l) -> existsb (fun y => f y =? f x) l = false ->
  NoDup (map f (l ++ [x])).
Proof.
  intros Hnd Hfresh. rewrite map_app. cbn.
  apply NoDup_app; [exact Hnd | repeat constructor; intros [] |].
  intros k Hk [<-|[]]. apply in_map_iff in Hk. destruct Hk as (y & E & Hy).
  assert (existsb (fun y => f y =? f x) l = true) as Hc.
  { apply existsb_exists. exists y. split; [exact Hy | apply Z.eqb_eq; exact E]. }
  congruence.
Qed.

Lemma run_schema_keys op db :
  schema_keys (db_tables db) -> schema_keys (db_tables (snd (run op db))).
Proof.
  intros (Km & Kr & Kid & Kuuid & Fp & Fm).
  destruct (run_reference_tables op db) as (Em & Ep & Er).
  unfold schema_keys. rewrite Em, Ep, Er.
  split; [exact Km|]. split; [exact Kr|].
  cut (NoDup (map pb_id (product_batches (db_tables (snd (run op db)))))
       /\ NoDup (map pb_uuid (product_batches (db_tables (snd (run op db)))))
       /\ forall b, In b (product_batches (db_tables (snd (run op db)))) ->
                    exists p, In p (products (db_tables db)) /\ p_id p = pb_product_id b).
  { tauto. }
  clear Em Ep Er. destruct op; cbn [run].
  - destruct (post_products_batches now uuid req_user productId batch_number
                manufacture_date expiry_date quantity_produced lab_test_results db)
      as [res db'] eqn:Hrun. cbn [snd].
    destruct (Z.eq_dec (status res) 200) as [Hok|Hno].
    + destruct (post_products_batches_returned _ _ _ _ _ _ _ _ _ _ _ _ Hrun Hok)
        as (product & owner & batch & H).
      destruct H as (Hp & Hpid & _ & _ & _ & Eb & Ebp & _ & _ & _ & _ & _ & _
                     & Hfresh & Huuid & _).
      rewrite Eb. split; [|split].
      * apply NoDup_map_snoc; [exact Kid | exact Hfresh].
      * apply NoDup_map_snoc; [exact Kuuid | exact Huuid].
      * intros b Hb. apply in_app_or in Hb. destruct Hb as [Hb|[<-|[]]]; [auto|].
        exists product. split; [exact Hp | congruence].
    + rewrite (post_products_batches_failed _ _ _ _ _ _ _ _ _ _ _ _ Hrun Hno). auto.
  - destruct (post_inventory_add now req_user product_id batch_id quantity price db)
      as [res db'] eqn:Hrun. cbn [snd].
    apply post_inventory_add_effect in Hrun.
    destruct Hrun as [[_ ->] | (_ & _ & r & b & mid & id & H)]; [auto|].
    destruct H as (_ & _ & _ & _ & _ & _ & _ & _ & _ & _ & -> & _).
    rewrite !map_map.
    rewrite (map_ext _ pb_id), (map_ext (fun x => pb_uuid _) pb_uuid);
      try (intros a; destruct (pb_id a =? batch_id); reflexivity).
    split; [exact Kid|]. split; [exact Kuuid|].
    intros b' Hb'. apply in_map_iff in Hb'. destruct Hb' as (b0 & <- & Hb0).
    destruct (Fp b0 Hb0) as (p & Hp & E). exists p. split; [exact Hp|].
    destruct (pb_id b0 =? batch_id); exact E.
  - destruct (post_purchase now uuid retailer_id items wp_user_id payment_method
                            pos_transaction_id db) as [res db'] eqn:Hrun. cbn [snd].
    apply post_purchase_effect in Hrun.
    destruct Hrun as [[_ ->] | (p & rows & mvs & H)]; [auto|].
    destruct H as (_ & _ & _ & _ & _ & -> & _). auto.
  - unfold get_trace_batch.
    destruct (trace_batch_query batchNumber (db_tables db)); auto.
Qed.

Lemma reachable_schema_keys db :
  reachable db -> reference_keys (db_tables db) -> schema_keys (db_tables db).
Proof.
  induction 1 as [db (Eb & _) | op db _ IH]; intros (Km & Kr & Fm).
  - unfold schema_keys. rewrite Eb. cbn.
    repeat split; try assumption; try constructor. intros b [].
  - destruct (run_reference_tables op db) as (Em & Ep & Er).
    rewrite Em, Er, Ep in *. apply run_schema_keys, IH.
    repeat split; assumption.
Qed.

(** * Further properties of the handlers *)

(** ** Sequences only move forward, whatever a handler does *)

Lemma seqs_le_refl s : seqs_le s s.
Proof. unfold seqs_le. lia. Qed.

Lemma seqs_le_trans s1 s2 s3 : seqs_le s1 s2 -> seqs_le s2 s3 -> seqs_le s1 s3.
Proof. unfold seqs_le. lia. Qed.

Lemma tx_grows_ret {A} (a : A) : tx_grows (ret a).
Proof. intros db. apply seqs_le_refl. Qed.

Lemma tx_grows_throw {A} (e : exn) : tx_grows (@throw A e).
Proof. intros db. apply seqs_le_refl. Qed.

Lemma tx_grows_bind {A B} (c : tx A) (k : A -> tx B) :
  tx_grows c -> (forall a, tx_grows (k a)) -> tx_grows (bind c k).
Proof.
  intros Hc Hk db. unfold bind. specialize (Hc db).
  destruct (c db) as [[a|e] d]; cbn in *; [|exact Hc].
  eapply seqs_le_trans; [exact Hc | apply Hk].
Qed.

Lemma tx_grows_query {A} (q : tables -> A) : tx_grows (query q).
Proof. intros db. apply seqs_le_refl. Qed.

Lemma tx_grows_constraint name ok : tx_grows (constraint name ok).
Proof. intros db. unfold constraint. destruct (ok _); apply seqs_le_refl. Qed.

Lemma tx_grows_check_row v : tx_grows (check_row v).
Proof. destruct v; [apply tx_grows_throw | apply tx_grows_ret]. Qed.

Lemma tx_grows_store f : tx_grows (store f).
Proof. intros db. apply seqs_le_refl. Qed.

Lemma tx_grows_nextval_product_batches_id : tx_grows nextval_product_batches_id.
Proof. intros db. unfold seqs_le. cbn. lia. Qed.

Lemma tx_grows_nextval_retailer_inventory_id : tx_grows nextval_retailer_inventory_id.
Proof. intros db. unfold seqs_le. cbn. lia. Qed.

Lemma tx_grows_nextval_product_movements_id : tx_grows nextval_product_movements_id.
Proof. intros db. unfold seqs_le. cbn. lia. Qed.

Lemma tx_grows_nextval_consumer_purchases_id : tx_grows nextval_consumer_purchases_id.
Proof. intros db. unfold seqs_le. cbn. lia. Qed.

Lemma tx_grows_nextval_purchase_items_id : tx_grows nextval_purchase_items_id.
Proof. intros db. unfold seqs_le. cbn. lia. Qed.

Lemma tx_grows_update_batch_availability quantity batch_id :
  tx_grows (update_batch_availability quantity batch_id).
Proof.
  intros db. unfold update_batch_availability.
  destruct (sql_update _ _ _ _); apply seqs_le_refl.
Qed.

Lemma tx_grows_update_retailer_inventory where_ set :
  tx_grows (update_retailer_inventory where_ set).
Proof.
  intros db. unfold update_retailer_inventory.
  destruct (sql_update _ _ _ _); apply seqs_le_refl.
Qed.

Ltac tx_grows_steps :=
  repeat
    first
      [ apply tx_grows_bind; [|intros ?]
      | apply tx_grows_ret
      | apply tx_grows_throw
      | apply tx_grows_check_row
      | apply tx_grows_constraint
      | apply tx_grows_query
      | apply tx_grows_store
      | apply tx_grows_nextval_product_batches_id
      | apply tx_grows_nextval_retailer_inventory_id
      | apply tx_grows_nextval_product_movements_id
      | apply tx_grows_nextval_consumer_purchases_id
      | apply tx_grows_nextval_purchase_items_id
      | apply tx_grows_update_batch_availability
      | apply tx_grows_update_retailer_inventory
      | match goal with
        | |- tx_grows (match ?x with _ => _ end) => destruct x
        | |- tx_grows (if ?c then _ else _) => destruct c
        end ].

Lemma tx_grows_insert_product_movements now kind product_id batch_id fty fid tty tid
    quantity unit_price :
  tx_grows (insert_product_movements now kind product_id batch_id fty fid tty tid
                                     quantity unit_price).
Proof. unfold insert_product_movements. tx_grows_steps. Qed.

Lemma tx_grows_process_items now retailer_id wp_user_id purchaseId items :
  tx_grows (process_items now retailer_id wp_user_id purchaseId items).
Proof.
  induction items as [|it rest IH]; cbn [process_items]; [apply tx_grows_ret|].
  apply tx_grows_bind; [|intros _; exact IH].
  unfold process_item, insert_purchase_items.
  apply tx_grows_bind; [tx_grows_steps|]. intros _.
  apply tx_grows_bind; [tx_grows_steps|]. intros _.
  apply tx_grows_insert_product_movements.
Qed.

Lemma try_transaction_grows {T} (body : tx T) on_catch db :
  tx_grows body ->
  seqs_le (db_seqs db) (db_seqs (snd (try_transaction body on_catch db))).
Proof.
  intros Hb. specialize (Hb db). unfold try_transaction.
  destruct (body db) as [[a|e] d]; exact Hb.
Qed.

Lemma run_grows op db : seqs_le (db_seqs db) (db_seqs (snd (run op db))).
Proof.
  destruct op; cbn [run].
  - apply try_transaction_grows.
    unfold insert_product_batches. tx_grows_steps.
  - unfold post_inventory_add.
    destruct (negb _); [apply seqs_le_refl|].
    apply try_transaction_grows. unfold inventory_add_body, upsert_retailer_inventory.
    tx_grows_steps.
  - apply try_transaction_grows. unfold purchase_body, insert_consumer_purchases.
    apply tx_grows_bind; [tx_grows_steps|]. intros purchase.
    apply tx_grows_bind; [apply tx_grows_process_items|]. intros _.
    apply tx_grows_ret.
  - unfold get_trace_batch. destruct (trace_batch_query _ _); apply seqs_le_refl.
Qed.

(** ** Batch creation, case by case *)

Ltac tx_split H :=
  repeat
    (cbn [fst snd db_tables db_seqs] in H;
     match type of H with
     | context [if ?c then _ else _] => destruct c eqn:?
     | context [match ?x with [] => _ | _ :: _ => _ end] => destruct x eqn:?
     | context [match ?x with inl _ => _ | inr _ => _ end] => destruct x eqn:?
     | context [match ?x with Some _ => _ | None => _ end] => destruct x eqn:?
     end).

Lemma owns_product_join req_user productId t :
  owns_product req_user productId t <->
  flat_map (fun p =>
     flat_map (fun m =>
        if (p_manufacturer_id p =? m_id m) && (p_id p =? productId)
           && (m_wp_user_id m =? user_id req_user)
        then [p] else [])
       (manufacturers t))
    (products t) <> [].
Proof.
  split.
  - intros (p & m & Hp & Hpid & Hm & Hmid & Hwp) Hnil.
    assert (In p []) as []. rewrite <- Hnil.
    apply in_flat_map. exists p. split; [exact Hp|].
    apply in_flat_map. exists m. split; [exact Hm|].
    rewrite <- Hmid, Hpid, Hwp, !Z.eqb_refl. left; reflexivity.
  - intros Hne.
    destruct (flat_map _ (products t)) as [|p rest] eqn:J; [contradiction|].
    assert (Hin : In p (p :: rest)) by (left; reflexivity).
    rewrite <- J in Hin.
    apply in_flat_map in Hin. destruct Hin as (p0 & Hp & Hin).
    apply in_flat_map in Hin. destruct Hin as (m & Hm & Hin).
    destruct ((p_manufacturer_id p0 =? m_id m) && (p_id p0 =? productId)
              && (m_wp_user_id m =? user_id req_user)) eqn:Hon; [|destruct Hin].
    apply andb_prop in Hon. destruct Hon as [Hon Hwp].
    apply andb_prop in Hon. destruct Hon as [Hmid Hpid].
    apply Z.eqb_eq in Hwp, Hmid, Hpid.
    exists p0, m. auto.
Qed.

Lemma post_products_batches_exact now uuid req_user productId batch_number
    manufacture_date expiry_date quantity_produced lab_test_results db res db' :
  post_products_batches now uuid req_user productId batch_number manufacture_date
    expiry_date quantity_produced lab_test_results db = (res, db') ->
  status res = 200 ->
  owns_product req_user productId (db_tables db)
  /\ 0 < quantity_produced /\ manufacture_date < expiry_date
  /\ existsb (fun b => pb_uuid b =? uuid) (product_batches (db_tables db)) = false
  /\ existsb (fun b => (pb_product_id b =? productId)
                       && String.eqb (pb_batch_number b) batch_number)
             (product_batches (db_tables db)) = false
  /\ has_batch (product_batches_id_seq (db_seqs db)) (db_tables db) = false
  /\ exists manufacturer_id,
       db' = after_manufacture now uuid productId batch_number manufacture_date
               expiry_date quantity_produced lab_test_results manufacturer_id db.
Proof.
  intros H Hok.
  assert (Hown : owns_product req_user productId (db_tables db)).
  { apply owns_product_join. intros Hnil.
    unfold post_products_batches, try_transaction, bind, query in H.
    cbn [fst snd] in H. rewrite Hnil in H. cbn in H.
    inversion H; subst. discriminate Hok. }
  split; [exact Hown|].
  cbv [post_products_batches try_transaction insert_product_batches
       insert_product_movements bind constraint check_row
       nextval_product_batches_id nextval_product_movements_id
       store query ret throw rollback] in H.
  tx_split H; inversion H; subst res db'; try discriminate Hok;
    clear H Hok.
  all: match goal with
       | Hc : product_batches_check _ = None |- _ =>
           unfold product_batches_check in Hc; cbn in Hc;
           destruct (0 <? quantity_produced) eqn:E1; [|discriminate Hc];
           destruct (0 <=? quantity_produced); [|discriminate Hc];
           destruct (manufacture_date <? expiry_date) eqn:E2; [|discriminate Hc];
           apply Z.ltb_lt in E1, E2
       end.
  all: repeat match goal with
              | Hn : negb _ = true |- _ => apply negb_true_iff in Hn
              end.
  all: repeat split; try assumption.
  all: eexists; unfold after_manufacture, new_batch, new_movement; cbn; reflexivity.
Qed.

(** ** Statements that go through *)

Lemma bind_ok {A B} (c : tx A) (k : A -> tx B) db a db1 :
  c db = (Returned a, db1) -> bind c k db = k a db1.
Proof. intros H. unfold bind. rewrite H. reflexivity. Qed.

Lemma ids_below_fresh {A} (f : A -> Z) (n : Z) (l : list A) :
  Forall (fun x => f x < n) l -> existsb (fun x => f x =? n) l = false.
Proof.
  induction 1 as [|x l Hx _ IH]; cbn; [reflexivity|].
  rewrite IH. destruct (Z.eqb_spec (f x) n); [lia | reflexivity].
Qed.

Lemma insert_product_movements_ok now kind product_id batch_id fty fid tty tid
    quantity unit_price db :
  0 < quantity ->
  existsb (fun m => pm_id m =? product_movements_id_seq (db_seqs db))
          (product_movements (db_tables db)) = false ->
  has_product product_id (db_tables db) = true ->
  has_batch batch_id (db_tables db) = true ->
  insert_product_movements now kind product_id batch_id fty fid tty tid quantity
                           unit_price db
  = (Returned tt,
     {| db_tables :=
          set_product_movements
            (product_movements (db_tables db)
             ++ [new_movement now (product_movements_id_seq (db_seqs db)) kind
                              product_id batch_id fty fid tty tid quantity unit_price])
            (db_tables db);
        db_seqs :=
          {| product_batches_id_seq := product_batches_id_seq (db_seqs db);
             retailer_inventory_id_seq := retailer_inventory_id_seq (db_seqs db);
             product_movements_id_seq := product_movements_id_seq (db_seqs db) + 1;
             consumer_purchases_id_seq := consumer_purchases_id_seq (db_seqs db);
             purchase_items_id_seq := purchase_items_id_seq (db_seqs db) |} |}).
Proof.
  intros Hq Hpk Hp Hb.
  unfold insert_product_movements, bind, nextval_product_movements_id, check_row,
    constraint, store, product_movements_check.
  cbn [fst snd db_tables db_seqs pm_quantity].
  apply Z.ltb_lt in Hq. rewrite Hq. cbn [negb ret fst snd db_tables db_seqs].
  rewrite Hpk. cbn [negb fst snd db_tables db_seqs].
  rewrite Hp. cbn [fst snd db_tables db_seqs]. rewrite Hb. reflexivity.
Qed.

Lemma insert_product_batches_ok now uuid product_id batch_number manufacture_date
    expiry_date quantity_produced lab_test_results db :
  0 < quantity_produced -> manufacture_date < expiry_date ->
  has_batch (product_batches_id_seq (db_seqs db)) (db_tables db) = false ->
  existsb (fun b => pb_uuid b =? uuid) (product_batches (db_tables db)) = false ->
  existsb (fun b => (pb_product_id b =? product_id)
                    && String.eqb (pb_batch_number b) batch_number)
          (product_batches (db_tables db)) = false ->
  has_product product_id (db_tables db) = true ->
  let row := new_batch now (product_batches_id_seq (db_seqs db)) uuid product_id
                       batch_number manufacture_date expiry_date quantity_produced
                       lab_test_results in
  insert_product_batches now uuid product_id batch_number manufacture_date
    expiry_date quantity_produced quantity_produced
    (match lab_test_results with Some s => s | None => "{}" end) db
  = (Returned row,
     {| db_tables := set_product_batches (product_batches (db_tables db) ++ [row])
                                         (db_tables db);
        db_seqs :=
          {| product_batches_id_seq := product_batches_id_seq (db_seqs db) + 1;
             retailer_inventory_id_seq := retailer_inventory_id_seq (db_seqs db);
             product_movements_id_seq := product_movements_id_seq (db_seqs db);
             consumer_purchases_id_seq := consumer_purchases_id_seq (db_seqs db);
             purchase_items_id_seq := purchase_items_id_seq (db_seqs db) |} |}).
Proof.
  intros Hq Hd Hpk Hu Hn Hp. cbv zeta.
  unfold insert_product_batches, bind, nextval_product_batches_id, check_row,
    constraint, store, product_batches_check.
  cbn [fst snd db_tables db_seqs pb_quantity_produced pb_quantity_available
       pb_manufacture_date pb_expiry_date].
  assert (H0 : (0 <=? quantity_produced) = true) by (apply Z.leb_le; lia).
  apply Z.ltb_lt in Hq, Hd. rewrite Hq, H0, Hd.
  cbn [negb ret fst snd db_tables db_seqs].
  rewrite Hpk. cbn [negb fst snd db_tables db_seqs].
  rewrite Hu. cbn [negb fst snd db_tables db_seqs].
  rewrite Hn. cbn [negb fst snd db_tables db_seqs].
  rewrite Hp. reflexivity.
Qed.

Lemma post_products_batches_succeeds now uuid req_user productId batch_number
    manufacture_date expiry_date quantity_produced lab_test_results db :
  ledger_ok db ->
  owns_product req_user productId (db_tables db) ->
  0 < quantity_produced -> manufacture_date < expiry_date ->
  existsb (fun b => pb_uuid b =? uuid) (product_batches (db_tables db)) = false ->
  existsb (fun b => (pb_product_id b =? productId)
                    && String.eqb (pb_batch_number b) batch_number)
          (product_batches (db_tables db)) = false ->
  status (fst (post_products_batches now uuid req_user productId batch_number
                 manufacture_date expiry_date quantity_produced lab_test_results db))
  = 200.
Proof.
  intros (Kb & _ & _ & _ & Km & _) Hown Hq Hd Hu Hn.
  assert (Hp : has_product productId (db_tables db) = true).
  { destruct Hown as (p & m & Hp & Hpid & _). unfold has_product.
    apply existsb_exists. exists p. split; [exact Hp | apply Z.eqb_eq; exact Hpid]. }
  assert (Hpk : has_batch (product_batches_id_seq (db_seqs db)) (db_tables db) = false).
  { unfold has_batch. apply ids_below_fresh.
    eapply Forall_impl; [|exact Kb]. cbn. tauto. }
  assert (Hmk : existsb (fun m => pm_id m =? product_movements_id_seq (db_seqs db))
                        (product_movements (db_tables db)) = false).
  { apply ids_below_fresh. eapply Forall_impl; [|exact Km]. cbn. tauto. }
  apply owns_product_join in Hown.
  unfold post_products_batches, try_transaction.
  unfold bind at 1. unfold query at 1. cbn [fst snd].
  destruct (flat_map _ (products (db_tables db))) as [|product rest];
    [contradiction|].
  rewrite (bind_ok _ _ _ _ _
             (insert_product_batches_ok now uuid productId batch_number
                manufacture_date expiry_date quantity_produced lab_test_results db
                Hq Hd Hpk Hu Hn Hp)).
  erewrite bind_ok; [reflexivity|].
  apply insert_product_movements_ok.
  - exact Hq.
  - exact Hmk.
  - exact Hp.
  - unfold has_batch. cbn. rewrite existsb_app. cbn.
    rewrite Z.eqb_refl. apply orb_true_iff. right. reflexivity.
Qed.

(** ** Shipment, case by case *)

Lemma filter_find {A} (f : A -> bool) (l : list A) :
  find f l = hd_error (filter f l).
Proof.
  induction l as [|x l IH]; cbn; [reflexivity|].
  destruct (f x); [reflexivity | exact IH].
Qed.

Lemma sql_update_ok {row} (where_ : row -> bool) set check rows :
  (forall r, In r rows -> where_ r = true -> check (set r) = None) ->
  sql_update where_ set check rows
  = inr (map (fun r => if where_ r then set r else r) rows).
Proof.
  induction rows as [|r rest IH]; intros H; cbn; [reflexivity|].
  rewrite IH by (intros r0 Hr0; apply H; right; exact Hr0).
  destruct (where_ r) eqn:W; [|reflexivity].
  rewrite (H r (or_introl eq_refl) W). reflexivity.
Qed.

(** ** The CHECK constraints, spelled out *)

Lemma product_batches_check_None b :
  product_batches_check b = None <->
  0 < pb_quantity_produced b /\ 0 <= pb_quantity_available b
  /\ pb_manufacture_date b < pb_expiry_date b.
Proof.
  unfold product_batches_check.
  destruct (Z.ltb_spec 0 (pb_quantity_produced b));
    destruct (Z.leb_spec 0 (pb_quantity_available b));
    destruct (Z.ltb_spec (pb_manufacture_date b) (pb_expiry_date b));
    cbn [negb]; split; intros; try discriminate; try lia; reflexivity.
Qed.

Lemma retailer_inventory_check_None r :
  retailer_inventory_check r = None <->
  0 <= ri_quantity_in_stock r /\ 0 <= ri_quantity_reserved r /\ 0 < ri_price r
  /\ ri_quantity_reserved r <= ri_quantity_in_stock r.
Proof.
  unfold retailer_inventory_check.
  destruct (Z.leb_spec 0 (ri_quantity_in_stock r));
    destruct (Z.leb_spec 0 (ri_quantity_reserved r));
    destruct (Z.ltb_spec 0 (ri_price r));
    destruct (Z.leb_spec (ri_quantity_reserved r) (ri_quantity_in_stock r));
    cbn [negb]; split; intros; try discriminate; try lia; reflexivity.
Qed.

Lemma product_movements_check_None m :
  product_movements_check m = None <-> 0 < pm_quantity m.
Proof.
  unfold product_movements_check.
  destruct (Z.ltb_spec 0 (pm_quantity m)); cbn [negb]; split; intros;
    try discriminate; try lia; reflexivity.
Qed.

Lemma purchase_items_check_None i :
  purchase_items_check i = None <-> 0 < pi_quantity i.
Proof.
  unfold purchase_items_check.
  destruct (Z.ltb_spec 0 (pi_quantity i)); cbn [negb]; split; intros;
    try discriminate; try lia; reflexivity.
Qed.

Lemma post_inventory_add_exact now req_user product_id batch_id quantity price
    db res db' :
  post_inventory_add now req_user product_id batch_id quantity price db = (res, db') ->
  status res = 200 ->
  user_type req_user = "retailer"
  /\ 0 < quantity /\ 0 < price
  /\ exists retailer_row batch manufacturer_id,
       retailer_of req_user (db_tables db) = Some retailer_row
       /\ batch_of product_id batch_id (db_tables db) = Some batch
       /\ manufacturer_of product_id (db_tables db) = Some manufacturer_id
       /\ quantity <= pb_quantity_available batch
       /\ (forall b, In b (product_batches (db_tables db)) -> pb_id b = batch_id ->
                     product_batches_check (ship_out quantity b) = None)
       /\ (forall r, In r (retailer_inventory (db_tables db)) ->
             same_position (r_id retailer_row) product_id batch_id r = true ->
             retailer_inventory_check (restock now quantity price r) = None)
       /\ db' = after_shipment now (r_id retailer_row) product_id batch_id
                               quantity price manufacturer_id db.
Proof.
  intros H Hok. unfold post_inventory_add in H.
  destruct (String.eqb_spec (user_type req_user) "retailer") as [Hty|Hty];
    cbn [negb] in H; [|inversion H; subst; discriminate Hok].
  split; [exact Hty|].
  unfold retailer_of, batch_of, manufacturer_of. rewrite !filter_find.
  cbv [try_transaction inventory_add_body upsert_retailer_inventory
       update_batch_availability update_retailer_inventory
       insert_product_movements bind constraint check_row
       nextval_retailer_inventory_id nextval_product_movements_id
       store query ret throw rollback] in H.
  tx_split H; inversion H; subst res db'; try discriminate Hok; clear H Hok.
  all: repeat match goal with
              | Hu : sql_update _ _ _ _ = inr _ |- _ =>
                  apply sql_update_inr in Hu; destruct Hu as [-> ?]
              | Hn : negb _ = true |- _ => apply negb_true_iff in Hn
              | Hl : (_ <? _) = false |- _ => apply Z.ltb_ge in Hl
              end.
  all: match goal with
       | Hc : product_movements_check _ = None |- _ =>
           apply product_movements_check_None in Hc; cbn [pm_quantity] in Hc
       end.
  all: match goal with
       | Hc : retailer_inventory_check _ = None |- _ =>
           apply retailer_inventory_check_None in Hc;
           cbn [ri_quantity_in_stock ri_quantity_reserved ri_price] in Hc
       end.
  all: match goal with
       | Hb : match map pb_quantity_available ?l with [] => _ | _ :: _ => _ end = false |- _ =>
           destruct l as [|batch bs] eqn:Hbatch; [discriminate Hb|];
           cbn [map] in Hb
       end.
  all: cbn [products product_batches retailer_inventory product_movements retailers
            set_retailer_inventory set_product_batches set_product_movements
            product_movements_id_seq retailer_inventory_id_seq db_tables db_seqs] in *.
  all: match goal with
       | Hl : (_ <? _) = false |- _ => apply Z.ltb_ge in Hl
       end.
  all: match goal with
       | Hq : 0 <= _ /\ _ |- _ => destruct Hq as (_ & _ & Hprice & _)
       end.
  all: split; [assumption|]; split; [assumption|].
  all: match goal with
       | Hm : map p_manufacturer_id ?f = ?z :: ?zs |- _ =>
           destruct f as [|p0 ps] eqn:Hp0; [discriminate Hm|];
           cbn [map] in Hm; inversion Hm; subst z zs; clear Hm
       end.
  all: exists r, batch, (p_manufacturer_id p0).
  all: cbn [hd_error option_map].
  all: do 3 (split; [reflexivity|]).
  all: split; [assumption|].
  all: split; [intros b0 Hb0 Eb0;
               match goal with
               | Hall : forall r, In r (product_batches _) -> _ |- _ =>
                   apply (Hall b0 Hb0); apply Z.eqb_eq; exact Eb0
               end|].
  all: match goal with
       | He : existsb _ (retailer_inventory _) = _ |- _ =>
           split;
           [first [ assumption
                  | intros r0 Hr0 Kr0; exfalso;
                    apply not_true_iff_false in He; apply He;
                    apply existsb_exists; exists r0; split; assumption ]|];
           unfold after_shipment, restocked, new_movement, proposed_position;
           rewrite He; reflexivity
       end.
Qed.

Lemma update_retailer_inventory_ok where_ set db :
  (forall r, In r (retailer_inventory (db_tables db)) -> where_ r = true ->
             retailer_inventory_check (set r) = None) ->
  update_retailer_inventory where_ set db
  = (Returned tt,
     {| db_tables :=
          set_retailer_inventory
            (map (fun r => if where_ r then set r else r)
                 (retailer_inventory (db_tables db)))
            (db_tables db);
        db_seqs := db_seqs db |}).
Proof.
  intros H. unfold update_retailer_inventory.
  rewrite sql_update_ok; [reflexivity | exact H].
Qed.


Lemma find_In {A} (f : A -> bool) (l : list A) x :
  find f l = Some x -> In x l /\ f x = true.
Proof. apply find_some. Qed.

Lemma find_filter_cons {A} (f : A -> bool) (l : list A) x :
  find f l = Some x -> exists rest, filter f l = x :: rest.
Proof.
  rewrite filter_find. destruct (filter f l) as [|y rest]; [discriminate|].
  cbn. intros [= ->]. exists rest. reflexivity.
Qed.

Lemma has_batch_map f t rows :
  (forall b, pb_id (f b) = pb_id b) ->
  existsb (fun b => pb_id b =? rows) (map f (product_batches t))
  = has_batch rows t.
Proof.
  intros H. unfold has_batch. induction (product_batches t) as [|b l IH];
    cbn; [reflexivity|]. rewrite H, IH. reflexivity.
Qed.

(** ** The constraints of the ledger, statement by statement *)

Lemma ledger_ok_empty db : empty_ledger db -> ledger_ok db.
Proof.
  intros (Hb & Hr & Hm & Hc & Hi). unfold ledger_ok.
  rewrite Hb, Hr, Hm, Hc, Hi. cbn. repeat split; constructor.
Qed.

Lemma ledger_ok_seqs db s' :
  ledger_ok db -> seqs_le (db_seqs db) s' ->
  ledger_ok {| db_tables := db_tables db; db_seqs := s' |}.
Proof.
  intros (Kb & Kbn & Kr & Krn & Km & Kc & Ki) (S1 & S2 & S3 & S4 & S5).
  unfold ledger_ok. cbn [db_tables db_seqs].
  repeat apply conj; try assumption.
  - eapply Forall_impl; [|exact Kb]. cbn. intros b (? & ? & ?).
    repeat split; try assumption; lia.
  - eapply Forall_impl; [|exact Kr]. cbn. intros r (? & ? & ?).
    repeat split; try assumption; lia.
  - eapply Forall_impl; [|exact Km]. cbn. intros m (? & ? & ?).
    repeat split; try assumption; lia.
  - eapply Forall_impl; [|exact Kc]. cbn. intros; lia.
  - eapply Forall_impl; [|exact Ki]. cbn. intros; lia.
Qed.

Lemma ledger_ok_insert_batch db row :
  ledger_ok db ->
  product_batches_check row = None ->
  pb_id row < product_batches_id_seq (db_seqs db) ->
  has_batch (pb_id row) (db_tables db) = false ->
  has_product (pb_product_id row) (db_tables db) = true ->
  ledger_ok {| db_tables := set_product_batches
                              (product_batches (db_tables db) ++ [row]) (db_tables db);
               db_seqs := db_seqs db |}.
Proof.
  intros (Kb & Kbn & Kr & Krn & Km & Kc & Ki) Hc Hid Hfresh Hp.
  unfold ledger_ok.
  cbn [db_tables db_seqs product_batches retailer_inventory product_movements
       consumer_purchases purchase_items set_product_batches].
  repeat apply conj; try assumption.
  - apply Forall_app. split; [exact Kb|]. constructor; [|constructor]. auto.
  - apply NoDup_map_snoc; [exact Kbn | exact Hfresh].
  - eapply Forall_impl; [|exact Km]. cbn. intros m (? & ? & Hb).
    repeat split; try assumption.
    unfold has_batch in *. cbn [product_batches]. rewrite existsb_app, Hb. reflexivity.
Qed.

Lemma ledger_ok_update_batches db f :
  ledger_ok db ->
  (forall b, pb_id (f b) = pb_id b /\ pb_product_id (f b) = pb_product_id b) ->
  (forall b, In b (product_batches (db_tables db)) -> product_batches_check (f b) = None) ->
  ledger_ok {| db_tables := set_product_batches
                              (map f (product_batches (db_tables db))) (db_tables db);
               db_seqs := db_seqs db |}.
Proof.
  intros (Kb & Kbn & Kr & Krn & Km & Kc & Ki) Hf Hc.
  unfold ledger_ok.
  cbn [db_tables db_seqs product_batches retailer_inventory product_movements
       consumer_purchases purchase_items set_product_batches].
  repeat apply conj; try assumption.
  - apply Forall_map. apply Forall_forall. intros b Hb.
    pose proof (proj1 (Forall_forall _ _) Kb b Hb) as (_ & Hid & Hp).
    destruct (Hf b) as [-> ->]. repeat split; auto.
  - rewrite map_map. erewrite map_ext; [exact Kbn|]. intros b. apply Hf.
  - eapply Forall_impl; [|exact Km]. cbn. intros m (? & ? & Hb).
    repeat split; try assumption.
    unfold has_batch. cbn [product_batches]. rewrite has_batch_map; [exact Hb|].
    intros b. apply Hf.
Qed.

Lemma ledger_ok_update_positions db f :
  ledger_ok db ->
  (forall r, ri_id (f r) = ri_id r /\ position_key (f r) = position_key r
             /\ ri_quantity_reserved (f r) = ri_quantity_reserved r) ->
  (forall r, In r (retailer_inventory (db_tables db)) ->
             retailer_inventory_check (f r) = None) ->
  ledger_ok {| db_tables := set_retailer_inventory
                              (map f (retailer_inventory (db_tables db))) (db_tables db);
               db_seqs := db_seqs db |}.
Proof.
  intros (Kb & Kbn & Kr & Krn & Km & Kc & Ki) Hf Hc.
  unfold ledger_ok.
  cbn [db_tables db_seqs product_batches retailer_inventory product_movements
       consumer_purchases purchase_items set_retailer_inventory].
  repeat apply conj; try assumption.
  - apply Forall_map. apply Forall_forall. intros r Hr.
    pose proof (proj1 (Forall_forall _ _) Kr r Hr) as (_ & Hres & Hid).
    destruct (Hf r) as (-> & _ & ->). repeat split; auto.
  - rewrite map_map. erewrite map_ext; [exact Krn|]. intros r. apply Hf.
Qed.

Lemma ledger_ok_insert_position db row :
  ledger_ok db ->
  retailer_inventory_check row = None ->
  ri_quantity_reserved row = 0 ->
  ri_id row < retailer_inventory_id_seq (db_seqs db) ->
  existsb (same_position (ri_retailer_id row) (ri_product_id row) (ri_batch_id row))
          (retailer_inventory (db_tables db)) = false ->
  ledger_ok {| db_tables := set_retailer_inventory
                              (retailer_inventory (db_tables db) ++ [row]) (db_tables db);
               db_seqs := db_seqs db |}.
Proof.
  intros (Kb & Kbn & Kr & Krn & Km & Kc & Ki) Hc Hres Hid Hfresh.
  unfold ledger_ok.
  cbn [db_tables db_seqs product_batches retailer_inventory product_movements
       consumer_purchases purchase_items set_retailer_inventory].
  repeat apply conj; try assumption.
  - apply Forall_app. split; [exact Kr|]. constructor; [|constructor]. auto.
  - rewrite map_app. cbn [map]. apply NoDup_app.
    + exact Krn.
    + constructor; [intros []|constructor].
    + intros k Hk [<-|[]]. apply in_map_iff in Hk. destruct Hk as (r & Ek & Hr).
      apply not_true_iff_false in Hfresh. apply Hfresh.
      apply existsb_exists. exists r. split; [exact Hr|].
      unfold position_key in Ek. inversion Ek as [[E1 E2 E3]].
      unfold same_position. rewrite E1, E2, E3, !Z.eqb_refl. reflexivity.
Qed.

Lemma ledger_ok_insert_movement db row :
  ledger_ok db ->
  0 < pm_quantity row ->
  pm_id row < product_movements_id_seq (db_seqs db) ->
  has_batch (pm_batch_id row) (db_tables db) = true ->
  ledger_ok {| db_tables := set_product_movements
                              (product_movements (db_tables db) ++ [row]) (db_tables db);
               db_seqs := db_seqs db |}.
Proof.
  intros (Kb & Kbn & Kr & Krn & Km & Kc & Ki) Hq Hid Hb.
  unfold ledger_ok.
  cbn [db_tables db_seqs product_batches retailer_inventory product_movements
       consumer_purchases purchase_items set_product_movements].
  repeat apply conj; try assumption.
  apply Forall_app. split; [exact Km|]. constructor; [|constructor]. auto.
Qed.

Lemma ledger_ok_insert_purchase db row :
  ledger_ok db ->
  cp_id row < consumer_purchases_id_seq (db_seqs db) ->
  ledger_ok {| db_tables := set_consumer_purchases
                              (consumer_purchases (db_tables db) ++ [row]) (db_tables db);
               db_seqs := db_seqs db |}.
Proof.
  intros (Kb & Kbn & Kr & Krn & Km & Kc & Ki) Hid.
  unfold ledger_ok.
  cbn [db_tables db_seqs product_batches retailer_inventory product_movements
       consumer_purchases purchase_items set_consumer_purchases].
  repeat apply conj; try assumption.
  apply Forall_app. split; [exact Kc|]. constructor; [|constructor]. auto.
Qed.

Lemma ledger_ok_insert_item db row :
  ledger_ok db ->
  pi_id row < purchase_items_id_seq (db_seqs db) ->
  ledger_ok {| db_tables := set_purchase_items
                              (purchase_items (db_tables db) ++ [row]) (db_tables db);
               db_seqs := db_seqs db |}.
Proof.
  intros (Kb & Kbn & Kr & Krn & Km & Kc & Ki) Hid.
  unfold ledger_ok.
  cbn [db_tables db_seqs product_batches retailer_inventory product_movements
       consumer_purchases purchase_items set_purchase_items].
  repeat apply conj; try assumption.
  apply Forall_app. split; [exact Ki|]. constructor; [|constructor]. auto.
Qed.
(** ** Every statement and every handler keeps the constraints *)

Lemma tx_keeps_ret {A} (a : A) : tx_keeps (ret a).
Proof. intros db H. exact H. Qed.

Lemma tx_keeps_throw {A} e : tx_keeps (@throw A e).
Proof. intros db H. exact H. Qed.

Lemma tx_keeps_query {A} (q : tables -> A) : tx_keeps (query q).
Proof. intros db H. exact H. Qed.

Lemma tx_keeps_bind {A B} (c : tx A) (k : A -> tx B) :
  tx_keeps c -> (forall a, tx_keeps (k a)) -> tx_keeps (bind c k).
Proof.
  intros Hc Hk db H. unfold bind. specialize (Hc db H).
  destruct (c db) as [[a|e] d]; cbn [snd] in *; [apply Hk; exact Hc | exact Hc].
Qed.

Ltac seqs_le_solve := unfold seqs_le; cbn; lia.

Lemma tx_keeps_insert_product_batches now uuid product_id batch_number
    manufacture_date expiry_date quantity_produced quantity_available
    lab_test_results :
  tx_keeps (insert_product_batches now uuid product_id batch_number manufacture_date
              expiry_date quantity_produced quantity_available lab_test_results).
Proof.
  intros db Hok.
  destruct (insert_product_batches _ _ _ _ _ _ _ _ _ db) as [o d] eqn:H.
  cbv [insert_product_batches bind nextval_product_batches_id check_row constraint
       store ret throw] in H.
  tx_split H; inversion H; subst o d; clear H; cbn [snd];
    try (apply ledger_ok_seqs; [exact Hok | seqs_le_solve]).
  match goal with
  | |- ledger_ok {| db_tables := _; db_seqs := ?s |} =>
      apply (ledger_ok_insert_batch {| db_tables := db_tables db; db_seqs := s |})
  end.
  - apply ledger_ok_seqs; [exact Hok | seqs_le_solve].
  - assumption.
  - cbn. lia.
  - cbn [pb_id db_tables]. apply negb_true_iff. assumption.
  - assumption.
Qed.
Lemma tx_keeps_insert_product_movements now kind product_id batch_id fty fid tty tid
    quantity unit_price :
  tx_keeps (insert_product_movements now kind product_id batch_id fty fid tty tid
              quantity unit_price).
Proof.
  intros db Hok.
  destruct (insert_product_movements _ _ _ _ _ _ _ _ _ _ db) as [o d] eqn:H.
  cbv [insert_product_movements bind nextval_product_movements_id check_row
       constraint store ret throw] in H.
  tx_split H; inversion H; subst o d; clear H; cbn [snd];
    try (apply ledger_ok_seqs; [exact Hok | seqs_le_solve]).
  match goal with
  | |- ledger_ok {| db_tables := _; db_seqs := ?s |} =>
      apply (ledger_ok_insert_movement {| db_tables := db_tables db; db_seqs := s |})
  end.
  - apply ledger_ok_seqs; [exact Hok | seqs_le_solve].
  - match goal with
    | Hc : product_movements_check _ = None |- _ =>
        apply product_movements_check_None in Hc; exact Hc
    end.
  - cbn. lia.
  - assumption.
Qed.

Lemma tx_keeps_update_batch_availability quantity batch_id :
  tx_keeps (update_batch_availability quantity batch_id).
Proof.
  intros db Hok. unfold update_batch_availability.
  destruct (sql_update _ _ _ _) as [c|rows] eqn:H; cbn [snd]; [exact Hok|].
  apply sql_update_inr in H. destruct H as [-> Hc].
  unfold store. cbn [snd].
  apply (ledger_ok_update_batches db
           (fun b => if pb_id b =? batch_id then ship_out quantity b else b)).
  - exact Hok.
  - intros b. destruct (pb_id b =? batch_id); split; reflexivity.
  - intros b Hb. destruct (pb_id b =? batch_id) eqn:E; [apply Hc; assumption|].
    destruct Hok as (Kb & _).
    apply (proj1 (Forall_forall _ _) Kb b Hb).
Qed.

Lemma tx_keeps_update_retailer_inventory where_ set :
  (forall r, ri_id (set r) = ri_id r /\ position_key (set r) = position_key r
             /\ ri_quantity_reserved (set r) = ri_quantity_reserved r) ->
  tx_keeps (update_retailer_inventory where_ set).
Proof.
  intros Hset db Hok. unfold update_retailer_inventory.
  destruct (sql_update _ _ _ _) as [c|rows] eqn:H; cbn [snd]; [exact Hok|].
  apply sql_update_inr in H. destruct H as [-> Hc].
  unfold store. cbn [snd].
  apply (ledger_ok_update_positions db (fun r => if where_ r then set r else r)).
  - exact Hok.
  - intros r. destruct (where_ r); [apply Hset | repeat split].
  - intros r Hr. destruct (where_ r) eqn:E; [apply Hc; assumption|].
    destruct Hok as (_ & _ & Kr & _).
    apply (proj1 (Forall_forall _ _) Kr r Hr).
Qed.

Lemma tx_keeps_upsert_retailer_inventory now retailer_id product_id batch_id
    quantity price :
  tx_keeps (upsert_retailer_inventory now retailer_id product_id batch_id quantity
              price).
Proof.
  intros db Hok. unfold upsert_retailer_inventory.
  unfold bind at 1. unfold nextval_retailer_inventory_id at 1. cbn [fst snd].
  match goal with
  | |- ledger_ok (snd (bind _ _ ?d)) =>
      assert (Hok1 : ledger_ok d)
        by (apply ledger_ok_seqs; [exact Hok | seqs_le_solve]);
      set (db1 := d) in *
  end.
  unfold bind at 1. unfold check_row at 1.
  destruct (retailer_inventory_check _) as [c|] eqn:Hc; [exact Hok1|].
  cbn [ret fst snd].
  unfold bind at 1. unfold query at 1. cbn [fst snd].
  destruct (existsb _ _) eqn:Hconf.
  - apply tx_keeps_update_retailer_inventory; [|exact Hok1].
    intros r. repeat split.
  - unfold bind, constraint, store.
    repeat match goal with
           | |- context [if ?c then _ else _] =>
               destruct c eqn:?; cbn [fst snd]; try exact Hok1
           end.
    apply (ledger_ok_insert_position db1).
    + exact Hok1.
    + exact Hc.
    + reflexivity.
    + subst db1. cbn. lia.
    + exact Hconf.
Qed.

Lemma tx_keeps_insert_consumer_purchases now uuid wp_user_id retailer_id
    total payment_method pos_transaction_id items :
  tx_keeps (insert_consumer_purchases now uuid wp_user_id retailer_id total
              payment_method pos_transaction_id items).
Proof.
  intros db Hok.
  destruct (insert_consumer_purchases _ _ _ _ _ _ _ _ db) as [o d] eqn:H.
  cbv [insert_consumer_purchases bind nextval_consumer_purchases_id check_row
       constraint store ret throw] in H.
  tx_split H; inversion H; subst o d; clear H; cbn [snd];
    try (apply ledger_ok_seqs; [exact Hok | seqs_le_solve]).
  match goal with
  | |- ledger_ok {| db_tables := _; db_seqs := ?s |} =>
      apply (ledger_ok_insert_purchase {| db_tables := db_tables db; db_seqs := s |})
  end.
  - apply ledger_ok_seqs; [exact Hok | seqs_le_solve].
  - cbn. lia.
Qed.

Lemma tx_keeps_insert_purchase_items purchase_id product_id batch_id quantity
    unit_price total_price :
  tx_keeps (insert_purchase_items purchase_id product_id batch_id quantity
              unit_price total_price).
Proof.
  intros db Hok.
  destruct (insert_purchase_items _ _ _ _ _ _ db) as [o d] eqn:H.
  cbv [insert_purchase_items bind nextval_purchase_items_id check_row
       constraint store ret throw] in H.
  tx_split H; inversion H; subst o d; clear H; cbn [snd];
    try (apply ledger_ok_seqs; [exact Hok | seqs_le_solve]).
  match goal with
  | |- ledger_ok {| db_tables := _; db_seqs := ?s |} =>
      apply (ledger_ok_insert_item {| db_tables := db_tables db; db_seqs := s |})
  end.
  - apply ledger_ok_seqs; [exact Hok | seqs_le_solve].
  - cbn. lia.
Qed.

Lemma tx_keeps_process_items now retailer_id wp_user_id purchaseId items :
  tx_keeps (process_items now retailer_id wp_user_id purchaseId items).
Proof.
  induction items as [|it rest IH]; cbn [process_items].
  - apply tx_keeps_ret.
  - apply tx_keeps_bind; [|intros _; exact IH].
    unfold process_item.
    apply tx_keeps_bind; [apply tx_keeps_insert_purchase_items|]. intros _.
    apply tx_keeps_bind; [|intros _; apply tx_keeps_insert_product_movements].
    apply tx_keeps_update_retailer_inventory. intros r. repeat split.
Qed.

Lemma try_transaction_keeps {T} (body : tx T) on_catch db :
  tx_keeps body -> tx_grows body -> ledger_ok db ->
  ledger_ok (snd (try_transaction body on_catch db)).
Proof.
  intros Hk Hg Hok. specialize (Hk db Hok). specialize (Hg db).
  unfold try_transaction. destruct (body db) as [[a|e] d]; cbn [snd] in *.
  - exact Hk.
  - unfold rollback. apply ledger_ok_seqs; assumption.
Qed.

Lemma run_keeps op db : ledger_ok db -> ledger_ok (snd (run op db)).
Proof.
  intros Hok. destruct op; cbn [run].
  - apply try_transaction_keeps; [| |exact Hok].
    + apply tx_keeps_bind; [apply tx_keeps_query|]. intros [|product rest];
        [apply tx_keeps_ret|].
      apply tx_keeps_bind; [apply tx_keeps_insert_product_batches|]. intros batch.
      apply tx_keeps_bind; [apply tx_keeps_insert_product_movements|]. intros _.
      apply tx_keeps_ret.
    + unfold insert_product_batches. tx_grows_steps.
  - unfold post_inventory_add. destruct (negb _); [exact Hok|].
    apply try_transaction_keeps; [| |exact Hok].
    + unfold inventory_add_body.
      apply tx_keeps_bind; [apply tx_keeps_query|]. intros [|retailer_row rest];
        [apply tx_keeps_throw|].
      apply tx_keeps_bind; [apply tx_keeps_query|]. intros batchResult.
      destruct (match batchResult with [] => true | _ => _ end);
        [apply tx_keeps_throw|].
      apply tx_keeps_bind; [apply tx_keeps_upsert_retailer_inventory|]. intros _.
      apply tx_keeps_bind; [apply tx_keeps_update_batch_availability|]. intros _.
      apply tx_keeps_bind; [apply tx_keeps_query|]. intros [|manufacturer_id ms];
        [apply tx_keeps_throw|].
      apply tx_keeps_bind; [apply tx_keeps_insert_product_movements|]. intros _.
      apply tx_keeps_ret.
    + unfold inventory_add_body, upsert_retailer_inventory. tx_grows_steps.
  - apply try_transaction_keeps; [| |exact Hok].
    + unfold purchase_body.
      apply tx_keeps_bind; [apply tx_keeps_insert_consumer_purchases|].
      intros purchase.
      apply tx_keeps_bind; [apply tx_keeps_process_items|]. intros _.
      apply tx_keeps_ret.
    + unfold purchase_body, insert_consumer_purchases.
      apply tx_grows_bind; [tx_grows_steps|]. intros purchase.
      apply tx_grows_bind; [apply tx_grows_process_items|]. intros _.
      apply tx_grows_ret.
  - unfold get_trace_batch. destruct (trace_batch_query _ _); exact Hok.
Qed.

Lemma reachable_ledger_ok db : reachable db -> ledger_ok db.
Proof.
  induction 1 as [db He|op db _ IH];
    [apply ledger_ok_empty; exact He | apply run_keeps; exact IH].
Qed.
(** ** Sale, case by case *)

Lemma insert_consumer_purchases_ok now uuid wp_user_id retailer_id total
    payment_method pos_transaction_id items db :
  has_purchase (consumer_purchases_id_seq (db_seqs db)) (db_tables db) = false ->
  existsb (fun c => cp_uuid c =? uuid) (consumer_purchases (db_tables db)) = false ->
  has_retailer retailer_id (db_tables db) = true ->
  let row := {| cp_id := consumer_purchases_id_seq (db_seqs db);
                cp_uuid := uuid; cp_wp_user_id := wp_user_id;
                cp_retailer_id := retailer_id; cp_order_metadata := items;
                cp_purchase_date := now;
                cp_pos_transaction_id := pos_transaction_id;
                cp_payment_method := payment_method;
                cp_total_amount := total |} in
  insert_consumer_purchases now uuid wp_user_id retailer_id total payment_method
                            pos_transaction_id items db
  = (Returned row,
     {| db_tables := set_consumer_purchases
                       (consumer_purchases (db_tables db) ++ [row]) (db_tables db);
        db_seqs :=
          {| product_batches_id_seq := product_batches_id_seq (db_seqs db);
             retailer_inventory_id_seq := retailer_inventory_id_seq (db_seqs db);
             product_movements_id_seq := product_movements_id_seq (db_seqs db);
             consumer_purchases_id_seq := consumer_purchases_id_seq (db_seqs db) + 1;
             purchase_items_id_seq := purchase_items_id_seq (db_seqs db) |} |}).
Proof.
  intros Hpk Hu Hr. cbv zeta.
  unfold insert_consumer_purchases, bind, nextval_consumer_purchases_id,
    constraint, store.
  cbn [fst snd db_tables db_seqs].
  rewrite Hpk. cbn [negb fst snd db_tables db_seqs].
  rewrite Hu. cbn [negb fst snd db_tables db_seqs].
  rewrite Hr. reflexivity.
Qed.

Lemma insert_purchase_items_ok purchase_id it db :
  0 < item_quantity it ->
  existsb (fun i => pi_id i =? purchase_items_id_seq (db_seqs db))
          (purchase_items (db_tables db)) = false ->
  has_purchase purchase_id (db_tables db) = true ->
  has_product (item_product_id it) (db_tables db) = true ->
  has_batch (item_batch_id it) (db_tables db) = true ->
  insert_purchase_items purchase_id (item_product_id it) (item_batch_id it)
    (item_quantity it) (item_unit_price it)
    (item_quantity it * item_unit_price it) db
  = (Returned tt,
     {| db_tables := set_purchase_items
                       (purchase_items (db_tables db)
                        ++ [new_item_row (purchase_items_id_seq (db_seqs db))
                                         purchase_id it])
                       (db_tables db);
        db_seqs :=
          {| product_batches_id_seq := product_batches_id_seq (db_seqs db);
             retailer_inventory_id_seq := retailer_inventory_id_seq (db_seqs db);
             product_movements_id_seq := product_movements_id_seq (db_seqs db);
             consumer_purchases_id_seq := consumer_purchases_id_seq (db_seqs db);
             purchase_items_id_seq := purchase_items_id_seq (db_seqs db) + 1 |} |}).
Proof.
  intros Hq Hpk Hpu Hp Hb.
  unfold insert_purchase_items, bind, nextval_purchase_items_id, check_row,
    constraint, store.
  cbn [fst snd db_tables db_seqs].
  rewrite (proj2 (purchase_items_check_None _)) by exact Hq.
  cbn [ret fst snd db_tables db_seqs].
  rewrite Hpk. cbn [negb fst snd db_tables db_seqs].
  rewrite Hpu. cbn [fst snd db_tables db_seqs].
  rewrite Hp. cbn [fst snd db_tables db_seqs].
  rewrite Hb. reflexivity.
Qed.

Lemma sell_check now quantity r :
  retailer_inventory_check r = None -> ri_quantity_reserved r = 0 ->
  (retailer_inventory_check (sell now quantity r) = None
   <-> quantity <= ri_quantity_in_stock r).
Proof.
  intros Hc Hres. apply retailer_inventory_check_None in Hc.
  rewrite retailer_inventory_check_None.
  cbn [sell ri_quantity_in_stock ri_quantity_reserved ri_price]. lia.
Qed.

Lemma process_item_ok now retailer_id wp_user_id purchaseId it db :
  ledger_ok db ->
  sellable (db_tables db) it ->
  has_purchase purchaseId (db_tables db) = true ->
  (forall r, In r (retailer_inventory (db_tables db)) ->
             same_position retailer_id (item_product_id it) (item_batch_id it) r = true ->
             item_quantity it <= ri_quantity_in_stock r) ->
  process_item now retailer_id wp_user_id purchaseId it db
  = (Returned tt, after_item now retailer_id wp_user_id purchaseId db it).
Proof.
  intros (_ & _ & Kr & _ & Km & _ & Ki) (Hq & Hp & Hb) Hpu Hst.
  unfold process_item.
  erewrite bind_ok.
  2:{ apply insert_purchase_items_ok; try assumption.
      apply ids_below_fresh. exact Ki. }
  erewrite bind_ok.
  2:{ apply update_retailer_inventory_ok.
      cbn [db_tables retailer_inventory set_purchase_items].
      intros r Hr Hk.
      pose proof (proj1 (Forall_forall _ _) Kr r Hr) as (Hc & Hres & _).
      apply sell_check; auto. }
  rewrite insert_product_movements_ok; [reflexivity | exact Hq | | exact Hp | ].
  - cbn [db_tables db_seqs product_movements set_retailer_inventory
         set_purchase_items product_movements_id_seq].
    apply ids_below_fresh. eapply Forall_impl; [|exact Km]. cbn. tauto.
  - exact Hb.
Qed.

Lemma process_item_exact now retailer_id wp_user_id purchaseId it db u db' :
  process_item now retailer_id wp_user_id purchaseId it db = (Returned u, db') ->
  sellable (db_tables db) it
  /\ has_purchase purchaseId (db_tables db) = true
  /\ (forall r, In r (retailer_inventory (db_tables db)) ->
        same_position retailer_id (item_product_id it) (item_batch_id it) r = true ->
        retailer_inventory_check (sell now (item_quantity it) r) = None)
  /\ db' = after_item now retailer_id wp_user_id purchaseId db it.
Proof.
  intros H.
  cbv [process_item insert_purchase_items update_retailer_inventory
       insert_product_movements bind nextval_purchase_items_id
       nextval_product_movements_id check_row constraint store ret throw] in H.
  tx_split H; inversion H; subst u db'; clear H.
  repeat match goal with
         | Hu : sql_update _ _ _ _ = inr _ |- _ =>
             apply sql_update_inr in Hu; destruct Hu as [-> ?]
         | Hc : purchase_items_check _ = None |- _ =>
             apply purchase_items_check_None in Hc; cbn [pi_quantity] in Hc
         end.
  cbn [db_tables purchase_items retailer_inventory set_purchase_items] in *.
  unfold sellable. auto 10.
Qed.
Lemma tx_keeps_process_item now retailer_id wp_user_id purchaseId it :
  tx_keeps (process_item now retailer_id wp_user_id purchaseId it).
Proof.
  unfold process_item.
  apply tx_keeps_bind; [apply tx_keeps_insert_purchase_items|]. intros _.
  apply tx_keeps_bind; [|intros _; apply tx_keeps_insert_product_movements].
  apply tx_keeps_update_retailer_inventory. intros r. repeat split.
Qed.

Lemma demand_sell now quantity retailer_id r items :
  demand retailer_id (sell now quantity r) items = demand retailer_id r items.
Proof. reflexivity. Qed.

Lemma demand_nonneg retailer_id r t items :
  Forall (sellable t) items -> 0 <= demand retailer_id r items.
Proof.
  induction 1 as [|it rest (Hq & _) _ IH]; cbn [demand fold_right]; [lia|].
  fold (demand retailer_id r rest). destruct (same_position _ _ _ r); lia.
Qed.

Lemma process_items_ok now retailer_id wp_user_id purchaseId items :
  forall db,
  ledger_ok db ->
  Forall (sellable (db_tables db)) items ->
  has_purchase purchaseId (db_tables db) = true ->
  (forall r, In r (retailer_inventory (db_tables db)) ->
             demand retailer_id r items <= ri_quantity_in_stock r) ->
  process_items now retailer_id wp_user_id purchaseId items db
  = (Returned tt,
     fold_left (after_item now retailer_id wp_user_id purchaseId) items db).
Proof.
  induction items as [|it rest IH]; intros db Hok Hs Hpu Hd; [reflexivity|].
  inversion Hs as [|? ? Hit Hrest]; subst.
  cbn [process_items fold_left].
  assert (Hstep : process_item now retailer_id wp_user_id purchaseId it db
                  = (Returned tt, after_item now retailer_id wp_user_id purchaseId db it)).
  { apply process_item_ok; try assumption.
    intros r Hr Hk. specialize (Hd r Hr).
    cbn [demand fold_right] in Hd. fold (demand retailer_id r rest) in Hd.
    rewrite Hk in Hd.
    pose proof (demand_nonneg retailer_id r _ _ Hrest). lia. }
  rewrite (bind_ok _ _ _ _ _ Hstep).
  apply IH.
  - pose proof (tx_keeps_process_item now retailer_id wp_user_id purchaseId it db Hok)
      as Hk.
    rewrite Hstep in Hk. exact Hk.
  - exact Hrest.
  - exact Hpu.
  - cbn [after_item db_tables retailer_inventory set_product_movements
         set_retailer_inventory].
    intros r1 Hr1. apply in_map_iff in Hr1. destruct Hr1 as (r & <- & Hr).
    specialize (Hd r Hr).
    cbn [demand fold_right] in Hd. fold (demand retailer_id r rest) in Hd.
    destruct (same_position _ _ _ r); [|exact Hd].
    rewrite demand_sell. cbn [sell ri_quantity_in_stock]. lia.
Qed.

Lemma process_items_exact now retailer_id wp_user_id purchaseId items :
  forall db u db',
  ledger_ok db ->
  process_items now retailer_id wp_user_id purchaseId items db = (Returned u, db') ->
  Forall (sellable (db_tables db)) items
  /\ (forall r, In r (retailer_inventory (db_tables db)) ->
                demand retailer_id r items <= ri_quantity_in_stock r)
  /\ db' = fold_left (after_item now retailer_id wp_user_id purchaseId) items db.
Proof.
  induction items as [|it rest IH]; intros db u db' Hok H.
  - cbn in H. inversion H; subst. split; [constructor|].
    split; [|reflexivity]. intros r Hr. cbn.
    destruct Hok as (_ & _ & Kr & _).
    pose proof (proj1 (Forall_forall _ _) Kr r Hr) as (Hc & _).
    apply retailer_inventory_check_None in Hc. lia.
  - cbn [process_items] in H.
    apply bind_returned in H. destruct H as (u1 & db1 & H1 & H).
    pose proof (tx_keeps_process_item now retailer_id wp_user_id purchaseId it db Hok)
      as Hok1.
    rewrite H1 in Hok1. cbn [snd] in Hok1.
    apply process_item_exact in H1. destruct H1 as (Hit & Hpu & Hc & ->).
    destruct (IH _ _ _ Hok1 H) as (Hrest & Hd & ->).
    split; [constructor; [exact Hit | exact Hrest]|].
    split; [|reflexivity].
    intros r Hr. cbn [demand fold_right]. fold (demand retailer_id r rest).
    specialize (Hd (if same_position retailer_id (item_product_id it)
                                     (item_batch_id it) r
                    then sell now (item_quantity it) r else r)).
    cbn [after_item db_tables retailer_inventory set_product_movements
         set_retailer_inventory] in Hd.
    specialize (Hd (in_map _ _ _ Hr)).
    destruct (same_position _ _ _ r); [|exact Hd].
    rewrite demand_sell in Hd. cbn [sell ri_quantity_in_stock] in Hd. lia.
Qed.
Lemma post_purchase_succeeds now uuid retailer_id items wp_user_id payment_method
    pos_transaction_id db :
  ledger_ok db ->
  existsb (fun c => cp_uuid c =? uuid) (consumer_purchases (db_tables db)) = false ->
  has_retailer retailer_id (db_tables db) = true ->
  Forall (sellable (db_tables db)) items ->
  (forall r, In r (retailer_inventory (db_tables db)) ->
             demand retailer_id r items <= ri_quantity_in_stock r) ->
  post_purchase now uuid retailer_id items wp_user_id payment_method
                pos_transaction_id db
  = ({| status := 200;
        body := PurchaseCompleted (consumer_purchases_id_seq (db_seqs db)) uuid |},
     after_purchase now uuid retailer_id items wp_user_id payment_method
                    pos_transaction_id db).
Proof.
  intros Hok Hu Hr Hs Hd.
  assert (Hpk : has_purchase (consumer_purchases_id_seq (db_seqs db)) (db_tables db)
                = false).
  { unfold has_purchase. apply ids_below_fresh.
    destruct Hok as (_ & _ & _ & _ & _ & Kc & _). exact Kc. }
  pose proof (insert_consumer_purchases_ok now uuid wp_user_id retailer_id
                (total_amount items) payment_method pos_transaction_id items db
                Hpk Hu Hr) as Hins.
  cbv zeta in Hins.
  pose proof (tx_keeps_insert_consumer_purchases now uuid wp_user_id retailer_id
                (total_amount items) payment_method pos_transaction_id items db Hok)
    as Hok1.
  rewrite Hins in Hok1. cbn [snd] in Hok1.
  unfold post_purchase, try_transaction, purchase_body.
  rewrite (bind_ok _ _ _ _ _ Hins).
  erewrite bind_ok; [reflexivity|].
  cbn [cp_id]. apply process_items_ok.
  - exact Hok1.
  - exact Hs.
  - unfold has_purchase. cbn [db_tables consumer_purchases set_consumer_purchases].
    rewrite existsb_app. cbn. rewrite Z.eqb_refl. apply orb_true_iff. right. reflexivity.
  - exact Hd.
Qed.

Lemma post_purchase_exact now uuid retailer_id items wp_user_id payment_method
    pos_transaction_id db res db' :
  ledger_ok db ->
  post_purchase now uuid retailer_id items wp_user_id payment_method
                pos_transaction_id db = (res, db') ->
  status res = 200 ->
  existsb (fun c => cp_uuid c =? uuid) (consumer_purchases (db_tables db)) = false
  /\ has_retailer retailer_id (db_tables db) = true
  /\ Forall (sellable (db_tables db)) items
  /\ (forall r, In r (retailer_inventory (db_tables db)) ->
                demand retailer_id r items <= ri_quantity_in_stock r).
Proof.
  intros Hok H Hst. unfold post_purchase, try_transaction in H.
  destruct (purchase_body _ _ _ _ _ _ _ db) as [[r|e] d] eqn:Hb;
    inversion H; subst res db'; clear H; [|discriminate Hst].
  unfold purchase_body in Hb.
  apply bind_returned in Hb. destruct Hb as (purchase & db1 & Hins & Hb).
  apply bind_returned in Hb. destruct Hb as (u & db2 & Hitems & _).
  pose proof (tx_keeps_insert_consumer_purchases now uuid wp_user_id retailer_id
                (total_amount items) payment_method pos_transaction_id items db Hok)
    as Hok1.
  rewrite Hins in Hok1. cbn [snd] in Hok1.
  apply (process_items_exact _ _ _ _ _ _ _ _ Hok1) in Hitems.
  destruct Hitems as (Hs & Hd & _).
  cbv [insert_consumer_purchases bind nextval_consumer_purchases_id constraint
       store ret throw] in Hins.
  tx_split Hins; inversion Hins; subst purchase db1; clear Hins.
  repeat match goal with
         | Hn : negb _ = true |- _ => apply negb_true_iff in Hn
         end.
  auto.
Qed.
(** ** The books balance *)

Lemma shipped_app batch_id l1 l2 :
  shipped batch_id (l1 ++ l2) = shipped batch_id l1 + shipped batch_id l2.
Proof.
  induction l1 as [|m l1 IH]; cbn [app shipped fold_right]; [reflexivity|].
  fold (shipped batch_id (l1 ++ l2)). fold (shipped batch_id l1).
  rewrite IH. destruct (_ && _); lia.
Qed.

Lemma shipped_none batch_id log :
  Forall (fun m => pm_batch_id m <> batch_id) log -> shipped batch_id log = 0.
Proof.
  induction 1 as [|m l Hm _ IH]; cbn [shipped fold_right]; [reflexivity|].
  fold (shipped batch_id l). rewrite IH.
  destruct (Z.eqb_spec (pm_batch_id m) batch_id); [contradiction | reflexivity].
Qed.

Lemma stock_of_batch_app batch_id l1 l2 :
  stock_of_batch batch_id (l1 ++ l2)
  = stock_of_batch batch_id l1 + stock_of_batch batch_id l2.
Proof.
  induction l1 as [|r l1 IH]; cbn [app stock_of_batch fold_right]; [reflexivity|].
  fold (stock_of_batch batch_id (l1 ++ l2)). fold (stock_of_batch batch_id l1).
  rewrite IH. destruct (_ =? _); lia.
Qed.

Lemma stock_of_batch_same batch_id f l :
  (forall r, In r l -> f r = r) ->
  stock_of_batch batch_id (map f l) = stock_of_batch batch_id l.
Proof.
  intros H. rewrite (map_ext_in f id), map_id; [reflexivity | exact H].
Qed.

Lemma same_position_key a b c r :
  same_position a b c r = true <-> position_key r = (a, b, c).
Proof.
  unfold same_position, position_key. rewrite !andb_true_iff, !Z.eqb_eq.
  split; [intros [[-> ->] ->]; reflexivity | intros [= -> -> ->]; auto].
Qed.

Lemma stock_of_batch_restocked now id retailer_id product_id batch_id quantity price
    positions batch :
  NoDup (map position_key positions) ->
  stock_of_batch batch
    (restocked now id retailer_id product_id batch_id quantity price positions)
  = stock_of_batch batch positions + (if batch_id =? batch then quantity else 0).
Proof.
  intros Hnd. unfold restocked.
  destruct (existsb _ positions) eqn:He.
  - induction positions as [|r l IH]; [discriminate He|].
    inversion Hnd as [|? ? Hnotin Hnd']; subst.
    cbn [map stock_of_batch fold_right].
    match goal with
    | |- context [fold_right ?f 0 (map ?g l)] =>
        change (fold_right f 0 (map g l)) with (stock_of_batch batch (map g l))
    end.
    fold (stock_of_batch batch l).
    destruct (same_position retailer_id product_id batch_id r) eqn:Hk.
    + rewrite stock_of_batch_same.
      * pose proof (proj1 (same_position_key _ _ _ _) Hk) as Ek.
        inversion Ek as [[E1 E2 E3]].
        cbn [restock ri_batch_id ri_quantity_in_stock]. rewrite E3.
        destruct (batch_id =? batch); lia.
      * intros r0 Hr0.
        destruct (same_position retailer_id product_id batch_id r0) eqn:Hk0;
          [|reflexivity].
        exfalso. apply Hnotin.
        apply same_position_key in Hk, Hk0. rewrite Hk, <- Hk0.
        apply in_map. exact Hr0.
    + cbn [existsb] in He. rewrite Hk in He. cbn [orb] in He.
      rewrite (IH Hnd' He). destruct (ri_batch_id r =? batch); lia.
  - rewrite stock_of_batch_app. cbn [stock_of_batch fold_right proposed_position
      ri_batch_id ri_quantity_in_stock]. destruct (batch_id =? batch); lia.
Qed.

Lemma stock_of_batch_sold batch now retailer_id it positions :
  0 <= item_quantity it ->
  stock_of_batch batch
    (map (fun r => if same_position retailer_id (item_product_id it)
                                    (item_batch_id it) r
                   then sell now (item_quantity it) r else r) positions)
  <= stock_of_batch batch positions.
Proof.
  intros Hq. induction positions as [|r l IH]; cbn [map stock_of_batch fold_right];
    [lia|].
  match goal with
  | |- context [fold_right ?f 0 (map ?g l)] =>
      change (fold_right f 0 (map g l)) with (stock_of_batch batch (map g l))
  end.
  fold (stock_of_batch batch l).
  destruct (same_position _ _ _ r); cbn [sell ri_batch_id ri_quantity_in_stock];
    destruct (ri_batch_id r =? batch); lia.
Qed.

Lemma balanced_empty db : empty_ledger db -> balanced (db_tables db).
Proof.
  intros (Hb & Hr & Hm & _). unfold balanced. rewrite Hb, Hr, Hm.
  split; [intros b [] | intros id; cbn; lia].
Qed.

Lemma after_manufacture_balanced now uuid productId batch_number manufacture_date
    expiry_date quantity_produced lab_test_results manufacturer_id db :
  ledger_ok db -> balanced (db_tables db) ->
  balanced (db_tables (after_manufacture now uuid productId batch_number
                         manufacture_date expiry_date quantity_produced
                         lab_test_results manufacturer_id db)).
Proof.
  intros (Kb & _ & _ & _ & Km & _) (Hb & Hs).
  unfold balanced, after_manufacture.
  cbn [db_tables product_batches product_movements retailer_inventory
       set_product_movements set_product_batches].
  split.
  - intros b Hin. rewrite shipped_app.
    cbn [shipped fold_right new_movement is_shipment pm_movement_type].
    rewrite andb_false_r.
    apply in_app_or in Hin. destruct Hin as [Hin|[<-|[]]].
    + rewrite (Hb b Hin). lia.
    + cbn [new_batch pb_id pb_quantity_produced pb_quantity_available].
      rewrite shipped_none; [lia|].
      eapply Forall_impl; [|exact Km]. cbn. intros m (_ & _ & Hm) E.
      rewrite E in Hm. unfold has_batch in Hm.
      rewrite ids_below_fresh in Hm; [discriminate|].
      eapply Forall_impl; [|exact Kb]. cbn. tauto.
  - intros id. rewrite shipped_app.
    cbn [shipped fold_right new_movement is_shipment pm_movement_type].
    rewrite andb_false_r. specialize (Hs id). lia.
Qed.

Lemma after_shipment_balanced now retailer_id product_id batch_id quantity price
    manufacturer_id db :
  ledger_ok db -> balanced (db_tables db) ->
  balanced (db_tables (after_shipment now retailer_id product_id batch_id quantity
                         price manufacturer_id db)).
Proof.
  intros (_ & _ & _ & Krn & _) (Hb & Hs).
  unfold balanced, after_shipment.
  cbn [db_tables product_batches product_movements retailer_inventory
       set_product_movements set_product_batches set_retailer_inventory].
  split.
  - intros b' Hin. apply in_map_iff in Hin. destruct Hin as (b & <- & Hin).
    rewrite shipped_app.
    cbn [shipped fold_right new_movement is_shipment pm_movement_type pm_batch_id
         pm_quantity].
    rewrite andb_true_r. specialize (Hb b Hin).
    destruct (Z.eqb_spec (pb_id b) batch_id) as [E|E].
    + cbn [ship_out pb_id pb_quantity_produced pb_quantity_available].
      rewrite E, Z.eqb_refl. rewrite E in Hb. lia.
    + destruct (Z.eqb_spec batch_id (pb_id b)); [congruence|]. lia.
  - intros id. rewrite shipped_app.
    cbn [shipped fold_right new_movement is_shipment pm_movement_type pm_batch_id
         pm_quantity].
    rewrite andb_true_r. rewrite stock_of_batch_restocked by exact Krn.
    specialize (Hs id). destruct (batch_id =? id); lia.
Qed.

Lemma after_item_balanced now retailer_id wp_user_id purchaseId db it :
  0 <= item_quantity it -> balanced (db_tables db) ->
  balanced (db_tables (after_item now retailer_id wp_user_id purchaseId db it)).
Proof.
  intros Hq (Hb & Hs).
  unfold balanced, after_item.
  cbn [db_tables product_batches product_movements retailer_inventory
       set_product_movements set_retailer_inventory set_purchase_items].
  split.
  - intros b Hin. rewrite shipped_app.
    cbn [shipped fold_right new_movement is_shipment pm_movement_type].
    rewrite andb_false_r. rewrite (Hb b Hin). lia.
  - intros id. rewrite shipped_app.
    cbn [shipped fold_right new_movement is_shipment pm_movement_type].
    rewrite andb_false_r.
    pose proof (stock_of_batch_sold id now retailer_id it
                  (retailer_inventory (db_tables db)) Hq).
    specialize (Hs id). lia.
Qed.

Lemma after_items_balanced now retailer_id wp_user_id purchaseId items :
  forall db,
  Forall (fun it => 0 < item_quantity it) items -> balanced (db_tables db) ->
  balanced (db_tables (fold_left (after_item now retailer_id wp_user_id purchaseId)
                                 items db)).
Proof.
  induction items as [|it rest IH]; intros db Hq Hb; [exact Hb|].
  inversion Hq; subst. cbn [fold_left]. apply IH; [assumption|].
  apply after_item_balanced; [lia | exact Hb].
Qed.
Lemma run_balanced op db :
  ledger_ok db -> balanced (db_tables db) -> balanced (db_tables (snd (run op db))).
Proof.
  intros Hok Hb. destruct (run op db) as [res db'] eqn:H. cbn [snd].
  destruct op; cbn [run] in H.
  - destruct (Z.eq_dec (status res) 200) as [E|E].
    + apply post_products_batches_exact in H; [|exact E].
      destruct H as (_ & _ & _ & _ & _ & _ & mid & ->).
      apply after_manufacture_balanced; assumption.
    + rewrite (post_products_batches_failed _ _ _ _ _ _ _ _ _ _ _ _ H E). exact Hb.
  - destruct (Z.eq_dec (status res) 200) as [E|E].
    + apply post_inventory_add_exact in H; [|exact E].
      destruct H as (_ & _ & _ & r & b & mid & _ & _ & _ & _ & _ & _ & ->).
      apply after_shipment_balanced; assumption.
    + apply post_inventory_add_effect in H.
      destruct H as [[_ ->]|[-> _]]; [exact Hb | contradiction E; reflexivity].
  - destruct (Z.eq_dec (status res) 200) as [E|E].
    + destruct (post_purchase_exact _ _ _ _ _ _ _ _ _ _ Hok H E)
        as (Hu & Hr & Hs & Hd).
      rewrite (post_purchase_succeeds _ _ _ _ _ _ _ _ Hok Hu Hr Hs Hd) in H.
      inversion H; subst res db'. unfold after_purchase.
      apply after_items_balanced; [|exact Hb].
      eapply Forall_impl; [|exact Hs]. intros it (Hq & _). exact Hq.
    + apply post_purchase_effect in H.
      destruct H as [[_ ->]|(p & rows & ms & -> & _)];
        [exact Hb | contradiction E; reflexivity].
  - unfold get_trace_batch in H.
    destruct (trace_batch_query _ _); inversion H; subst; exact Hb.
Qed.

Lemma reachable_balanced db : reachable db -> balanced (db_tables db).
Proof.
  induction 1 as [db He|op db Hr IH].
  - apply balanced_empty; exact He.
  - apply run_balanced; [apply reachable_ledger_ok; exact Hr | exact IH].
Qed.
(** * What the ledger guarantees in every reachable state *)

Lemma ledger1_reachable : reachable ledger1.
Proof.
  unfold ledger1. apply reachable_run. apply reachable_empty. repeat split.
Qed.

Lemma ledger2_reachable : reachable ledger2.
Proof. unfold ledger2. apply reachable_run. exact ledger1_reachable. Qed.

Lemma shipped_nonneg batch_id log :
  Forall (fun m => 0 < pm_quantity m) log -> 0 <= shipped batch_id log.
Proof.
  induction 1 as [|m l Hm _ IH]; cbn [shipped fold_right]; [lia|].
  fold (shipped batch_id l). destruct (_ && _); lia.
Qed.

(** X1. In every state reached from an empty ledger by the handlers, the
    CHECK constraints of product_batches, retailer_inventory and
    product_movements hold, no position has a reserved quantity, batch ids
    and position keys (retailer, product, batch) are unique, every movement
    names an existing batch, and every id is below its sequence. *)
Theorem reachable_ledger_keeps_constraints (db : database) :
  reachable db -> ledger_ok db.
Proof. exact (reachable_ledger_ok db). Qed.

Lemma reachable_ledger_keeps_constraints_witness : ledger_ok ledger3.
Proof. apply (reachable_ledger_keeps_constraints ledger3). exact ledger3_reachable. Defined.

(** X2. In every reachable state, for each batch: the quantity produced is
    the quantity still available plus the quantities of its ship_to_retailer
    movements, the quantity available lies between 0 and the quantity
    produced, and the retailers' positions hold no more of the batch than
    was shipped. *)
Theorem reachable_ledger_balances (db : database) (b : product_batches_row) :
  reachable db ->
  In b (product_batches (db_tables db)) ->
  pb_quantity_produced b
  = pb_quantity_available b + shipped (pb_id b) (product_movements (db_tables db))
  /\ 0 <= pb_quantity_available b <= pb_quantity_produced b
  /\ stock_of_batch (pb_id b) (retailer_inventory (db_tables db))
     <= shipped (pb_id b) (product_movements (db_tables db)).
Proof.
  intros Hr Hin.
  destruct (reachable_balanced db Hr) as [Hb Hs].
  destruct (reachable_ledger_ok db Hr) as (Kb & _ & _ & _ & Km & _).
  pose proof (proj1 (Forall_forall _ _) Kb b Hin) as (Hc & _).
  apply product_batches_check_None in Hc.
  assert (0 <= shipped (pb_id b) (product_movements (db_tables db))).
  { apply shipped_nonneg. eapply Forall_impl; [|exact Km]. cbn. tauto. }
  specialize (Hb b Hin). specialize (Hs (pb_id b)). lia.
Qed.

(** The third scenario: 1000 made, 800 available, 200 shipped, 150 on the
    retailer's shelf. *)
Lemma reachable_ledger_balances_witness :
  exists b, In b (product_batches (db_tables ledger3))
            /\ pb_quantity_produced b = 1000 /\ pb_quantity_available b = 800
            /\ shipped (pb_id b) (product_movements (db_tables ledger3)) = 200
            /\ stock_of_batch (pb_id b) (retailer_inventory (db_tables ledger3)) = 150
            /\ 0 <= pb_quantity_available b <= pb_quantity_produced b.
Proof.
  eexists. split; [left; reflexivity|].
  repeat (split; [reflexivity|]).
  apply (reachable_ledger_balances ledger3 _ ledger3_reachable (or_introl eq_refl)).
Defined.
(** * When a request goes through *)

Lemma ledger0_ok : ledger_ok ledger0.
Proof. apply ledger_ok_empty. repeat split. Qed.

(** X3. In a state that satisfies the constraints, POST
    /api/products/:productId/batches answers 200 exactly when the caller's
    manufacturer owns the product, the quantity produced is positive, the
    manufacture date is before the expiry date, and neither the uuid nor the
    pair (product, batch number) is taken. *)
Theorem record_manufacture_succeeds_iff (now uuid : Z) (req_user : user)
    (productId : Z) (batch_number : string)
    (manufacture_date expiry_date quantity_produced : Z)
    (lab_test_results : option string) (db : database) :
  ledger_ok db ->
  status (fst (post_products_batches now uuid req_user productId batch_number
                 manufacture_date expiry_date quantity_produced lab_test_results db))
  = 200
  <-> owns_product req_user productId (db_tables db)
      /\ 0 < quantity_produced /\ manufacture_date < expiry_date
      /\ existsb (fun b => pb_uuid b =? uuid) (product_batches (db_tables db)) = false
      /\ existsb (fun b => (pb_product_id b =? productId)
                           && String.eqb (pb_batch_number b) batch_number)
                 (product_batches (db_tables db)) = false.
Proof.
  intros Hok. split.
  - intros Hst.
    destruct (post_products_batches _ _ _ _ _ _ _ _ _ db) as [res db'] eqn:H.
    destruct (post_products_batches_exact _ _ _ _ _ _ _ _ _ _ _ _ H Hst)
      as (H1 & H2 & H3 & H4 & H5 & _).
    auto.
  - intros (H1 & H2 & H3 & H4 & H5).
    apply post_products_batches_succeeds; assumption.
Qed.

Lemma record_manufacture_succeeds_iff_witness :
  status (fst (post_products_batches 1704067200 7001 manufacturer_user 1
                 "BATCH-TEST-001" 19723 20089 1000 None ledger0)) = 200
  /\ owns_product manufacturer_user 1 (db_tables ledger0).
Proof.
  split; [reflexivity|].
  apply (proj1 (record_manufacture_succeeds_iff 1704067200 7001 manufacturer_user 1
                  "BATCH-TEST-001" 19723 20089 1000 None ledger0 ledger0_ok)).
  reflexivity.
Defined.


Lemma ledger2_ok : ledger_ok ledger2.
Proof. apply reachable_ledger_ok. exact ledger2_reachable. Qed.





Lemma after_items_positions now retailer_id wp_user_id purchaseId items :
  forall db,
  retailer_inventory
    (db_tables (fold_left (after_item now retailer_id wp_user_id purchaseId) items db))
  = map (sell_items now retailer_id items) (retailer_inventory (db_tables db)).
Proof.
  induction items as [|it rest IH]; intros db; cbn [fold_left].
  - unfold sell_items. cbn. rewrite map_id. reflexivity.
  - rewrite IH. cbn [after_item db_tables retailer_inventory set_product_movements
                     set_retailer_inventory].
    rewrite map_map. reflexivity.
Qed.

Lemma after_items_batches now retailer_id wp_user_id purchaseId items :
  forall db,
  product_batches
    (db_tables (fold_left (after_item now retailer_id wp_user_id purchaseId) items db))
  = product_batches (db_tables db).
Proof.
  induction items as [|it rest IH]; intros db; cbn [fold_left]; [reflexivity|].
  rewrite IH. reflexivity.
Qed.

(** X7. In a state that satisfies the constraints, POST /api/purchase
    answers 200 exactly when the uuid is not taken, the retailer exists,
    every line item has a positive quantity and names an existing product
    and an existing batch, and no position of the retailer is asked for more
    than it holds by the line items that match it; a line item that matches
    no position asks nothing of any. *)
Theorem sell_to_consumer_succeeds_iff (now uuid retailer_id : Z) (items : list item)
    (wp_user_id : option Z) (payment_method pos_transaction_id : option string)
    (db : database) :
  ledger_ok db ->
  status (fst (post_purchase now uuid retailer_id items wp_user_id payment_method
                 pos_transaction_id db)) = 200
  <-> existsb (fun c => cp_uuid c =? uuid) (consumer_purchases (db_tables db)) = false
      /\ has_retailer retailer_id (db_tables db) = true
      /\ Forall (sellable (db_tables db)) items
      /\ (forall r, In r (retailer_inventory (db_tables db)) ->
                    demand retailer_id r items <= ri_quantity_in_stock r).
Proof.
  intros Hok. split.
  - intros Hst.
    destruct (post_purchase _ _ _ _ _ _ _ db) as [res db'] eqn:H.
    exact (post_purchase_exact _ _ _ _ _ _ _ _ _ _ Hok H Hst).
  - intros (Hu & Hr & Hs & Hd).
    rewrite (post_purchase_succeeds _ _ _ _ _ _ _ _ Hok Hu Hr Hs Hd). reflexivity.
Qed.

Lemma sell_to_consumer_succeeds_iff_witness :
  status (fst (post_purchase 1704240000 9001 1 [item_50] None None None ledger2)) = 200
  /\ Forall (sellable (db_tables ledger2)) [item_50].
Proof.
  split; [reflexivity|].
  apply (proj1 (sell_to_consumer_succeeds_iff 1704240000 9001 1 [item_50] None None
                  None ledger2 ledger2_ok)).
  reflexivity.
Defined.

(** X8. What a purchase that goes through does: the new state is
    [after_purchase]; the batches are as before, and each position is what
    the line items that match it leave, taken in order: the quantity sold
    off the stock, last_sold and updated_at set, the price as it was. *)
Theorem sell_to_consumer_effect (now uuid retailer_id : Z) (items : list item)
    (wp_user_id : option Z) (payment_method pos_transaction_id : option string)
    (db db' : database) (res : response) :
  ledger_ok db ->
  post_purchase now uuid retailer_id items wp_user_id payment_method
                pos_transaction_id db = (res, db') ->
  status res = 200 ->
  res = {| status := 200;
           body := PurchaseCompleted (consumer_purchases_id_seq (db_seqs db)) uuid |}
  /\ db' = after_purchase now uuid retailer_id items wp_user_id payment_method
                          pos_transaction_id db
  /\ product_batches (db_tables db') = product_batches (db_tables db)
  /\ retailer_inventory (db_tables db')
     = map (sell_items now retailer_id items) (retailer_inventory (db_tables db)).
Proof.
  intros Hok H Hst.
  destruct (post_purchase_exact _ _ _ _ _ _ _ _ _ _ Hok H Hst) as (Hu & Hr & Hs & Hd).
  rewrite (post_purchase_succeeds _ _ _ _ _ _ _ _ Hok Hu Hr Hs Hd) in H.
  inversion H; subst res db'. split; [reflexivity|]. split; [reflexivity|].
  unfold after_purchase. rewrite after_items_positions, after_items_batches.
  split; reflexivity.
Qed.

(** Two line items on the same position: 1 and 2 off a stock of 200. *)
Lemma sell_to_consumer_effect_witness :
  map ri_quantity_in_stock (retailer_inventory (db_tables ledger_two_sales)) = [197]
  /\ retailer_inventory (db_tables ledger_two_sales)
     = map (sell_items 1704240000 1 [item_1; item_2])
           (retailer_inventory (db_tables ledger2)).
Proof.
  split; [reflexivity|].
  apply (sell_to_consumer_effect 1704240000 9001 1 [item_1; item_2] (Some 55) None None
           ledger2 ledger_two_sales _ ledger2_ok eq_refl eq_refl).
Defined.
(** * What no request undoes *)

Lemma run_failed_tables op db :
  status (fst (run op db)) <> 200 -> db_tables (snd (run op db)) = db_tables db.
Proof.
  intros Hst. destruct (run op db) as [res db'] eqn:H. cbn [fst snd] in *.
  destruct op; cbn [run] in H.
  - exact (post_products_batches_failed _ _ _ _ _ _ _ _ _ _ _ _ H Hst).
  - apply post_inventory_add_effect in H.
    destruct H as [[_ E]|[-> _]]; [exact E | contradiction Hst; reflexivity].
  - apply post_purchase_effect in H.
    destruct H as [[_ E]|(p & rows & ms & -> & _)];
      [exact E | contradiction Hst; reflexivity].
  - unfold get_trace_batch in H.
    destruct (trace_batch_query _ _); inversion H; reflexivity.
Qed.

(** X9. A request that is not answered 200 leaves every table as it was:
    whatever the statements of the transaction wrote before the failure is
    rolled back (the sequences are not). *)
Theorem failed_request_changes_no_table (op : operation) (db : database) :
  status (fst (run op db)) <> 200 -> db_tables (snd (run op db)) = db_tables db.
Proof. apply run_failed_tables. Qed.

(** A shipment of 0 units: the position is written and the batch updated
    before product_movements refuses the quantity. *)
Lemma failed_request_changes_no_table_witness :
  status (fst (run (ShipToRetailer 1704153600 retailer_user 1 1 0 500) ledger1)) = 500
  /\ db_tables (snd (run (ShipToRetailer 1704153600 retailer_user 1 1 0 500) ledger1))
     = db_tables ledger1.
Proof.
  split; [reflexivity|].
  apply (failed_request_changes_no_table
           (ShipToRetailer 1704153600 retailer_user 1 1 0 500) ledger1).
  vm_compute. discriminate.
Defined.

Lemma run_appends op db :
  exists movements purchases rows,
    product_movements (db_tables (snd (run op db)))
    = product_movements (db_tables db) ++ movements
    /\ consumer_purchases (db_tables (snd (run op db)))
       = consumer_purchases (db_tables db) ++ purchases
    /\ purchase_items (db_tables (snd (run op db)))
       = purchase_items (db_tables db) ++ rows.
Proof.
  destruct (Z.eq_dec (status (fst (run op db))) 200) as [E|E].
  2:{ exists [], [], []. rewrite (run_failed_tables op db E), !app_nil_r. auto. }
  destruct (run op db) as [res db'] eqn:H. cbn [fst snd] in *.
  destruct op; cbn [run] in H.
  - apply post_products_batches_exact in H; [|exact E].
    destruct H as (_ & _ & _ & _ & _ & _ & mid & ->).
    eexists _, [], []. unfold after_manufacture.
    cbn [db_tables product_movements consumer_purchases purchase_items
         set_product_movements set_product_batches].
    split; [reflexivity|]. rewrite !app_nil_r. split; reflexivity.
  - apply post_inventory_add_exact in H; [|exact E].
    destruct H as (_ & _ & _ & r & b & mid & _ & _ & _ & _ & _ & _ & ->).
    eexists _, [], []. unfold after_shipment.
    cbn [db_tables product_movements consumer_purchases purchase_items
         set_product_movements set_product_batches set_retailer_inventory].
    split; [reflexivity|]. rewrite !app_nil_r. split; reflexivity.
  - apply post_purchase_effect in H.
    destruct H as [[-> _]|(p & rows & ms & _ & _ & _ & _ & _ & _ & Hc & Hi & Hm & _)];
      [discriminate E|].
    exists ms, [p], rows. auto.
  - unfold get_trace_batch in H.
    destruct (trace_batch_query _ _); inversion H; subst;
      exists [], [], []; rewrite !app_nil_r; auto.
Qed.

(** X10. However many requests are served, and whether they go through or
    not, the movement log, the purchases and the purchase items only grow at
    the end: what was recorded stays, in place and unchanged. *)
Theorem ledger_is_append_only (ops : list operation) (db : database) :
  exists movements purchases rows,
    product_movements (db_tables (run_all ops db))
    = product_movements (db_tables db) ++ movements
    /\ consumer_purchases (db_tables (run_all ops db))
       = consumer_purchases (db_tables db) ++ purchases
    /\ purchase_items (db_tables (run_all ops db))
       = purchase_items (db_tables db) ++ rows.
Proof.
  unfold run_all. revert db.
  induction ops as [|op ops IH]; intros db; cbn [fold_left].
  - exists [], [], []. rewrite !app_nil_r. auto.
  - destruct (IH (snd (run op db))) as (ms2 & cs2 & is2 & Hm2 & Hc2 & Hi2).
    destruct (run_appends op db) as (ms1 & cs1 & is1 & Hm1 & Hc1 & Hi1).
    exists (ms1 ++ ms2), (cs1 ++ cs2), (is1 ++ is2).
    rewrite Hm2, Hc2, Hi2, Hm1, Hc1, Hi1, !app_assoc. auto.
Qed.

Lemma total_amount_from items : forall acc,
  fold_left (fun sum item => sum + item_quantity item * item_unit_price item) items acc
  = acc + fold_right (fun it s => item_quantity it * item_unit_price it + s) 0 items.
Proof.
  induction items as [|it rest IH]; intros acc; cbn [fold_left fold_right]; [lia|].
  rewrite IH. lia.
Qed.

Lemma item_rows_total purchaseId items rows :
  Forall2 (item_row purchaseId) items rows ->
  fold_right (fun it s => item_quantity it * item_unit_price it + s) 0 items
  = fold_right Z.add 0 (map pi_total_price rows)
  /\ Forall (fun row => pi_purchase_id row = purchaseId) rows.
Proof.
  induction 1 as [|it row items rows (Hp & _ & _ & _ & _ & Ht) _ [IH1 IH2]];
    cbn [fold_right map]; [split; [reflexivity | constructor]|].
  rewrite IH1, Ht. split; [reflexivity | constructor; assumption].
Qed.

(** X11. With unit prices in whole hundredths, as [item_unit_price] has
    them, a purchase that goes through writes one purchase with one
    purchase_items row per line item, each tied to the purchase, and the
    total_amount of the purchase is the sum of the total_price of those
    rows; order_metadata holds the line items as sent.  (A price with more
    than two decimals is rounded by DECIMAL(10,2) in each stored value
    separately, and is outside the statement.) *)
Theorem purchase_total_is_sum_of_lines (now uuid retailer_id : Z) (items : list item)
    (wp_user_id : option Z) (payment_method pos_transaction_id : option string)
    (db db' : database) (res : response) :
  post_purchase now uuid retailer_id items wp_user_id payment_method
                pos_transaction_id db = (res, db') ->
  status res = 200 ->
  exists purchase rows,
    consumer_purchases (db_tables db') = consumer_purchases (db_tables db) ++ [purchase]
    /\ purchase_items (db_tables db') = purchase_items (db_tables db) ++ rows
    /\ List.length rows = List.length items
    /\ Forall (fun row => pi_purchase_id row = cp_id purchase) rows
    /\ cp_total_amount purchase = fold_right Z.add 0 (map pi_total_price rows)
    /\ cp_order_metadata purchase = items.
Proof.
  intros H Hst. apply post_purchase_effect in H.
  destruct H as [[-> _]|(p & rows & ms & _ & Hp & _ & _ & _ & _ & Hc & Hi & _ & Hrows & _)];
    [discriminate Hst|].
  exists p, rows. split; [exact Hc|]. split; [exact Hi|].
  split; [symmetry; eapply Forall2_length; exact Hrows|].
  destruct (item_rows_total _ _ _ Hrows) as [Ht Hids].
  split; [exact Hids|].
  rewrite <- Ht. rewrite Hp. cbn [cp_total_amount cp_order_metadata].
  unfold total_amount. rewrite total_amount_from. split; [lia | reflexivity].
Qed.

(** One unit and two units at 7.00: a purchase of 21.00. *)
Lemma purchase_total_is_sum_of_lines_witness :
  exists purchase rows,
    consumer_purchases (db_tables ledger_two_sales) = [purchase]
    /\ purchase_items (db_tables ledger_two_sales) = rows
    /\ cp_total_amount purchase = 2100
    /\ map pi_total_price rows = [700; 1400].
Proof.
  destruct (purchase_total_is_sum_of_lines 1704240000 9001 1 [item_1; item_2]
              (Some 55) None None ledger2 ledger_two_sales _ eq_refl eq_refl)
    as (p & rows & Hc & Hi & _).
  exists p, rows. split; [exact Hc|]. split; [exact Hi|].
  vm_compute in Hc. inversion Hc; subst p.
  vm_compute in Hi. subst rows. split; reflexivity.
Defined.
(** * Text *)

Lemma split_inhabited sep s : split sep s <> [].
Proof.
  destruct s as [|c rest]; cbn [split]; [discriminate|].
  destruct (Ascii.eqb c sep); [discriminate|].
  destruct (split sep rest); discriminate.
Qed.

Lemma contains_cons c x s :
  contains c (String x s) = Ascii.eqb c x || contains c s.
Proof. reflexivity. Qed.

Lemma split_pieces_clean sep s piece :
  In piece (split sep s) -> contains sep piece = false.
Proof.
  revert piece. induction s as [|c rest IH]; intros piece Hin; cbn [split] in Hin.
  - destruct Hin as [<-|[]]. reflexivity.
  - destruct (Ascii.eqb c sep) eqn:E.
    + destruct Hin as [<-|Hin]; [reflexivity | apply IH; exact Hin].
    + destruct (split sep rest) as [|p ps] eqn:Hs.
      * destruct Hin as [<-|[]]. rewrite contains_cons, Ascii.eqb_sym, E.
        reflexivity.
      * destruct Hin as [<-|Hin]; [|apply IH; right; exact Hin].
        rewrite contains_cons, Ascii.eqb_sym, E. apply (IH p). left; reflexivity.
Qed.

Lemma split_clean sep s : contains sep s = false -> split sep s = [s].
Proof.
  induction s as [|c rest IH]; intros H; cbn [split]; [reflexivity|].
  rewrite contains_cons in H. apply orb_false_iff in H. destruct H as [E H].
  rewrite Ascii.eqb_sym, E. rewrite (IH H). reflexivity.
Qed.

Lemma split_append sep a b :
  contains sep a = false ->
  split sep (a ++ String sep b)%string = a :: split sep b.
Proof.
  induction a as [|c rest IH]; intros H; cbn [append split].
  - rewrite Ascii.eqb_refl. reflexivity.
  - rewrite contains_cons in H. apply orb_false_iff in H. destruct H as [E H].
    rewrite Ascii.eqb_sym, E. rewrite (IH H). reflexivity.
Qed.

Lemma contains_trim_start c s : contains c (trim_start s) = true -> contains c s = true.
Proof.
  induction s as [|x rest IH]; cbn [trim_start]; [auto|].
  destruct (is_white_space x); [|auto].
  intros H. rewrite contains_cons, (IH H). apply orb_true_r.
Qed.

Lemma contains_trim_end c s : contains c (trim_end s) = true -> contains c s = true.
Proof.
  induction s as [|x rest IH]; cbn [trim_end]; [auto|].
  destruct (trim_end rest) as [|k kept] eqn:E.
  - destruct (is_white_space x); [discriminate|].
    rewrite !contains_cons. intros H. apply orb_true_iff in H.
    destruct H as [->|H]; [reflexivity | discriminate H].
  - rewrite !(contains_cons c x). intros H. apply orb_true_iff in H.
    destruct H as [->|H]; [reflexivity|].
    rewrite (IH H). apply orb_true_r.
Qed.

Lemma contains_trim c s : contains c (trim s) = true -> contains c s = true.
Proof. intros H. apply contains_trim_start, contains_trim_end, H. Qed.

(** * The middleware *)

Lemma header_token_second_word scheme token tail :
  contains " "%char scheme = false -> contains " "%char token = false ->
  header_token (Some (scheme ++ String " "%char token)%string) = Some token
  /\ header_token (Some (scheme ++ String " "%char (token ++ String " "%char tail))%string)
     = Some token.
Proof.
  intros Hs Ht. unfold header_token.
  rewrite !(split_append _ _ _ Hs), (split_append _ _ _ Ht), (split_clean _ _ Ht).
  split; reflexivity.
Qed.

(** X12. The middleware reads the second space-separated word of the
    Authorization header and nothing else: the scheme word is not compared
    with 'Bearer', and whatever follows a second space is dropped. *)
Theorem authenticate_reads_second_word_only
    (jwt_verify : string -> option jwt_payload)
    (wp_user_mapping : list wp_user_mapping_row) (scheme token tail : string) :
  contains " "%char scheme = false -> contains " "%char token = false ->
  authenticateWPUser jwt_verify wp_user_mapping
    (Some (scheme ++ String " "%char (token ++ String " "%char tail))%string)
  = authenticateWPUser jwt_verify wp_user_mapping (Some ("Bearer " ++ token)%string)
  /\ authenticateWPUser jwt_verify wp_user_mapping (Some (scheme ++ String " "%char token)%string)
     = authenticateWPUser jwt_verify wp_user_mapping (Some ("Bearer " ++ token)%string).
Proof.
  intros Hs Ht. unfold authenticateWPUser.
  destruct (header_token_second_word scheme token tail Hs Ht) as [-> ->].
  destruct (header_token_second_word "Bearer" token "" eq_refl Ht) as [E _].
  cbn [append] in E |- *. rewrite E. split; reflexivity.
Qed.

Lemma authenticate_reads_second_word_only_witness :
  authenticateWPUser demo_jwt_verify demo_wp_user_mapping
    (Some "Basic abc.def.ghi trailing")
  = Next {| user_id := 2001; user_type := "retailer" |}.
Proof.
  exact (eq_trans
           (proj1 (authenticate_reads_second_word_only demo_jwt_verify
                     demo_wp_user_mapping "Basic" "abc.def.ghi" "trailing"
                     eq_refl eq_refl))
           eq_refl).
Defined.

Lemma authenticate_next jwt_verify wp_user_mapping authorization req_user :
  authenticateWPUser jwt_verify wp_user_mapping authorization = Next req_user
  <-> exists token row,
        header_token authorization = Some token /\ token <> ""
        /\ jwt_verify token = Some {| jwt_user_id := Some (user_id req_user) |}
        /\ find (fun r => wum_wp_user_id r =? user_id req_user) wp_user_mapping
           = Some row
        /\ user_type req_user = wum_user_type row.
Proof.
  unfold authenticateWPUser. split.
  - destruct (header_token authorization) as [token|]; [|discriminate].
    destruct token as [|c token]; [discriminate|]. cbn [truthy negb].
    destruct (jwt_verify _) as [[[id|]]|] eqn:Hv; cbn [jwt_user_id];
      try discriminate.
    destruct (filter _ wp_user_mapping) as [|row rest] eqn:Hf; [discriminate|].
    intros [= <-]. cbn [user_id user_type].
    exists (String c token), row. split; [reflexivity|]. split; [discriminate|].
    split; [exact Hv|]. rewrite filter_find, Hf. split; reflexivity.
  - intros (token & row & -> & Hne & Hv & Hf & Hty).
    destruct token as [|c token]; [contradiction Hne; reflexivity|].
    cbn [truthy negb]. rewrite Hv. cbn [jwt_user_id].
    rewrite filter_find in Hf.
    destruct (filter _ wp_user_mapping) as [|row' rest]; [discriminate Hf|].
    cbn in Hf. inversion Hf; subst row'. rewrite <- Hty.
    destruct req_user; reflexivity.
Qed.

Lemma authenticate_responded jwt_verify wp_user_mapping authorization res :
  authenticateWPUser jwt_verify wp_user_mapping authorization = Responded res ->
  status res = 401.
Proof.
  unfold authenticateWPUser.
  destruct (header_token authorization) as [token|]; [|intros [= <-]; reflexivity].
  destruct (negb (truthy token)); [intros [= <-]; reflexivity|].
  destruct (jwt_verify token) as [[[id|]]|]; cbn [jwt_user_id];
    try (intros [= <-]; reflexivity).
  destruct (filter _ wp_user_mapping); [intros [= <-]; reflexivity | discriminate].
Qed.

(** X13. The middleware passes a request on exactly when the second word
    of the header is a non-empty token that verifies, its payload carries a
    user_id, and wp_user_mapping has a row for that id; req.user then holds
    the id of the token and the user_type of the first such row: the type
    comes from the table, never from the token.  In every other case the
    answer is 401. *)
Theorem authenticate_passes_iff (jwt_verify : string -> option jwt_payload)
    (wp_user_mapping : list wp_user_mapping_row) (authorization : option string) :
  (forall req_user,
     authenticateWPUser jwt_verify wp_user_mapping authorization = Next req_user
     <-> exists token row,
           header_token authorization = Some token /\ token <> ""
           /\ jwt_verify token = Some {| jwt_user_id := Some (user_id req_user) |}
           /\ find (fun r => wum_wp_user_id r =? user_id req_user) wp_user_mapping
              = Some row
           /\ user_type req_user = wum_user_type row)
  /\ (forall res,
        authenticateWPUser jwt_verify wp_user_mapping authorization = Responded res ->
        status res = 401).
Proof.
  split; [intros req_user; apply authenticate_next|].
  intros res. apply authenticate_responded.
Qed.

(** * The statements that the setup script sends *)

(** X14. setup-database.js cuts the schema file at every semicolon: no
    statement that it sends holds a semicolon (and none is empty), so a
    function whose dollar-quoted body has statements of its own is never
    sent in one piece. *)
Theorem setup_sends_no_semicolon (schema stmt : string) :
  In stmt (schema_statements schema) ->
  contains ";"%char stmt = false /\ stmt <> "".
Proof.
  unfold schema_statements. intros H.
  apply filter_In in H. destruct H as [H Hne].
  apply in_map_iff in H. destruct H as (piece & <- & H).
  apply filter_In in H. destruct H as [H _].
  split.
  - destruct (contains ";"%char (trim piece)) eqn:E; [|reflexivity].
    apply contains_trim in E.
    rewrite (split_pieces_clean _ _ _ H) in E. discriminate E.
  - intros E. rewrite E in Hne. discriminate Hne.
Qed.

Lemma setup_sends_no_semicolon_witness :
  schema_statements demo_schema
  = [ "CREATE TABLE t (id INTEGER)";
      "CREATE FUNCTION f() RETURNS INTEGER AS $$ BEGIN RETURN 1";
      "END";
      "$$ LANGUAGE plpgsql" ]
  /\ contains ";"%char "END" = false.
Proof.
  assert (E : schema_statements demo_schema
              = [ "CREATE TABLE t (id INTEGER)";
                  "CREATE FUNCTION f() RETURNS INTEGER AS $$ BEGIN RETURN 1";
                  "END";
                  "$$ LANGUAGE plpgsql" ]) by (vm_compute; reflexivity).
  split; [exact E|].
  apply (setup_sends_no_semicolon demo_schema "END").
  rewrite E. right. right. left. reflexivity.
Defined.
(** * The search results, grouped *)

Lemma js_get_None {V} key (o : js_object V) :
  js_get key o = None <-> ~ In key (map fst o).
Proof.
  unfold js_get. induction o as [|[k v] rest IH]; cbn [find map fst In].
  - split; [intros _ [] | reflexivity].
  - destruct (Z.eqb_spec k key) as [->|Hne]; cbn [option_map].
    + split; [discriminate | intros H; exfalso; apply H; left; reflexivity].
    + rewrite IH. split; [intros H [E|Hin]; auto | intros H Hin; apply H; right; exact Hin].
Qed.

Lemma js_get_define {V} key (v : V) o key' :
  ~ In key (map fst o) ->
  js_get key' (js_define key v o) = if key' =? key then Some v else js_get key' o.
Proof.
  unfold js_get. induction o as [|[k0 v0] rest IH]; intros Hnew;
    cbn [js_define find map fst In] in *.
  - rewrite (Z.eqb_sym key key'). destruct (key' =? key); reflexivity.
  - destruct (is_array_index key && _).
    + cbn [find fst]. rewrite (Z.eqb_sym key key').
      destruct (key' =? key); reflexivity.
    + cbn [find fst]. destruct (Z.eqb_spec k0 key') as [->|Hne].
      * destruct (Z.eqb_spec key' key) as [E|_]; [|reflexivity].
        exfalso. apply Hnew. left; exact E.
      * apply IH. intros Hin. apply Hnew. right; exact Hin.
Qed.

Lemma js_get_update {V} key (f : V -> V) o key' :
  js_get key' (js_update key f o)
  = if key' =? key then option_map f (js_get key o) else js_get key' o.
Proof.
  unfold js_get, js_update. induction o as [|[k0 v0] rest IH]; cbn [map find fst snd].
  - destruct (key' =? key); reflexivity.
  - destruct (Z.eqb_spec k0 key) as [->|Hne]; cbn [fst snd find].
    + destruct (Z.eqb_spec key key') as [->|Hne'].
      * rewrite Z.eqb_refl. reflexivity.
      * rewrite IH. destruct (Z.eqb_spec key' key); [congruence | reflexivity].
    + destruct (Z.eqb_spec k0 key') as [->|Hne'].
      * destruct (Z.eqb_spec key' key); [congruence | reflexivity].
      * exact IH.
Qed.

Lemma js_update_keys {V} key (f : V -> V) o :
  map fst (js_update key f o) = map fst o.
Proof.
  unfold js_update. rewrite map_map. apply map_ext.
  intros [k v]. cbn. destruct (k =? key); reflexivity.
Qed.

Lemma js_define_keys {V} key (v : V) o k :
  In k (map fst (js_define key v o)) <-> k = key \/ In k (map fst o).
Proof.
  induction o as [|[k0 v0] rest IH]; cbn [js_define map fst In].
  - intuition.
  - destruct (is_array_index key && _); cbn [map fst In]; [intuition|].
    rewrite IH. intuition.
Qed.

Lemma js_define_NoDup {V} key (v : V) o :
  NoDup (map fst o) -> ~ In key (map fst o) -> NoDup (map fst (js_define key v o)).
Proof.
  induction o as [|[k0 v0] rest IH]; intros Hnd Hnew; cbn [js_define map fst] in *.
  - constructor; [intros [] | constructor].
  - destruct (is_array_index key && _); cbn [map fst].
    + constructor; assumption.
    + inversion Hnd as [|? ? Hk0 Hrest]; subst. constructor.
      * rewrite js_define_keys. intros [->|Hin]; [apply Hnew; left; reflexivity|].
        contradiction.
      * apply IH; [exact Hrest|]. intros Hin. apply Hnew. right; exact Hin.
Qed.

Lemma js_define_sorted {V} key (v : V) o :
  StronglySorted Z.lt (map fst o) ->
  Forall (fun k => is_array_index k = true) (map fst o) ->
  is_array_index key = true -> ~ In key (map fst o) ->
  StronglySorted Z.lt (map fst (js_define key v o)).
Proof.
  intros Hs Hidx Hk. induction o as [|[k0 v0] rest IH]; intros Hnew;
    cbn [js_define map fst] in *.
  - constructor; constructor.
  - inversion Hs as [|? ? Hs' Hall]; subst.
    inversion Hidx as [|? ? Hk0 Hidx']; subst.
    rewrite Hk, Hk0. cbn [andb negb orb].
    destruct (Z.ltb_spec key k0) as [Hlt|Hge]; cbn [map fst].
    + constructor; [exact Hs|]. constructor; [exact Hlt|].
      eapply Forall_impl; [|exact Hall]. cbn. intros; lia.
    + assert (Hne : k0 <> key) by (intros E; apply Hnew; left; exact E).
      constructor.
      * apply IH; try assumption. intros Hin. apply Hnew. right; exact Hin.
      * apply Forall_forall. intros k Hin. apply js_define_keys in Hin.
        destruct Hin as [->|Hin]; [lia|].
        exact (proj1 (Forall_forall _ _) Hall k Hin).
Qed.

Lemma group_of_snoc id rows row :
  group_of id (rows ++ [row])
  = if sr_id row =? id
    then match group_of id rows with
         | None => Some (push_offer row (group_header row))
         | Some g => Some (push_offer row g)
         end
    else group_of id rows.
Proof.
  unfold group_of. rewrite filter_app. cbn [filter].
  destruct (sr_id row =? id); [|rewrite app_nil_r; reflexivity].
  destruct (filter _ rows) as [|first others]; cbn [app]; [reflexivity|].
  unfold push_offer. cbn. rewrite map_app. reflexivity.
Qed.

Lemma group_row_get acc done row :
  (forall id, js_get id acc = group_of id done) ->
  forall id, js_get id (group_row acc row) = group_of id (done ++ [row]).
Proof.
  intros Hk id. unfold group_row. rewrite js_get_update, group_of_snoc.
  rewrite (Z.eqb_sym id (sr_id row)).
  destruct (Z.eqb_spec (sr_id row) id) as [<-|Hne].
  - rewrite <- Hk.
    destruct (js_get (sr_id row) acc) as [g|] eqn:Hg.
    + rewrite Hg. reflexivity.
    + rewrite js_get_define by (apply js_get_None; exact Hg).
      rewrite Z.eqb_refl. reflexivity.
  - destruct (js_get (sr_id row) acc) as [g|] eqn:Hg; [apply Hk|].
    rewrite js_get_define by (apply js_get_None; exact Hg).
    destruct (Z.eqb_spec id (sr_id row)); [congruence | apply Hk].
Qed.

Lemma group_row_NoDup acc row :
  NoDup (map fst acc) -> NoDup (map fst (group_row acc row)).
Proof.
  intros Hnd. unfold group_row. rewrite js_update_keys.
  destruct (js_get (sr_id row) acc) eqn:Hg; [exact Hnd|].
  apply js_define_NoDup; [exact Hnd | apply js_get_None; exact Hg].
Qed.

Lemma group_row_sorted acc row :
  StronglySorted Z.lt (map fst acc) ->
  Forall (fun k => is_array_index k = true) (map fst acc) ->
  is_array_index (sr_id row) = true ->
  StronglySorted Z.lt (map fst (group_row acc row))
  /\ Forall (fun k => is_array_index k = true) (map fst (group_row acc row)).
Proof.
  intros Hs Hidx Hk. unfold group_row. rewrite js_update_keys.
  destruct (js_get (sr_id row) acc) eqn:Hg; [split; assumption|].
  apply js_get_None in Hg. split; [apply js_define_sorted; assumption|].
  apply Forall_forall. intros k Hin. apply js_define_keys in Hin.
  destruct Hin as [->|Hin]; [exact Hk | exact (proj1 (Forall_forall _ _) Hidx k Hin)].
Qed.

Lemma fold_group_row rows :
  forall acc done,
  (forall id, js_get id acc = group_of id done) -> NoDup (map fst acc) ->
  (forall id, js_get id (fold_left group_row rows acc) = group_of id (done ++ rows))
  /\ NoDup (map fst (fold_left group_row rows acc)).
Proof.
  induction rows as [|row rest IH]; intros acc done Hk Hnd; cbn [fold_left].
  - rewrite app_nil_r. split; assumption.
  - replace (done ++ row :: rest) with ((done ++ [row]) ++ rest)
      by (rewrite <- app_assoc; reflexivity).
    apply IH; [apply group_row_get; exact Hk | apply group_row_NoDup; exact Hnd].
Qed.

Lemma fold_group_row_sorted rows :
  forall acc,
  StronglySorted Z.lt (map fst acc) ->
  Forall (fun k => is_array_index k = true) (map fst acc) ->
  Forall (fun row => is_array_index (sr_id row) = true) rows ->
  StronglySorted Z.lt (map fst (fold_left group_row rows acc)).
Proof.
  induction rows as [|row rest IH]; intros acc Hs Hidx Hrows; cbn [fold_left];
    [exact Hs|].
  inversion Hrows; subst.
  destruct (group_row_sorted acc row Hs Hidx) as [Hs' Hidx']; [assumption|].
  apply IH; assumption.
Qed.

Lemma group_of_id id rows g : group_of id rows = Some g -> pg_id g = id.
Proof.
  unfold group_of. destruct (filter _ rows) as [|first others] eqn:Hf; [discriminate|].
  intros [= <-]. cbn.
  assert (Hin : In first (filter (fun row => sr_id row =? id) rows))
    by (rewrite Hf; left; reflexivity).
  apply filter_In in Hin. apply Z.eqb_eq. exact (proj2 Hin).
Qed.

Lemma js_get_In {V} key (v : V) o :
  NoDup (map fst o) -> (In (key, v) o <-> js_get key o = Some v).
Proof.
  unfold js_get. induction o as [|[k0 v0] rest IH]; intros Hnd; cbn [find fst In].
  - split; [intros [] | discriminate].
  - inversion Hnd as [|? ? Hk0 Hrest]; subst. cbn [map fst] in Hk0.
    destruct (Z.eqb_spec k0 key) as [->|Hne]; cbn [option_map snd].
    + split.
      * intros [[= ->]|Hin]; [reflexivity|].
        exfalso. apply Hk0. apply (in_map fst) in Hin. exact Hin.
      * intros [= ->]. left; reflexivity.
    + rewrite <- (IH Hrest). split; [intros [[= E _]|Hin]; [contradiction|exact Hin]|].
      intros Hin. right; exact Hin.
Qed.

Lemma search_products_keys rows :
  map pg_id (search_products rows) = map fst (fold_left group_row rows []).
Proof.
  unfold search_products.
  destruct (fold_group_row rows [] [] (fun id => eq_refl) (NoDup_nil _)) as [Hk Hnd].
  cbn [app] in Hk. rewrite map_map. apply map_ext_in. intros [k g] Hin. cbn.
  apply group_of_id with (rows := rows). rewrite <- Hk.
  apply js_get_In; assumption.
Qed.

Lemma search_products_groups rows g :
  In g (search_products rows) <-> exists id, group_of id rows = Some g.
Proof.
  unfold search_products.
  destruct (fold_group_row rows [] [] (fun id => eq_refl) (NoDup_nil _)) as [Hk Hnd].
  cbn [app] in Hk. split.
  - intros Hin. apply in_map_iff in Hin. destruct Hin as ([k g'] & <- & Hin).
    exists k. rewrite <- Hk. apply js_get_In; assumption.
  - intros (id & Hg). rewrite <- Hk in Hg. apply js_get_In in Hg; [|exact Hnd].
    apply in_map_iff. exists (id, g). split; [reflexivity | exact Hg].
Qed.

(** X15. The products of a search answer are the groups of the rows by
    product id: each product that has a row appears once, with the columns
    of its first row and one offer per row of the product, in the order of
    the rows; nothing else appears. *)
Theorem search_groups_rows_by_product (rows : list search_row) :
  (forall g, In g (search_products rows) <-> exists id, group_of id rows = Some g)
  /\ NoDup (map pg_id (search_products rows)).
Proof.
  split; [intros g; apply search_products_groups|].
  rewrite search_products_keys.
  apply (fold_group_row rows [] [] (fun id => eq_refl) (NoDup_nil _)).
Qed.

(** X16. When the product ids are non-negative integers below 2^32 - 1, as
    the values of a SERIAL column are, the products of a search answer come
    in ascending order of id, whatever the ORDER BY of the query (price, or
    distance then price) made of the rows. *)
Theorem search_products_in_id_order (rows : list search_row) :
  Forall (fun row => is_array_index (sr_id row) = true) rows ->
  StronglySorted Z.lt (map pg_id (search_products rows)).
Proof.
  intros Hrows. rewrite search_products_keys.
  apply fold_group_row_sorted; [constructor | constructor | exact Hrows].
Qed.

(** Rows of products 7, 3, 7 in order of price: products 3 and 7, the two
    offers of 7 in the order of the rows. *)
Lemma search_products_in_id_order_witness :
  map pg_id (search_products demo_search_rows) = [3; 7]
  /\ map (fun g => map ro_price (pg_retailers g)) (search_products demo_search_rows)
     = [[450]; [400; 500]]
  /\ StronglySorted Z.lt (map pg_id (search_products demo_search_rows)).
Proof.
  split; [vm_compute; reflexivity|]. split; [vm_compute; reflexivity|].
  apply (search_products_in_id_order demo_search_rows).
  repeat constructor.
Defined.
(** * From the creation of a batch to its trace *)

Lemma filter_none {A} (f : A -> bool) (l : list A) :
  (forall x, In x l -> f x = false) -> filter f l = [].
Proof.
  induction l as [|x l IH]; intros H; cbn [filter]; [reflexivity|].
  rewrite (H x (or_introl eq_refl)). apply IH. intros y Hy. apply H. right; exact Hy.
Qed.

(** X17. A batch that was just created cannot be traced: when
    POST /api/products/:productId/batches answers 200 for a batch number
    that no batch carried, GET /api/trace/batch/:batchNumber, which
    answered 404 "Batch not found" before, answers 500 "Failed to trace
    batch" after, and leaves the database as it is. *)
Theorem created_batch_is_not_traced (order_by : sorter) (now uuid : Z)
    (req_user : user) (productId : Z) (batch_number : string)
    (manufacture_date expiry_date quantity_produced : Z)
    (lab_test_results : option string) (db db' : database) (res : response) :
  schema_keys (db_tables db) ->
  (forall b, In b (product_batches (db_tables db)) ->
             pb_batch_number b <> batch_number) ->
  post_products_batches now uuid req_user productId batch_number manufacture_date
    expiry_date quantity_produced lab_test_results db = (res, db') ->
  status res = 200 ->
  get_trace_batch order_by batch_number db
  = ({| status := 404; body := ErrorBody "Batch not found" |}, db)
  /\ get_trace_batch order_by batch_number db'
     = ({| status := 500; body := ErrorBody "Failed to trace batch" |}, db').
Proof.
  intros Hkeys Hnew Hrun Hst.
  pose proof (run_schema_keys
                (RecordManufacture now uuid req_user productId batch_number
                   manufacture_date expiry_date quantity_produced lab_test_results)
                db Hkeys) as Hkeys'.
  cbn [run] in Hkeys'. rewrite Hrun in Hkeys'. cbn [snd] in Hkeys'.
  rewrite !get_trace_batch_cases.
  rewrite (trace_batch_query_missing _ _ Hnew). split; [reflexivity|].
  destruct (post_products_batches_exact _ _ _ _ _ _ _ _ _ _ _ _ Hrun Hst)
    as (_ & _ & _ & _ & _ & _ & mid & E).
  set (nb := new_batch now (product_batches_id_seq (db_seqs db)) uuid productId
                       batch_number manufacture_date expiry_date quantity_produced
                       lab_test_results) in *.
  assert (Hnb : In nb (product_batches (db_tables db'))).
  { rewrite E. unfold after_manufacture. cbn. apply in_or_app. right; left; reflexivity. }
  pose proof (trace_batch_query_found batch_number _ nb Hkeys' Hnb eq_refl) as Hne.
  destruct (trace_batch_query batch_number (db_tables db')); [contradiction|].
  reflexivity.
Qed.

Lemma ledger0_schema_keys : schema_keys (db_tables ledger0).
Proof.
  unfold schema_keys. cbn.
  split; [repeat constructor; cbn; intuition discriminate|].
  split; [repeat constructor; cbn; intuition discriminate|].
  split; [constructor|]. split; [constructor|].
  split; [intros b []|].
  intros p [<-|[]]. eexists. split; [left; reflexivity | reflexivity].
Qed.

(** The first scenario: not found before, not traced after. *)
Lemma created_batch_is_not_traced_witness :
  get_trace_batch order_by_stable "BATCH-TEST-001" ledger0
  = ({| status := 404; body := ErrorBody "Batch not found" |}, ledger0)
  /\ get_trace_batch order_by_stable "BATCH-TEST-001" ledger1
     = ({| status := 500; body := ErrorBody "Failed to trace batch" |}, ledger1).
Proof.
  apply (created_batch_is_not_traced order_by_stable 1704067200 7001
           manufacturer_user 1 "BATCH-TEST-001" 19723 20089 1000 None
           ledger0 ledger1
           {| status := 200; body := BatchCreated 1 7001 |}
           ledger0_schema_keys
           (fun b (H : In b []) => match H with end) eq_refl eq_refl).
Defined.
(** * What a shipment is refused for, before anything is written *)



(** * From the plugin's token to the middleware *)

Lemma contains_app c a b :
  contains c (a ++ b)%string = contains c a || contains c b.
Proof.
  induction a as [|x a IH]; cbn [append]; [reflexivity|].
  rewrite !contains_cons, IH. apply orb_assoc.
Qed.

Lemma nth_default_In {A} (n : nat) (l : list A) (d : A) :
  In d l -> In (nth n l d) l.
Proof.
  intros Hd. destruct (Nat.lt_ge_cases n (List.length l)) as [H|H].
  - apply nth_In. exact H.
  - rewrite nth_overflow by exact H. exact Hd.
Qed.

Lemma base64_digit_std n : In (base64_digit n) base64_alphabet.
Proof. unfold base64_digit. apply nth_default_In. left. reflexivity. Qed.

(** A base64 text is made of the digits of the alphabet and the padding. *)
Lemma base64_encode_chars s :
  Forall (fun c => In c base64_alphabet \/ c = "="%char)
         (list_ascii_of_string (base64_encode s)).
Proof.
  assert (H : forall n s, (String.length s <= n)%nat ->
              Forall (fun c => In c base64_alphabet \/ c = "="%char)
                     (list_ascii_of_string (base64_encode s))).
  { clear s. induction n as [|n IH]; intros s Hlen.
    - destruct s; [constructor | cbn in Hlen; lia].
    - destruct s as [|a [|b [|c rest]]]; cbn [base64_encode list_ascii_of_string].
      + constructor.
      + do 2 (apply Forall_cons; [left; apply base64_digit_std|]).
        do 2 (apply Forall_cons; [right; reflexivity|]). apply Forall_nil.
      + do 3 (apply Forall_cons; [left; apply base64_digit_std|]).
        apply Forall_cons; [right; reflexivity|]. apply Forall_nil.
      + do 4 (apply Forall_cons; [left; apply base64_digit_std|]).
        apply IH. cbn [String.length] in Hlen. lia. }
  apply (H (String.length s)). lia.
Qed.

Lemma str_replace_char_chars search replace subject (P : ascii -> Prop) :
  Forall P (list_ascii_of_string replace) ->
  Forall (fun c => c <> search -> P c) (list_ascii_of_string subject) ->
  Forall P (list_ascii_of_string (str_replace_char search replace subject)).
Proof.
  intros Hr. induction subject as [|c rest IH]; intros Hs;
    cbn [str_replace_char list_ascii_of_string] in *; [constructor|].
  inversion Hs as [|? ? Hc Hrest]; subst.
  destruct (Ascii.eqb_spec c search) as [E|E].
  - assert (Happ : forall a b,
               list_ascii_of_string (a ++ b)%string
               = list_ascii_of_string a ++ list_ascii_of_string b).
    { intros a b. induction a as [|x a IHa]; cbn; [reflexivity|].
      rewrite IHa. reflexivity. }
    rewrite Happ. apply Forall_app. split; [exact Hr | apply IH; exact Hrest].
  - constructor; [apply Hc; exact E | apply IH; exact Hrest].
Qed.

Lemma base64url_chars s :
  Forall (fun c => is_base64url c = true) (list_ascii_of_string (base64url s)).
Proof.
  unfold base64url.
  apply str_replace_char_chars; [constructor|].
  apply str_replace_char_chars with
    (P := fun c => c <> "="%char -> is_base64url c = true);
    [apply Forall_cons; [intros _; reflexivity | apply Forall_nil]|].
  apply str_replace_char_chars with
    (P := fun c => c <> "/"%char -> c <> "="%char -> is_base64url c = true);
    [apply Forall_cons; [intros _ _; reflexivity | apply Forall_nil]|].
  eapply Forall_impl; [|apply base64_encode_chars].
  intros c [Hin| ->] Hplus Hslash Heq; [|contradiction Heq; reflexivity].
  unfold base64_alphabet in Hin. cbn [list_ascii_of_string In] in Hin.
  repeat (destruct Hin as [<-|Hin];
          [first [reflexivity | contradiction Hplus; reflexivity
                 | contradiction Hslash; reflexivity]|]).
  destruct Hin.
Qed.

Lemma base64url_clean sep s :
  is_base64url sep = false -> contains sep (base64url s) = false.
Proof.
  intros Hsep. unfold contains.
  pose proof (base64url_chars s) as H.
  induction H as [|c l Hc _ IH]; cbn [existsb]; [reflexivity|].
  rewrite IH, orb_false_r.
  destruct (Ascii.eqb_spec sep c) as [->|]; [congruence | reflexivity].
Qed.

Lemma generate_jwt_segments hmac payload secret :
  split "."%char (generate_jwt hmac payload secret)
  = [ base64url jwt_header_json; base64url payload;
      base64url (hmac (base64url jwt_header_json ++ "." ++ base64url payload)%string
                      secret) ]
  /\ contains " "%char (generate_jwt hmac payload secret) = false
  /\ truthy (generate_jwt hmac payload secret) = true.
Proof.
  unfold generate_jwt. cbv zeta.
  set (h := base64url jwt_header_json).
  set (p := base64url payload).
  set (s := base64url (hmac (h ++ "." ++ p)%string secret)).
  assert (Hh : contains "."%char h = false) by (apply base64url_clean; reflexivity).
  assert (Hp : contains "."%char p = false) by (apply base64url_clean; reflexivity).
  assert (Hs : contains "."%char s = false) by (apply base64url_clean; reflexivity).
  split; [|split].
  - change (h ++ "." ++ p ++ "." ++ s)%string
      with (h ++ String "."%char (p ++ String "."%char s))%string.
    rewrite (split_append _ _ _ Hh), (split_append _ _ _ Hp), (split_clean _ _ Hs).
    reflexivity.
  - rewrite !contains_app. unfold h, p, s.
    rewrite !base64url_clean by reflexivity. reflexivity.
  - assert (E : h = "eyJ0eXAiOiJKV1QiLCJhbGciOiJIUzI1NiJ9")
      by (vm_compute; reflexivity).
    rewrite E. reflexivity.
Qed.

Lemma header_token_bearer token :
  contains " "%char token = false ->
  header_token (Some ("Bearer " ++ token)%string) = Some token.
Proof.
  intros H. destruct (header_token_second_word "Bearer" token "" eq_refl H) as [E _].
  exact E.
Qed.

Lemma plugin_header_token hmac current_user_id time secret :
  header_token (Some (plugin_authorization hmac current_user_id time secret))
  = Some (get_api_token hmac current_user_id time secret)
  /\ truthy (get_api_token hmac current_user_id time secret) = true.
Proof.
  destruct (generate_jwt_segments hmac
              (jwt_payload_json current_user_id (time + 3600)) secret)
    as (_ & Hclean & Hne).
  split; [|exact Hne].
  exact (header_token_bearer _ Hclean).
Qed.

(** X19. The token that the plugin builds has three dot-separated
    base64url segments, the first being the encoded header, and holds no
    space; sent as 'Bearer ' . token, it is the very string on which the
    middleware calls jwt.verify, and 'No token provided' is never the
    answer to it. *)
Theorem plugin_token_reaches_verify_intact
    (hash_hmac_sha256 : string -> string -> string)
    (jwt_verify : string -> option jwt_payload)
    (wp_user_mapping : list wp_user_mapping_row)
    (current_user_id time : Z) (secret : string) :
  let token := get_api_token hash_hmac_sha256 current_user_id time secret in
  (exists payload signature,
     split "."%char token
     = ["eyJ0eXAiOiJKV1QiLCJhbGciOiJIUzI1NiJ9"; payload; signature])
  /\ header_token
       (Some (plugin_authorization hash_hmac_sha256 current_user_id time secret))
     = Some token
  /\ authenticateWPUser jwt_verify wp_user_mapping
       (Some (plugin_authorization hash_hmac_sha256 current_user_id time secret))
     = match jwt_verify token with
       | None => Responded {| status := 401; body := ErrorBody "Invalid token" |}
       | Some decoded =>
           match jwt_user_id decoded with
           | None => Responded {| status := 401; body := ErrorBody "User not found" |}
           | Some id =>
               match find (fun r => wum_wp_user_id r =? id) wp_user_mapping with
               | None =>
                   Responded {| status := 401; body := ErrorBody "User not found" |}
               | Some row => Next {| user_id := id; user_type := wum_user_type row |}
               end
           end
       end.
Proof.
  cbv zeta.
  destruct (plugin_header_token hash_hmac_sha256 current_user_id time secret)
    as [Htok Hne].
  split; [|split; [exact Htok|]].
  - unfold get_api_token.
    destruct (generate_jwt_segments hash_hmac_sha256
                (jwt_payload_json current_user_id (time + 3600)) secret)
      as (Hseg & _).
    assert (E : base64url jwt_header_json = "eyJ0eXAiOiJKV1QiLCJhbGciOiJIUzI1NiJ9")
      by (vm_compute; reflexivity).
    rewrite Hseg, E. do 2 eexists. reflexivity.
  - unfold authenticateWPUser. rewrite Htok, Hne. cbn [negb].
    destruct (jwt_verify _) as [[[id|]]|]; cbn [jwt_user_id]; try reflexivity.
    rewrite filter_find.
    destruct (filter _ wp_user_mapping); reflexivity.
Qed.
(** * Product creation *)

Ltac ctx_split H :=
  repeat
    (cbn [fst snd db_tables db_seqs cat_db cat_product_categories cat_products_rest
          cat_compliance_log cat_products_id_seq cat_compliance_log_id_seq] in H;
     match type of H with
     | context [if ?c then _ else _] => destruct c eqn:?
     | context [match ?x with [] => _ | _ :: _ => _ end] => destruct x eqn:?
     | context [match ?x with Some _ => _ | None => _ end] => destruct x eqn:?
     end).

Lemma post_products_exact now uuid req_user req_ip user_agent body s res s' :
  post_products now uuid req_user req_ip user_agent body s = (res, s') ->
  c_status res = 200 ->
  user_type req_user = "manufacturer"
  /\ exists owner product_name sku category_id,
       manufacturer_of_user req_user (db_tables (cat_db s)) = Some owner
       /\ b_product_name body = Some product_name
       /\ b_sku body = Some sku
       /\ b_category_id body = Some category_id
       /\ existsb (fun c => pc_id c =? category_id) (cat_product_categories s) = true
       /\ existsb (fun x => px_uuid x =? uuid) (cat_products_rest s) = false
       /\ existsb (fun p => (p_manufacturer_id p =? m_id owner)
                            && String.eqb (p_sku p) sku)
                  (products (db_tables (cat_db s))) = false
       /\ res = {| c_status := 200;
                   c_body := ProductCreated (cat_products_id_seq s) uuid |}
       /\ s' = {| cat_db :=
                    {| db_tables :=
                         set_products
                           (products (db_tables (cat_db s))
                            ++ [ {| p_id := cat_products_id_seq s;
                                    p_manufacturer_id := m_id owner;
                                    p_product_name := product_name;
                                    p_sku := sku |} ])
                           (db_tables (cat_db s));
                       db_seqs := db_seqs (cat_db s) |};
                  cat_product_categories := cat_product_categories s;
                  cat_products_rest :=
                    cat_products_rest s
                    ++ [ {| px_id := cat_products_id_seq s; px_uuid := uuid;
                            px_category_id := category_id;
                            px_description := b_description body;
                            px_nicotine_strength := b_nicotine_strength body;
                            px_volume_ml := b_volume_ml body;
                            px_flavor := b_flavor body;
                            px_ingredients := or_default (b_ingredients body) [];
                            px_warnings := or_default (b_warnings body) [];
                            px_images := or_default (b_images body) "[]";
                            px_attributes := or_default (b_attributes body) "{}";
                            px_status := "draft";
                            px_created_at := now |} ];
                  cat_compliance_log :=
                    cat_compliance_log s
                    ++ [ {| cl_id := cat_compliance_log_id_seq s;
                            cl_event_type := "product_created";
                            cl_entity_type := "product";
                            cl_entity_id := cat_products_id_seq s;
                            cl_user_id := Some (user_id req_user);
                            cl_event_data := b_json body;
                            cl_ip_address := req_ip;
                            cl_user_agent := user_agent;
                            cl_created_at := now |} ];
                  cat_products_id_seq := cat_products_id_seq s + 1;
                  cat_compliance_log_id_seq := cat_compliance_log_id_seq s + 1 |}.
Proof.
  intros H Hst. unfold post_products in H.
  destruct (String.eqb_spec (user_type req_user) "manufacturer") as [Hty|Hty];
    cbn [negb] in H; [|inversion H; subst; discriminate Hst].
  split; [exact Hty|].
  unfold manufacturer_of_user. rewrite filter_find.
  cbv [cbind insert_products insert_compliance_log] in H.
  ctx_split H; inversion H; subst res s'; try discriminate Hst; clear H Hst.
  repeat match goal with
         | Hn : negb _ = false |- _ => apply negb_false_iff in Hn
         end.
  do 4 eexists. cbn [hd_error].
  repeat (split; [first [reflexivity | eassumption]|]).
  reflexivity.
Qed.
Lemma post_products_succeeds now uuid req_user req_ip user_agent body s
    owner product_name sku category_id :
  catalogue_ok s ->
  user_type req_user = "manufacturer" ->
  manufacturer_of_user req_user (db_tables (cat_db s)) = Some owner ->
  b_product_name body = Some product_name ->
  b_sku body = Some sku ->
  b_category_id body = Some category_id ->
  existsb (fun c => pc_id c =? category_id) (cat_product_categories s) = true ->
  existsb (fun x => px_uuid x =? uuid) (cat_products_rest s) = false ->
  existsb (fun p => (p_manufacturer_id p =? m_id owner) && String.eqb (p_sku p) sku)
          (products (db_tables (cat_db s))) = false ->
  c_status (fst (post_products now uuid req_user req_ip user_agent body s)) = 200.
Proof.
  intros (Kp & Kl & _) Hty Hm Hname Hsku Hcat Hc Hu Hs.
  destruct (find_In _ _ _ Hm) as [Hmin _].
  destruct (find_filter_cons _ _ _ Hm) as [ms Hf].
  unfold post_products. rewrite Hty, String.eqb_refl. cbn [negb].
  rewrite Hf. unfold cbind, insert_products, insert_compliance_log.
  rewrite Hname, Hsku, Hcat.
  unfold has_product. rewrite (ids_below_fresh p_id _ _ Kp).
  rewrite Hu, Hs.
  replace (existsb (fun m => m_id m =? m_id owner)
                   (manufacturers (db_tables (cat_db s)))) with true
    by (symmetry; apply existsb_exists; exists owner;
        split; [exact Hmin | apply Z.eqb_refl]).
  rewrite Hc. cbn [negb fst snd cat_compliance_log cat_compliance_log_id_seq].
  rewrite (ids_below_fresh cl_id _ _ Kl). reflexivity.
Qed.

(** X20. In a catalogue whose ids are below their sequences, POST
    /api/products answers 200 exactly when the caller is of type
    manufacturer and has a manufacturers row, the body holds product_name,
    sku and an existing category_id, and neither the uuid nor the pair
    (manufacturer, sku) is taken. *)
Theorem create_product_succeeds_iff (now uuid : Z) (req_user : user)
    (req_ip user_agent : option string) (body : product_body) (s : catalogue) :
  catalogue_ok s ->
  c_status (fst (post_products now uuid req_user req_ip user_agent body s)) = 200
  <-> user_type req_user = "manufacturer"
      /\ exists owner product_name sku category_id,
           manufacturer_of_user req_user (db_tables (cat_db s)) = Some owner
           /\ b_product_name body = Some product_name
           /\ b_sku body = Some sku
           /\ b_category_id body = Some category_id
           /\ existsb (fun c => pc_id c =? category_id) (cat_product_categories s)
              = true
           /\ existsb (fun x => px_uuid x =? uuid) (cat_products_rest s) = false
           /\ existsb (fun p => (p_manufacturer_id p =? m_id owner)
                                && String.eqb (p_sku p) sku)
                      (products (db_tables (cat_db s))) = false.
Proof.
  intros Hok. split.
  - intros Hst.
    destruct (post_products now uuid req_user req_ip user_agent body s)
      as [res s'] eqn:H.
    destruct (post_products_exact _ _ _ _ _ _ _ _ _ H Hst)
      as (Hty & owner & name & sku & cat & H1 & H2 & H3 & H4 & H5 & H6 & H7 & _).
    split; [exact Hty|]. exists owner, name, sku, cat. auto 10.
  - intros (Hty & owner & name & sku & cat & H1 & H2 & H3 & H4 & H5 & H6 & H7).
    eapply post_products_succeeds; eassumption.
Qed.

Lemma demo_catalogue_ok : catalogue_ok demo_catalogue.
Proof.
  unfold catalogue_ok. cbn. split; [|split; [constructor | reflexivity]].
  constructor; [reflexivity | constructor].
Qed.

Lemma create_product_succeeds_iff_witness :
  c_status (fst (post_products 1704067200 5002 manufacturer_user None None
                   demo_product_body demo_catalogue)) = 200
  /\ user_type manufacturer_user = "manufacturer".
Proof.
  split; [reflexivity|].
  apply (proj1 (create_product_succeeds_iff 1704067200 5002 manufacturer_user None
                  None demo_product_body demo_catalogue demo_catalogue_ok)).
  reflexivity.
Defined.

Lemma owns_product_created req_user owner t id product_name sku :
  manufacturer_of_user req_user t = Some owner ->
  owns_product req_user id
    (set_products (products t
                   ++ [ {| p_id := id; p_manufacturer_id := m_id owner;
                           p_product_name := product_name; p_sku := sku |} ]) t).
Proof.
  intros Hm. destruct (find_In _ _ _ Hm) as [Hin Hwp]. apply Z.eqb_eq in Hwp.
  eexists _, owner. cbn [products manufacturers set_products].
  split; [apply in_or_app; right; left; reflexivity|].
  repeat split; auto.
Qed.

Lemma ledger_ok_created db row :
  ledger_ok db ->
  ledger_ok {| db_tables := set_products (products (db_tables db) ++ [row])
                                         (db_tables db);
               db_seqs := db_seqs db |}.
Proof.
  intros (Kb & Kbn & Kr & Krn & Km & Kc & Ki).
  unfold ledger_ok.
  cbn [db_tables db_seqs product_batches retailer_inventory product_movements
       consumer_purchases purchase_items set_products].
  repeat apply conj; try assumption.
  eapply Forall_impl; [|exact Kb]. cbn. intros b (? & ? & Hp).
  repeat split; try assumption.
  unfold has_product in *. cbn [products]. rewrite existsb_app, Hp. reflexivity.
Qed.

(** X21. A product that POST /api/products creates is a draft of the
    caller's manufacturer, and is logged: the products row carries the next
    id of the sequence, the manufacturer of the caller, and name and sku as
    sent; its status is 'draft'; compliance_log gains one 'product_created'
    row for that id and the caller; the caller owns the product in the
    sense of the batch handler; and the catalogue stays well-formed. *)
Theorem created_product_is_a_logged_draft (now uuid : Z) (req_user : user)
    (req_ip user_agent : option string) (body : product_body)
    (s s' : catalogue) (res : catalogue_response) :
  catalogue_ok s ->
  post_products now uuid req_user req_ip user_agent body s = (res, s') ->
  c_status res = 200 ->
  res = {| c_status := 200; c_body := ProductCreated (cat_products_id_seq s) uuid |}
  /\ (exists owner product_name sku,
        manufacturer_of_user req_user (db_tables (cat_db s)) = Some owner
        /\ b_product_name body = Some product_name /\ b_sku body = Some sku
        /\ products (db_tables (cat_db s'))
           = products (db_tables (cat_db s))
             ++ [ {| p_id := cat_products_id_seq s; p_manufacturer_id := m_id owner;
                     p_product_name := product_name; p_sku := sku |} ])
  /\ (exists rest,
        cat_products_rest s' = cat_products_rest s ++ [rest]
        /\ px_id rest = cat_products_id_seq s /\ px_uuid rest = uuid
        /\ px_status rest = "draft")
  /\ (exists entry,
        cat_compliance_log s' = cat_compliance_log s ++ [entry]
        /\ cl_event_type entry = "product_created"
        /\ cl_entity_id entry = cat_products_id_seq s
        /\ cl_user_id entry = Some (user_id req_user))
  /\ owns_product req_user (cat_products_id_seq s) (db_tables (cat_db s'))
  /\ catalogue_ok s'.
Proof.
  intros (Kp & Kl & Kx) H Hst.
  destruct (post_products_exact _ _ _ _ _ _ _ _ _ H Hst)
    as (Hty & owner & name & sku & cat & Hm & Hn & Hs & _ & _ & _ & _ & -> & ->).
  cbn [cat_db cat_products_rest cat_compliance_log db_tables products set_products
       cat_products_id_seq cat_compliance_log_id_seq].
  split; [reflexivity|].
  split; [exists owner, name, sku; auto|].
  split; [eexists; split; [reflexivity|]; cbn; auto|].
  split; [eexists; split; [reflexivity|]; cbn; auto|].
  split; [apply owns_product_created; exact Hm|].
  unfold catalogue_ok.
  cbn [cat_db cat_products_rest cat_compliance_log db_tables products set_products
       cat_products_id_seq cat_compliance_log_id_seq].
  split; [|split].
  - apply Forall_app. split.
    + eapply Forall_impl; [|exact Kp]. cbn. intros; lia.
    + constructor; [cbn; lia | constructor].
  - apply Forall_app. split.
    + eapply Forall_impl; [|exact Kl]. cbn. intros; lia.
    + constructor; [cbn; lia | constructor].
  - rewrite !map_app, Kx. reflexivity.
Qed.

Lemma created_product_is_a_logged_draft_witness :
  exists s',
    post_products 1704067200 5002 manufacturer_user None None demo_product_body
                  demo_catalogue
    = ({| c_status := 200; c_body := ProductCreated 2 5002 |}, s')
    /\ owns_product manufacturer_user 2 (db_tables (cat_db s'))
    /\ map px_status (cat_products_rest s') = ["draft"; "draft"].
Proof.
  eexists. split; [reflexivity|].
  split; [|reflexivity].
  apply (created_product_is_a_logged_draft 1704067200 5002 manufacturer_user None
           None demo_product_body demo_catalogue _ _ demo_catalogue_ok eq_refl
           eq_refl).
Defined.

(** X22. Whoever created a product can record its first batch: after POST
    /api/products answered 200 with a product id, POST
    /api/products/:productId/batches by the same caller for that id answers
    200 whenever the quantity is positive, the dates are in order and the
    uuid is free, whatever batch number is sent (length and range limits of
    the column types aside: a quantity beyond INTEGER or a batch number
    beyond VARCHAR(100) is refused). *)
Theorem creator_can_record_a_batch (now uuid : Z) (req_user : user)
    (req_ip user_agent : option string) (body : product_body)
    (s s' : catalogue) (res : catalogue_response)
    (now' uuid' : Z) (batch_number : string)
    (manufacture_date expiry_date quantity_produced : Z)
    (lab_test_results : option string) :
  catalogue_ok s -> ledger_ok (cat_db s) ->
  post_products now uuid req_user req_ip user_agent body s = (res, s') ->
  c_status res = 200 ->
  0 < quantity_produced -> manufacture_date < expiry_date ->
  existsb (fun b => pb_uuid b =? uuid') (product_batches (db_tables (cat_db s)))
  = false ->
  status (fst (post_products_batches now' uuid' req_user (cat_products_id_seq s)
                 batch_number manufacture_date expiry_date quantity_produced
                 lab_test_results (cat_db s'))) = 200.
Proof.
  intros (Kp & _) Hok H Hst Hq Hd Hu.
  destruct (post_products_exact _ _ _ _ _ _ _ _ _ H Hst)
    as (Hty & owner & name & sku & cat & Hm & _ & _ & _ & _ & _ & _ & _ & ->).
  cbn [cat_db].
  apply post_products_batches_succeeds.
  - apply ledger_ok_created. exact Hok.
  - apply owns_product_created. exact Hm.
  - exact Hq.
  - exact Hd.
  - exact Hu.
  - cbn [db_tables product_batches set_products].
    destruct Hok as (Kb & _).
    apply not_true_iff_false. intros He. apply existsb_exists in He.
    destruct He as (b & Hb & E). apply andb_true_iff in E. destruct E as [E _].
    apply Z.eqb_eq in E.
    pose proof (proj1 (Forall_forall _ _) Kb b Hb) as (_ & _ & Hp).
    rewrite E in Hp. unfold has_product in Hp.
    rewrite (ids_below_fresh p_id _ _ Kp) in Hp. discriminate Hp.
Qed.

Lemma creator_can_record_a_batch_witness :
  status (fst (post_products_batches 1704070000 7002 manufacturer_user 2 "MINT-B1"
                 19723 20089 500 None
                 (cat_db (snd (post_products 1704067200 5002 manufacturer_user None
                                 None demo_product_body demo_catalogue))))) = 200.
Proof.
  apply (creator_can_record_a_batch 1704067200 5002 manufacturer_user None None
           demo_product_body demo_catalogue _ _ 1704070000 7002 "MINT-B1"
           19723 20089 500 None demo_catalogue_ok ledger0_ok eq_refl eq_refl
           eq_refl eq_refl eq_refl).
Defined.
(** * The retailers' catalogue and the products that the API creates *)

Lemma available_from_rest today s j :
  In j (available_from today s) -> In (aj_px j) (cat_products_rest s).
Proof.
  unfold available_from, products_full. intros H.
  apply in_flat_map in H. destruct H as ([p x] & Hpx & H).
  apply in_flat_map in H. destruct H as (m & _ & H).
  apply in_flat_map in H. destruct H as (c & _ & H).
  apply in_map_iff in H. destruct H as (pb & <- & _). cbn [aj_px snd].
  apply in_combine_r in Hpx. exact Hpx.
Qed.

Lemma available_rows_none ilike category search today s :
  no_active_product s ->
  filter (available_where ilike category search) (available_from today s) = [].
Proof.
  intros Hno. apply filter_none. intros j Hj.
  apply available_from_rest in Hj.
  pose proof (proj1 (Forall_forall _ _) Hno _ Hj) as Hst.
  unfold available_where.
  destruct (String.eqb_spec (px_status (aj_px j)) "active") as [E|_];
    [contradiction | reflexivity].
Qed.

Lemma get_products_available_empty ilike order_by_name today req_user category
    search page limit s :
  (forall A (key : A -> string) l, Permutation l (order_by_name A key l)) ->
  no_active_product s ->
  a_status (get_products_available ilike order_by_name today req_user category
              search page limit s) = 200 ->
  get_products_available ilike order_by_name today req_user category search page
                         limit s
  = {| a_status := 200;
       a_body := AvailableProducts []
                   {| pg_page := or_default page 1; pg_limit := or_default limit 20;
                      pg_total := 0 |} |}.
Proof.
  intros Hord Hno. unfold get_products_available.
  destruct (negb _); [discriminate|]. cbv zeta.
  destruct (_ || _); [discriminate|]. intros _.
  rewrite (available_rows_none _ _ _ _ _ Hno). cbn [map distinct_keys filter].
  assert (E : order_by_name available_row (fun r => ak_product_name (ar_key r)) []
              = []).
  { apply Permutation_nil. apply Hord. }
  rewrite E, skipn_nil, firstn_nil. reflexivity.
Qed.

Lemma post_products_rest now uuid req_user req_ip user_agent body s :
  no_active_product s ->
  no_active_product (snd (post_products now uuid req_user req_ip user_agent body s)).
Proof.
  intros Hno.
  destruct (post_products now uuid req_user req_ip user_agent body s)
    as [res s'] eqn:H.
  cbn [snd]. unfold post_products in H.
  destruct (negb _); [inversion H; subst; exact Hno|].
  cbv [cbind insert_products insert_compliance_log] in H.
  ctx_split H; inversion H; subst res s'; clear H;
    unfold no_active_product, catalogue_rollback; cbn [cat_products_rest];
    try exact Hno.
  apply Forall_app. split; [exact Hno|].
  constructor; [cbn; discriminate | constructor].
Qed.

Lemma serve_no_active call s : no_active_product s -> no_active_product (serve call s).
Proof.
  intros Hno. destruct call; cbn [serve];
    [apply post_products_rest; exact Hno | exact Hno].
Qed.

(** X23. A product that the API creates is never offered to retailers:
    POST /api/products leaves status at its default, 'draft', no handler
    writes another, and GET /api/products/available lists active products
    only.  So in a catalogue reached by any calls from one without an
    active product, the listing, when it answers 200, is empty, whatever
    the filters and the page. *)
Theorem created_products_are_never_listed
    (ilike : string -> string -> bool)
    (order_by_name : forall A : Type, (A -> string) -> list A -> list A)
    (calls : list api_call) (s : catalogue)
    (today : Z) (req_user : user) (category search : option string)
    (page limit : option Z) :
  (forall A (key : A -> string) l, Permutation l (order_by_name A key l)) ->
  no_active_product s ->
  a_status (get_products_available ilike order_by_name today req_user category
              search page limit (fold_left (fun s call => serve call s) calls s))
  = 200 ->
  get_products_available ilike order_by_name today req_user category search page
                         limit (fold_left (fun s call => serve call s) calls s)
  = {| a_status := 200;
       a_body := AvailableProducts []
                   {| pg_page := or_default page 1; pg_limit := or_default limit 20;
                      pg_total := 0 |} |}.
Proof.
  intros Hord Hno. apply get_products_available_empty; [exact Hord|].
  revert s Hno. induction calls as [|call calls IH]; intros s Hno; cbn [fold_left];
    [exact Hno|].
  apply IH. apply serve_no_active. exact Hno.
Qed.

Lemma insert_by_name_perm {A} (key : A -> string) x l :
  Permutation (x :: l) (insert_by_name key x l).
Proof.
  induction l as [|y l IH]; cbn [insert_by_name]; [reflexivity|].
  destruct (String.leb (key y) (key x)); [|reflexivity].
  rewrite perm_swap. apply perm_skip. exact IH.
Qed.

Lemma order_by_code_units_perm A (key : A -> string) l :
  Permutation l (order_by_code_units A key l).
Proof.
  unfold order_by_code_units.
  assert (H : forall acc, Permutation (acc ++ l)
                (fold_left (fun acc x => insert_by_name key x acc) l acc)).
  { induction l as [|x l IH]; intros acc; cbn [fold_left].
    - rewrite app_nil_r. reflexivity.
    - rewrite <- IH. rewrite <- insert_by_name_perm.
      cbn [app]. symmetry. apply Permutation_middle. }
  apply (H []).
Qed.

(** A product created, a batch of it made: the listing stays empty. *)
Lemma created_products_are_never_listed_witness :
  get_products_available ilike_anything order_by_code_units 19800 retailer_user
    None None None None
    (fold_left (fun s call => serve call s)
       [ CreateProduct 1704067200 5002 manufacturer_user None None demo_product_body;
         LedgerRequest (RecordManufacture 1704070000 7002 manufacturer_user 2
                          "MINT-B1" 19723 20089 500 None) ]
       demo_catalogue)
  = {| a_status := 200;
       a_body := AvailableProducts []
                   {| pg_page := 1; pg_limit := 20; pg_total := 0 |} |}.
Proof.
  apply (created_products_are_never_listed ilike_anything order_by_code_units
           _ demo_catalogue 19800 retailer_user None None None None
           order_by_code_units_perm).
  - repeat constructor; cbn; discriminate.
  - vm_compute. reflexivity.
Defined.
Lemma js_define_flat_map {V B} key (v : V) o (f : Z * V -> list B) :
  Permutation (flat_map f (js_define key v o)) (f (key, v) ++ flat_map f o).
Proof.
  induction o as [|[k0 v0] rest IH]; cbn [js_define flat_map].
  - reflexivity.
  - destruct (is_array_index key && _); cbn [flat_map]; [reflexivity|].
    rewrite IH. rewrite !app_assoc. apply Permutation_app_tail.
    apply Permutation_app_comm.
Qed.

Lemma js_update_absent {V} key (g : V -> V) o :
  ~ In key (map fst o) -> js_update key g o = o.
Proof.
  unfold js_update. induction o as [|[k0 v0] rest IH]; intros Hno; cbn [map fst snd];
    [reflexivity|].
  cbn [map fst In] in Hno.
  destruct (Z.eqb_spec k0 key) as [E|_]; [exfalso; apply Hno; left; exact E|].
  rewrite IH; [reflexivity|]. intros Hin. apply Hno. right; exact Hin.
Qed.

Lemma js_update_flat_map {V B} key (g : V -> V) o (f : Z * V -> list B) (x : B) :
  NoDup (map fst o) -> In key (map fst o) ->
  (forall v, f (key, g v) = f (key, v) ++ [x]) ->
  Permutation (flat_map f (js_update key g o)) (x :: flat_map f o).
Proof.
  intros Hnd Hin Hf. induction o as [|[k0 v0] rest IH]; [destruct Hin|].
  inversion Hnd as [|? ? Hk0 Hrest]; subst. cbn [map fst] in Hk0, Hin.
  change (js_update key g ((k0, v0) :: rest))
    with ((if k0 =? key then (k0, g v0) else (k0, v0)) :: js_update key g rest).
  cbn [flat_map].
  destruct (Z.eqb_spec k0 key) as [->|Hne].
  - rewrite (js_update_absent key g rest Hk0), Hf.
    rewrite <- app_assoc. cbn [app].
    symmetry. apply Permutation_middle.
  - destruct Hin as [E|Hin]; [contradiction|].
    rewrite (IH Hrest Hin). symmetry. apply Permutation_middle.
Qed.

Lemma group_row_offers acc row :
  NoDup (map fst acc) ->
  Permutation (flat_map (fun kv => pg_retailers (snd kv)) (group_row acc row))
              (offer_of row :: flat_map (fun kv => pg_retailers (snd kv)) acc).
Proof.
  intros Hnd. unfold group_row.
  destruct (js_get (sr_id row) acc) as [g|] eqn:Hg.
  - apply js_update_flat_map; [exact Hnd | | reflexivity].
    destruct (in_dec Z.eq_dec (sr_id row) (map fst acc)) as [Hin|Hno]; [exact Hin|].
    apply js_get_None in Hno. congruence.
  - apply js_get_None in Hg.
    rewrite js_update_flat_map with (x := offer_of row).
    + apply perm_skip. rewrite js_define_flat_map. reflexivity.
    + apply js_define_NoDup; assumption.
    + apply js_define_keys. left; reflexivity.
    + reflexivity.
Qed.

Lemma fold_group_row_offers rows :
  forall acc,
  NoDup (map fst acc) ->
  Permutation
    (flat_map (fun kv => pg_retailers (snd kv)) (fold_left group_row rows acc))
    (flat_map (fun kv => pg_retailers (snd kv)) acc ++ map offer_of rows).
Proof.
  induction rows as [|row rest IH]; intros acc Hnd; cbn [fold_left map].
  - rewrite app_nil_r. reflexivity.
  - rewrite (IH _ (group_row_NoDup acc row Hnd)), (group_row_offers acc row Hnd).
    cbn [app]. apply Permutation_middle.
Qed.

(** X24. The grouping loses and invents nothing: the retailer entries of
    all products of a search answer are the rows of the query, each once.
    There are as many entries as rows, so no more than the LIMIT of the
    query; and when every row has stock, as the WHERE clause of both
    queries demands, in_stock is true in every entry. *)
Theorem search_offers_are_the_rows (rows : list search_row) :
  Permutation (flat_map pg_retailers (search_products rows)) (map offer_of rows)
  /\ List.length (flat_map pg_retailers (search_products rows)) = List.length rows
  /\ (Forall (fun row => 0 < sr_quantity_in_stock row) rows ->
      Forall (fun g => Forall (fun o => ro_in_stock o = true) (pg_retailers g))
             (search_products rows)).
Proof.
  assert (P : Permutation (flat_map pg_retailers (search_products rows))
                          (map offer_of rows)).
  { unfold search_products. rewrite flat_map_concat_map, map_map.
    rewrite <- flat_map_concat_map.
    apply (fold_group_row_offers rows [] (NoDup_nil _)). }
  split; [exact P|]. split.
  - rewrite (Permutation_length P). apply length_map.
  - intros Hstock. apply Forall_forall. intros g Hg.
    apply Forall_forall. intros o Ho.
    assert (Hin : In o (map offer_of rows)).
    { apply (Permutation_in _ P). apply in_flat_map. exists g. auto. }
    apply in_map_iff in Hin. destruct Hin as (row & <- & Hrow).
    cbn [offer_of ro_in_stock]. apply Z.ltb_lt.
    exact (proj1 (Forall_forall _ _) Hstock row Hrow).
Qed.
(** * A route behind the middleware *)


